(** * pymanifold: the schematic builder, its translation driver and the IR export

    A shallow embedding of [src/pymanifold.py] (classes [Fluid] and
    [Schematic]).  Python values are an inductive type, exceptions are an
    inductive type, a method of [Schematic] is a function in a state and
    exception monad over the object's fields, and the NetworkX [DiGraph]
    is an insertion-ordered association list, as a Python dict is.

    The modules [translate] and [constants] and the dReal solver are
    collaborators whose code is not part of the file: they enter as the
    fields of the record [Collaborators].  The part of NetworkX that the
    class uses is modelled in the module [Nx]. *)

From Stdlib Require Import String Ascii List ZArith QArith Bool Lia.
From Stdlib Require Import DecimalString DecimalNat.
Import ListNotations.
Open Scope string_scope.
Open Scope list_scope.

(** ** Python values *)

Module Py.

(** The values a caller can pass for a parameter.  A float is represented
    by the rational it denotes (only its sign, its truth value and its
    equality with other numbers are inspected by the code; NaN and the
    infinities are left out). *)
Inductive pyval :=
| PNone
| PBool (b : bool)
| PInt (z : Z)
| PFloat (q : Q)
| PStr (s : string).

(** The message of an exception, by the place that raises it. *)
Inductive message :=
| must_be_a_string (component : string) (name : list pyval) (param : pyval)
| must_be_int_or_float (component : string) (name : list pyval) (param : pyval)
| must_be_ge_0 (component : string) (name : list pyval) (param : pyval)
| valid_channel_kinds_are
| kind_must_be_either (strat : string)
| must_provide_a_unique_name
| schematic_input_has_no_output (name : pyval)
| schematic_has_no_input
| builtin (what : string).

Inductive exn :=
| TypeError (m : message)
| ValueError (m : message)
| KeyError (key : string)
| IndexError (m : message)
| AttributeError (m : message).

Definition result (A : Type) : Type := (exn + A)%type.

Definition is_ValueError (e : exn) : Prop :=
  match e with ValueError _ => True | _ => False end.
Definition is_TypeError (e : exn) : Prop :=
  match e with TypeError _ => True | _ => False end.

(** [bool(x)]: the truth value that [not x] negates. *)
Definition truthy (v : pyval) : bool :=
  match v with
  | PNone => false
  | PBool b => b
  | PInt z => negb (z =? 0)%Z
  | PFloat q => negb (Qeq_bool q 0)
  | PStr s => negb (s =? "")
  end.

(** The number a [bool], [int] or [float] denotes. *)
Definition num_val (v : pyval) : option Q :=
  match v with
  | PBool b => Some (if b then 1 else 0)%Q
  | PInt z => Some (inject_Z z)
  | PFloat q => Some q
  | _ => None
  end.

(** [a == b], which is also the equality of dict keys ([True == 1 == 1.0]). *)
Definition py_eq (a b : pyval) : bool :=
  match a, b with
  | PNone, PNone => true
  | PStr s, PStr t => (s =? t)
  | _, _ =>
      match num_val a, num_val b with
      | Some x, Some y => Qeq_bool x y
      | _, _ => false
      end
  end.

Definition isinstance_str (v : pyval) : bool :=
  match v with PStr _ => true | _ => false end.
(** [bool] is a subclass of [int]. *)
Definition isinstance_int (v : pyval) : bool :=
  match v with PBool _ | PInt _ => true | _ => false end.
Definition isinstance_float (v : pyval) : bool :=
  match v with PFloat _ => true | _ => false end.

Definition Qltb (x y : Q) : bool := negb (Qle_bool y x).

(** [param < 0] and [param > 0]: a [TypeError] for [None] and strings. *)
Definition py_lt0 (v : pyval) : result bool :=
  match num_val v with
  | Some x => inr (Qltb x 0)
  | None => inl (TypeError (builtin "'<' not supported"))
  end.
Definition py_gt0 (v : pyval) : result bool :=
  match num_val v with
  | Some x => inr (Qltb 0 x)
  | None => inl (TypeError (builtin "'>' not supported"))
  end.

(** A negative [int] or [float]. *)
Definition negative (v : pyval) : bool :=
  match num_val v with Some x => Qltb x 0 | None => false end.

(** *** Strings *)

Definition lower_ascii (c : ascii) : ascii :=
  let n := nat_of_ascii c in
  if (65 <=? n)%nat && (n <=? 90)%nat then ascii_of_nat (n + 32) else c.

(** [s.lower()] on the ASCII letters; every other character is left as
    it is (Python lowers the letters outside ASCII too). *)
Fixpoint lower (s : string) : string :=
  match s with
  | EmptyString => EmptyString
  | String c s' => String (lower_ascii c) (lower s')
  end.

(** [v.lower()]: only a [str] has the method. *)
Definition py_lower (v : pyval) : result string :=
  match v with
  | PStr s => inr (lower s)
  | _ => inl (AttributeError (builtin "object has no attribute 'lower'"))
  end.

(** [s in t] for two strings: [s] occurs in [t]. *)
Fixpoint contains (s t : string) : bool :=
  String.prefix s t ||
  match t with
  | EmptyString => false
  | String _ t' => contains s t'
  end.

(** [v in t] for a string [t]: a [TypeError] unless [v] is a string. *)
Definition py_in_str (v : pyval) (t : string) : result bool :=
  match v with
  | PStr s => inr (contains s t)
  | _ => inl (TypeError (builtin "'in <string>' requires string as left operand"))
  end.

(** [sep.join(items)]: every item must be a [str]. *)
Fixpoint strs (items : list pyval) : result (list string) :=
  match items with
  | [] => inr []
  | PStr s :: rest =>
      match strs rest with
      | inr l => inr (s :: l)
      | inl e => inl e
      end
  | _ :: _ => inl (TypeError (builtin "sequence item: expected str instance"))
  end.

Definition py_join (sep : string) (items : list pyval) : result string :=
  match strs items with
  | inr l => inr (String.concat sep l)
  | inl e => inl e
  end.

(** [v + suffix] for a string [suffix]. *)
Definition py_add_str (v : pyval) (suffix : string) : result string :=
  match v with
  | PStr s => inr (s ++ suffix)%string
  | _ => inl (TypeError (builtin "unsupported operand type(s) for +"))
  end.

(** [s.split(sep)] for a one-character separator. *)
Fixpoint split (sep : ascii) (s : string) : list string :=
  match s with
  | EmptyString => [EmptyString]
  | String c s' =>
      if Ascii.eqb c sep then EmptyString :: split sep s'
      else match split sep s' with
           | [] => [String c EmptyString]
           | w :: ws => String c w :: ws
           end
  end.

(** [str(n)] for a natural number. *)
Definition str_of_nat (n : nat) : string :=
  NilEmpty.string_of_uint (Nat.to_uint n).

(** *** Dicts

    A dict is an association list in insertion order: assigning to a key
    that is present replaces the value in place and keeps the key object,
    assigning to a new key appends. *)
Section Dict.
Context {K V : Type} (eqb : K -> K -> bool).

Fixpoint dict_set (k : K) (v : V) (d : list (K * V)) : list (K * V) :=
  match d with
  | [] => [(k, v)]
  | (k', v') :: d' =>
      if eqb k' k then (k', v) :: d' else (k', v') :: dict_set k v d'
  end.

Fixpoint dict_get (k : K) (d : list (K * V)) : option V :=
  match d with
  | [] => None
  | (k', v') :: d' => if eqb k' k then Some v' else dict_get k d'
  end.

Definition dict_has (k : K) (d : list (K * V)) : bool :=
  match dict_get k d with Some _ => true | None => false end.

(** A dict display [{k1: v1, k2: v2, ...}]. *)
Definition dict_of (items : list (K * V)) : list (K * V) :=
  fold_left (fun d kv => dict_set (fst kv) (snd kv) d) items [].
End Dict.

End Py.
Export Py.

(** ** The NetworkX directed graph *)

Module Nx.

(** Per-analyte data of a fluid, keyed by the analyte. *)
Definition analyte_table := list (string * Q).

(** What an attribute slot of a node or an edge holds: a plain value, a
    dReal [Variable] (by its name), a table copied from the fluid or,
    after a solve, the pair [(lb, ub)]. *)
Inductive attr :=
| Lit (v : pyval)
| Var (name : string)
| Table (t : analyte_table)
| Interval (lb ub : Q).

(** An attribute dict: string keys. *)
Definition pydict := list (string * attr).

(** [_node[n]] and [_succ[n]] of one node; NetworkX keeps the two dicts
    on the same keys, in the same order. *)
Record node_data := { attrs : pydict; succ : list (pyval * pydict) }.

Definition DiGraph := list (pyval * node_data).

(** [n in G.nodes]. *)
Definition has_node (G : DiGraph) (n : pyval) : bool := dict_has py_eq n G.

(** [(u, v) in G.edges]. *)
Definition has_edge (G : DiGraph) (u v : pyval) : bool :=
  match dict_get py_eq u G with
  | Some nd => dict_has py_eq v (succ nd)
  | None => false
  end.

(** [G.add_node(n)] without attributes: a new node gets empty dicts. *)
Definition add_node (G : DiGraph) (n : pyval) : DiGraph :=
  if has_node G n then G else G ++ [(n, {| attrs := []; succ := [] |})].

(** [G.add_edge(u, v)] without attributes: both ends are added when
    missing, an existing edge keeps its data dict. *)
Definition add_edge (G : DiGraph) (u v : pyval) : DiGraph :=
  let G1 := add_node G u in
  let G2 := add_node G1 v in
  match dict_get py_eq u G2 with
  | Some nd =>
      let datadict :=
        match dict_get py_eq v (succ nd) with Some d => d | None => [] end in
      dict_set py_eq u
        {| attrs := attrs nd; succ := dict_set py_eq v datadict (succ nd) |} G2
  | None => G2
  end.

(** [G.nodes[n][key] = a]. *)
Definition set_node_attr (G : DiGraph) (n : pyval) (key : string) (a : attr)
  : result DiGraph :=
  match dict_get py_eq n G with
  | Some nd =>
      inr (dict_set py_eq n
             {| attrs := dict_set String.eqb key a (attrs nd); succ := succ nd |} G)
  | None => inl (KeyError "node")
  end.

(** [G.edges[u, v][key] = a]. *)
Definition set_edge_attr (G : DiGraph) (u v : pyval) (key : string) (a : attr)
  : result DiGraph :=
  match dict_get py_eq u G with
  | Some nd =>
      match dict_get py_eq v (succ nd) with
      | Some d =>
          inr (dict_set py_eq u
                 {| attrs := attrs nd;
                    succ := dict_set py_eq v (dict_set String.eqb key a d) (succ nd) |}
                 G)
      | None => inl (KeyError "edge")
      end
  | None => inl (KeyError "edge")
  end.

(** [G.nodes[n]], for reading. *)
Definition node_attrs (G : DiGraph) (n : pyval) : option pydict :=
  option_map attrs (dict_get py_eq n G).

(** [G.edges[u, v]], for reading. *)
Definition edge_attrs (G : DiGraph) (u v : pyval) : option pydict :=
  match dict_get py_eq u G with
  | Some nd => dict_get py_eq v (succ nd)
  | None => None
  end.

(** [G.edges(data=True)]: by source in node order, then by target in
    the order the edges were added. *)
Definition edges (G : DiGraph) : list (pyval * pyval * pydict) :=
  flat_map (fun und => map (fun vd => (fst und, fst vd, snd vd)) (succ (snd und))) G.

(** [node_link_data(G)]: a fresh dict per node (its attributes, then
    ["id"]) and per edge (its attributes, then ["source"], ["target"]). *)
Record node_link := {
  directed : bool;
  multigraph : bool;
  graph : pydict;
  nodes : list pydict;
  links : list pydict
}.

Definition node_link_data (G : DiGraph) : node_link :=
  {| directed := true;
     multigraph := false;
     graph := [];
     nodes := map (fun nnd =>
                     dict_of String.eqb (attrs (snd nnd) ++ [("id", Lit (fst nnd))])) G;
     links := map (fun uvd =>
                     match uvd with
                     | (u, v, d) =>
                         dict_of String.eqb
                           (d ++ [("source", Lit u); ("target", Lit v)])
                     end) (edges G) |}.

End Nx.
Export Nx.

(** ** Collaborators *)

(** The getters of [constants.FluidProperties], by fluid name; a getter
    may raise. *)
Record FluidProperties := {
  getDensity : pyval -> result pyval;
  getResistivity : pyval -> result pyval;
  getViscosity : pyval -> result pyval;
  getDiffusivities : pyval -> result analyte_table;
  getInitialConcentrations : pyval -> result analyte_table;
  getRadii : pyval -> result analyte_table;
  getCharges : pyval -> result analyte_table
}.

(** What [CheckSatisfiability] returns for a satisfiable formula: an
    interval [(lb, ub)] per variable, by the variable's name. *)
Definition Box := list (string * (Q * Q)).

(** The code outside this file that [Schematic] calls: the module
    [translate] (its names, [translate_input], [translate_chip]), the
    fluid table of [constants], and dReal ([logical_and] and
    [CheckSatisfiability], which returns [None] for an unsatisfiable
    formula).  The translation rules read the graph and return the
    constraints they emit, or raise; the solver is a function of the
    formula and the precision. *)
Record Collaborators := {
  expr : Type;
  formula : Type;
  dir_translate : list string;
  translate_input : DiGraph -> pyval -> result (list expr);
  translate_chip : DiGraph -> pyval -> list Q -> result (list expr);
  constants : FluidProperties;
  logical_and : list expr -> formula;
  CheckSatisfiability : formula -> Q -> option Box
}.

(** ** The state and exception monad of the methods *)

Definition M (St A : Type) : Type := St -> result A * St.

Definition ret {St A} (a : A) : M St A := fun s => (inr a, s).
Definition raise {St A} (e : exn) : M St A := fun s => (inl e, s).
Definition bind {St A B} (c : M St A) (k : A -> M St B) : M St B :=
  fun s => match c s with
           | (inr a, s') => k a s'
           | (inl e, s') => (inl e, s')
           end.
Definition get {St} : M St St := fun s => (inr s, s).
Definition put {St} (s : St) : M St unit := fun _ => (inr tt, s).
Definition lift {St A} (r : result A) : M St A := fun s => (r, s).

Notation "x <- c ;; k" := (bind c (fun x => k))
  (at level 61, c at next level, right associativity).
Notation "c ;;; k" := (bind c (fun _ => k))
  (at level 61, right associativity).

(** [for x in items: body(x)]. *)
Fixpoint for_each {St A} (items : list A) (body : A -> M St unit) : M St unit :=
  match items with
  | [] => ret tt
  | x :: rest => body x ;;; for_each rest body
  end.

(** ** class Fluid *)

Record Fluid := {
  min_density : pyval;
  min_resistivity : pyval;
  min_viscosity : pyval;
  min_pressure : pyval;
  analyte_diffusivities : analyte_table;
  analyte_initial_concentrations : analyte_table;
  analyte_radii : analyte_table;
  analyte_charges : analyte_table
}.

(** [Fluid.__init__]: the getters are called in this order. *)
Definition Fluid_init (C : FluidProperties) (fluid : pyval) : result Fluid :=
  match getDensity C fluid with inl e => inl e | inr d =>
  match getResistivity C fluid with inl e => inl e | inr r =>
  match getViscosity C fluid with inl e => inl e | inr v =>
  match getDiffusivities C fluid with inl e => inl e | inr dif =>
  match getInitialConcentrations C fluid with inl e => inl e | inr ini =>
  match getRadii C fluid with inl e => inl e | inr rad =>
  match getCharges C fluid with inl e => inl e | inr chg =>
    inr {| min_density := d; min_resistivity := r; min_viscosity := v;
           min_pressure := PBool false;
           analyte_diffusivities := dif;
           analyte_initial_concentrations := ini;
           analyte_radii := rad;
           analyte_charges := chg |}
  end end end end end end end.

(** ** class Schematic *)

(** [Schematic.validate_params], one entry of the loop: [param] is the
    key of the dict (the value the caller passed), [value] its kind tag. *)
Definition check_param (component : string) (name : list pyval)
  (entry : pyval * string) : result unit :=
  let (param, value) := entry in
  if negb (truthy param) then inr tt
  else if value =? "string" then
    if negb (isinstance_str param)
    then inl (TypeError (must_be_a_string component name param))
    else inr tt
  else if value =? "number" then
    if negb (isinstance_int param) && negb (isinstance_float param)
    then inl (TypeError (must_be_int_or_float component name param))
    else inr tt
  else if value =? "negative number" then
    match py_gt0 param with
    | inr true => inl (ValueError (must_be_ge_0 component name param))
    | inr false => inr tt
    | inl _ => inl (TypeError (must_be_int_or_float component name param))
    end
  else if value =? "positive number" then
    match py_lt0 param with
    | inr true => inl (ValueError (must_be_ge_0 component name param))
    | inr false => inr tt
    | inl _ => inl (TypeError (must_be_int_or_float component name param))
    end
  else inr tt.

Fixpoint validate_params (params : list (pyval * string)) (component : string)
  (name : list pyval) : result unit :=
  match params with
  | [] => inr tt
  | entry :: rest =>
      match check_param component name entry with
      | inr _ => validate_params rest component name
      | inl e => inl e
      end
  end.

(** The dict displays [user_provided_params] of the creation methods, as
    written: the values passed are the keys, so two parameters with equal
    values share one entry, which keeps the tag written last. *)
Definition channel_params
  (port_from port_to min_length min_width min_height min_resolution
   kind phase min_sampling_rate : pyval) : list (pyval * string) :=
  [ (port_from, "string"); (port_to, "string");
    (min_length, "positive number"); (min_width, "positive number");
    (min_height, "positive number"); (min_resolution, "positive number");
    (kind, "string"); (phase, "string");
    (min_sampling_rate, "positive number") ].

Definition port_params
  (name min_pressure min_flow_rate x y kind fluid_name : pyval)
  : list (pyval * string) :=
  [ (name, "string"); (min_pressure, "positive number");
    (min_flow_rate, "positive number"); (x, "positive number");
    (y, "positive number"); (kind, "string"); (fluid_name, "string") ].

Definition node_params (name x y kind c p qf : pyval) : list (pyval * string) :=
  [ (name, "string"); (x, "positive number"); (y, "positive number");
    (kind, "string"); (c, "positive number"); (p, "positive number");
    (qf, "positive number") ].

Definition elec_port_params
  (name min_pressure min_flow_rate x y voltage current kind fluid_name : pyval)
  : list (pyval * string) :=
  [ (name, "string"); (min_pressure, "positive number");
    (min_flow_rate, "positive number"); (x, "positive number");
    (y, "positive number"); (voltage, "number");
    (current, "positive number"); (kind, "string"); (fluid_name, "string") ].

Section Schematic.

Variable E : Collaborators.

Record Schematic := {
  exprs : list (expr E);
  dim : list Q;
  translation_strats : list string;
  dg : DiGraph
}.

Definition with_dg (s : Schematic) (G : DiGraph) : Schematic :=
  {| exprs := exprs s; dim := dim s;
     translation_strats := translation_strats s; dg := G |}.

Definition with_exprs (s : Schematic) (l : list (expr E)) : Schematic :=
  {| exprs := l; dim := dim s;
     translation_strats := translation_strats s; dg := dg s |}.

(** [Schematic.__init__]. *)
Definition Schematic_init (dim0 : list Q) : Schematic :=
  {| exprs := []; dim := dim0;
     translation_strats := dir_translate E; dg := [] |}.

(** [self.dg.nodes[name][key] = a] and [self.dg.edges[u, v][key] = a]. *)
Definition setitem_node (n : pyval) (key : string) (a : attr) : M Schematic unit :=
  s <- get ;;
  G <- lift (set_node_attr (dg s) n key a) ;;
  put (with_dg s G).

Definition setitem_edge (u v : pyval) (key : string) (a : attr) : M Schematic unit :=
  s <- get ;;
  G <- lift (set_edge_attr (dg s) u v key a) ;;
  put (with_dg s G).

(** ["Channel already exists between these nodes %s" % (port_from, port_to)]:
    the format has one [%s] and its argument is a tuple of two, so the
    [%] operator raises this [TypeError] and the [ValueError] that was
    to carry the message is never built. *)
Definition format_arguments_left_over : message :=
  builtin "not all arguments converted during string formatting".

(** ['translate_' + kind.lower() not in self.translation_strats]. *)
Definition no_strategy (s : Schematic) (k : string) : bool :=
  negb (existsb (String.eqb ("translate_" ++ k)%string) (translation_strats s)).

(** [Schematic.channel]. *)
Definition channel
  (port_from port_to min_length min_width min_height min_resolution
   kind phase min_sampling_rate : pyval) : M Schematic unit :=
  let valid_kinds := "rectangle" in
  let name := [port_from; port_to] in
  let user_provided_params :=
    dict_of py_eq (channel_params port_from port_to min_length min_width
                     min_height min_resolution kind phase min_sampling_rate) in
  known <- lift (py_in_str kind valid_kinds) ;;
  if negb known then raise (ValueError valid_channel_kinds_are) else
  let kind := if py_eq kind (PStr "rectangle") then PStr "channel" else kind in
  lift (validate_params user_provided_params "Channel" name) ;;;
  s <- get ;;
  if has_edge (dg s) port_from port_to
  then raise (TypeError format_arguments_left_over) else
  k <- lift (py_lower kind) ;;
  if no_strategy s k then raise (ValueError (kind_must_be_either ("translate_" ++ k)%string)) else
  v_length <- lift (py_join "_" (name ++ [PStr "length"])) ;;
  v_width <- lift (py_join "_" (name ++ [PStr "width"])) ;;
  v_height <- lift (py_join "_" (name ++ [PStr "height"])) ;;
  v_resolution <- lift (py_join "_" (name ++ [PStr "resolution"])) ;;
  v_flow_rate <- lift (py_join "_" (name ++ [PStr "flow_rate"])) ;;
  v_droplet_volume <- lift (py_join "_" (name ++ [PStr "droplet_volume"])) ;;
  v_viscosity <- lift (py_join "_" (name ++ [PStr "viscosity"])) ;;
  v_resistance <- lift (py_join "_" (name ++ [PStr "resistance"])) ;;
  ph <- lift (py_lower phase) ;;
  v_x_detector <- lift (py_join "_" (name ++ [PStr "x_detector"])) ;;
  let attributes := dict_of String.eqb
    [ ("kind", Lit kind);
      ("length", Var v_length);
      ("min_length", Lit min_length);
      ("width", Var v_width);
      ("min_width", Lit min_width);
      ("height", Var v_height);
      ("min_height", Lit min_height);
      ("resolution", Var v_resolution);
      ("min_resolution", Lit min_resolution);
      ("flow_rate", Var v_flow_rate);
      ("droplet_volume", Var v_droplet_volume);
      ("viscosity", Var v_viscosity);
      ("resistance", Var v_resistance);
      ("phase", Lit (PStr ph));
      ("port_from", Lit port_from);
      ("port_to", Lit port_to);
      ("x_detector", Var v_x_detector);
      ("min_sampling_rate", Lit min_sampling_rate) ] in
  let attributes :=
    if negb (truthy min_width)
    then dict_set String.eqb "min_width" (Lit min_width) attributes else attributes in
  let attributes :=
    if negb (truthy min_length)
    then dict_set String.eqb "min_length" (Lit min_length) attributes else attributes in
  let attributes :=
    if negb (truthy min_height)
    then dict_set String.eqb "min_height" (Lit min_height) attributes else attributes in
  s <- get ;;
  put (with_dg s (add_edge (dg s) port_from port_to)) ;;;
  for_each attributes (fun ka => setitem_edge port_from port_to (fst ka) (snd ka)).

(** [Schematic.port]. *)
Definition port (name kind min_pressure min_flow_rate x y fluid_name : pyval)
  : M Schematic unit :=
  let user_provided_params :=
    dict_of py_eq (port_params name min_pressure min_flow_rate x y kind fluid_name) in
  lift (validate_params user_provided_params "port" [name]) ;;;
  s <- get ;;
  if has_node (dg s) name then raise (ValueError must_provide_a_unique_name) else
  k <- lift (py_lower kind) ;;
  if no_strategy s k then raise (ValueError (kind_must_be_either ("translate_" ++ k)%string)) else
  fluid_properties <- lift (Fluid_init (constants E) fluid_name) ;;
  v_viscosity <- lift (py_add_str name "_viscosity") ;;
  v_pressure <- lift (py_add_str name "_pressure") ;;
  v_flow_rate <- lift (py_add_str name "_flow_rate") ;;
  v_density <- lift (py_add_str name "_density") ;;
  v_x <- lift (py_add_str name "_x") ;;
  v_y <- lift (py_add_str name "_y") ;;
  let attributes := dict_of String.eqb
    [ ("kind", Lit (PStr k));
      ("viscosity", Var v_viscosity);
      ("min_viscosity", Lit (min_viscosity fluid_properties));
      ("pressure", Var v_pressure);
      ("min_pressure", Lit min_pressure);
      ("flow_rate", Var v_flow_rate);
      ("min_flow_rate", Lit min_flow_rate);
      ("density", Var v_density);
      ("min_density", Lit (min_density fluid_properties));
      ("x", Var v_x);
      ("y", Var v_y);
      ("min_x", Lit x);
      ("min_y", Lit y);
      ("analyte_diffusivities", Table (analyte_diffusivities fluid_properties));
      ("analyte_initial_concentrations",
         Table (analyte_initial_concentrations fluid_properties));
      ("analyte_radii", Table (analyte_radii fluid_properties));
      ("analyte_charges", Table (analyte_charges fluid_properties)) ] in
  let attributes :=
    if negb (truthy x)
    then dict_set String.eqb "min_x" (Lit x) attributes else attributes in
  let attributes :=
    if negb (truthy y)
    then dict_set String.eqb "min_y" (Lit y) attributes else attributes in
  let attributes :=
    if negb (truthy min_flow_rate)
    then dict_set String.eqb "min_flow_rate" (Lit min_flow_rate) attributes
    else attributes in
  let attributes :=
    if negb (truthy min_pressure)
    then dict_set String.eqb "min_pressure" (Lit min_pressure) attributes
    else attributes in
  s <- get ;;
  put (with_dg s (add_node (dg s) name)) ;;;
  for_each attributes (fun ka => setitem_node name (fst ka) (snd ka)).

(** [Schematic.node]. *)
Definition node (name x y kind c p qf : pyval) : M Schematic unit :=
  let user_provided_params := dict_of py_eq (node_params name x y kind c p qf) in
  lift (validate_params user_provided_params "node" [name]) ;;;
  s <- get ;;
  if has_node (dg s) name then raise (ValueError must_provide_a_unique_name) else
  k <- lift (py_lower kind) ;;
  if no_strategy s k then raise (ValueError (kind_must_be_either ("translate_" ++ k)%string)) else
  v_pressure <- lift (py_add_str name "_pressure") ;;
  v_flow_rate <- lift (py_add_str name "_flow_rate") ;;
  v_viscosity <- lift (py_add_str name "_viscosity") ;;
  v_density <- lift (py_add_str name "_density") ;;
  v_x <- lift (py_add_str name "_x") ;;
  v_y <- lift (py_add_str name "_y") ;;
  let attributes := dict_of String.eqb
    [ ("kind", Lit (PStr k));
      ("pressure", Var v_pressure);
      ("min_pressure", Lit PNone);
      ("flow_rate", Var v_flow_rate);
      ("min_flow_rate", Lit PNone);
      ("viscosity", Var v_viscosity);
      ("min_viscosity", Lit PNone);
      ("density", Var v_density);
      ("min_density", Lit PNone);
      ("x", Var v_x);
      ("min_x", Lit PNone);
      ("y", Var v_y);
      ("min_y", Lit PNone);
      ("c", Lit c);
      ("p", Lit p);
      ("qf", Lit qf) ] in
  let attributes :=
    if truthy x then dict_set String.eqb "min_x" (Lit x) attributes else attributes in
  let attributes :=
    if truthy y then dict_set String.eqb "min_y" (Lit y) attributes else attributes in
  s <- get ;;
  put (with_dg s (add_node (dg s) name)) ;;;
  for_each attributes (fun ka => setitem_node name (fst ka) (snd ka)).

(** [Schematic.elec_port]. *)
Definition elec_port
  (name kind min_pressure min_flow_rate x y voltage current fluid_name : pyval)
  : M Schematic unit :=
  let user_provided_params :=
    dict_of py_eq (elec_port_params name min_pressure min_flow_rate x y
                     voltage current kind fluid_name) in
  lift (validate_params user_provided_params "electrical port" [name]) ;;;
  s <- get ;;
  if has_node (dg s) name then raise (ValueError must_provide_a_unique_name) else
  k <- lift (py_lower kind) ;;
  if no_strategy s k then raise (ValueError (kind_must_be_either ("translate_" ++ k)%string)) else
  fluid_properties <- lift (Fluid_init (constants E) fluid_name) ;;
  v_viscosity <- lift (py_add_str name "_viscosity") ;;
  v_pressure <- lift (py_add_str name "_pressure") ;;
  v_flow_rate <- lift (py_add_str name "_flow_rate") ;;
  v_density <- lift (py_add_str name "_density") ;;
  v_x <- lift (py_add_str name "_X") ;;
  v_y <- lift (py_add_str name "_Y") ;;
  let attributes := dict_of String.eqb
    [ ("kind", Lit (PStr k));
      ("viscosity", Var v_viscosity);
      ("min_viscosity", Lit (min_viscosity fluid_properties));
      ("pressure", Var v_pressure);
      ("min_pressure", Lit min_pressure);
      ("flow_rate", Var v_flow_rate);
      ("min_flow_rate", Lit min_flow_rate);
      ("density", Var v_density);
      ("min_density", Lit (min_density fluid_properties));
      ("x", Var v_x);
      ("y", Var v_y);
      ("min_x", Lit x);
      ("min_y", Lit y);
      ("voltage", Lit voltage);
      ("current", Lit current) ] in
  s <- get ;;
  put (with_dg s (add_node (dg s) name)) ;;;
  for_each attributes (fun ka => setitem_node name (fst ka) (snd ka)).

(** [d[key]]: a [KeyError] when the key is missing. *)
Definition getitem (d : pydict) (key : string) : result attr :=
  match dict_get String.eqb key d with
  | Some a => inr a
  | None => inl (KeyError key)
  end.

(** [a == s] for an attribute value and a string literal. *)
Definition attr_eq_str (a : attr) (s : string) : bool :=
  match a with
  | Lit v => py_eq v (PStr s)
  | _ => false
  end.

(** The inner loop of [translate_schematic]:
    [for x, y in self.dg.nodes(data=True): if y['kind'] == 'output': ...]. *)
Fixpoint scan_for_output (items : DiGraph) (has_output : bool) : result bool :=
  match items with
  | [] => inr has_output
  | (x, y) :: rest =>
      match getitem (attrs y) "kind" with
      | inl e => inl e
      | inr kind =>
          scan_for_output rest (if attr_eq_str kind "output" then true else has_output)
      end
  end.

(** [self.exprs.append(val)] for every [val] of [vals]. *)
Definition append_exprs (vals : list (expr E)) : M Schematic unit :=
  s <- get ;;
  put (with_exprs s (exprs s ++ vals)).

(** The first loop of [translate_schematic], over the items of
    [self.dg.nodes]; the accumulator is [has_input]. *)
Fixpoint translate_inputs (items : DiGraph) (has_input : bool) : M Schematic bool :=
  match items with
  | [] => ret has_input
  | (name, data) :: rest =>
      kind <- lift (getitem (attrs data) "kind") ;;
      if attr_eq_str kind "input" then
        s <- get ;;
        has_output <- lift (scan_for_output (dg s) false) ;;
        if has_output then
          vals <- lift (translate_input E (dg s) name) ;;
          append_exprs vals ;;;
          translate_inputs rest true
        else raise (ValueError (schematic_input_has_no_output name))
      else translate_inputs rest has_input
  end.

(** The body of the second loop of [translate_schematic], for one item
    of [self.dg.nodes]. *)
Definition chip_body (item : pyval * node_data) : M Schematic unit :=
  s <- get ;;
  vals <- lift (translate_chip E (dg s) (fst item) (dim s)) ;;
  append_exprs vals.

(** [Schematic.translate_schematic]. *)
Definition translate_schematic : M Schematic unit :=
  s <- get ;;
  has_input <- translate_inputs (dg s) false ;;
  if negb has_input then raise (ValueError schematic_has_no_input) else
  s <- get ;;
  for_each (dg s) chip_body.

(** What [solve] returns: the dReal model or a string. *)
Inductive output :=
| OBox (model : Box)
| OStr (s : string).

(** [Schematic.invoke_backend]; printing the formula changes nothing,
    and a model that the solver returns counts as true in [if model]. *)
Definition invoke_backend (_show : bool) : M Schematic output :=
  s <- get ;;
  let formula := logical_and E (exprs s) in
  match CheckSatisfiability E formula 10 with
  | Some model => ret (OBox model)
  | None => ret (OStr "No solution found")
  end.

(** [Schematic.solve]. *)
Definition solve (show : bool) : M Schematic output :=
  translate_schematic ;;;
  invoke_backend show.

(** *** The IR export *)

(** One entry of the IR sections ["connections"], ["nodes"] and
    ["portTypes"] / ["nodeTypes"]. *)
Record connection := { c_from : attr; c_to : attr; c_attributes : pydict }.
Record ir_node := { n_type : attr; portAttrs : attr; n_attributes : pydict }.
Record ir_type := { signalType : attr; t_attributes : pydict }.

Inductive ir_value :=
| IBool (b : bool)
| IDict (d : pydict).

Record manifold_ir := {
  ir_name : string;
  userDefinedTypes : pydict;
  portTypes : list (string * ir_type);
  nodeTypes : list (string * ir_type);
  constraintTypes : pydict;
  ir_nodes : list (string * ir_node);
  connections : list (string * connection);
  constraints : list (string * ir_value)
}.

(** The files written, by path. *)
Definition files := list (string * manifold_ir).

(** [output.items()]: a string has no such method. *)
Definition items_of (out : output) : result Box :=
  match out with
  | OBox model => inr model
  | OStr _ => inl (AttributeError (builtin "'str' object has no attribute 'items'"))
  end.

(** The body of [for link_attribute_dict in nx_json["links"]] for one
    solved variable: [attr_split] is its name split at ["_"]. *)
Definition project_link (attr_split : list string) (value : Q * Q)
  (link_attribute_dict : pydict) : result pydict :=
  match getitem link_attribute_dict "source" with
  | inl e => inl e
  | inr source =>
      match attr_split with
      | [] => inl (IndexError (builtin "list index out of range"))
      | a0 :: rest0 =>
          if attr_eq_str source a0 then
            match getitem link_attribute_dict "target" with
            | inl e => inl e
            | inr target =>
                match rest0 with
                | [] => inl (IndexError (builtin "list index out of range"))
                | a1 :: rest1 =>
                    if attr_eq_str target a1
                    then inr (dict_set String.eqb (String.concat "_" rest1)
                                (Interval (fst value) (snd value)) link_attribute_dict)
                    else inr link_attribute_dict
                end
            end
          else inr link_attribute_dict
      end
  end.

(** The body of [for node_attribute_dict in nx_json["nodes"]]. *)
Definition project_node (attr_split : list string) (value : Q * Q)
  (node_attribute_dict : pydict) : result pydict :=
  match getitem node_attribute_dict "id" with
  | inl e => inl e
  | inr id =>
      match attr_split with
      | [] => inl (IndexError (builtin "list index out of range"))
      | a0 :: rest0 =>
          if attr_eq_str id a0
          then inr (dict_set String.eqb (String.concat "_" rest0)
                      (Interval (fst value) (snd value)) node_attribute_dict)
          else inr node_attribute_dict
      end
  end.

(** The dicts of a list are updated in place, one after the other. *)
Fixpoint update_all (f : pydict -> result pydict) (ds : list pydict)
  : result (list pydict) :=
  match ds with
  | [] => inr []
  | d :: rest =>
      match f d with
      | inl e => inl e
      | inr d' =>
          match update_all f rest with
          | inl e => inl e
          | inr rest' => inr (d' :: rest')
          end
      end
  end.

(** [for attribute, value in dreal_output.items(): ...]: every solved
    variable is written onto the links and the nodes its name matches. *)
Fixpoint project (dreal_output : Box) (lks nds : list pydict)
  : result (list pydict * list pydict) :=
  match dreal_output with
  | [] => inr (lks, nds)
  | (attribute, value) :: rest =>
      let attr_split := split "_"%char attribute in
      match update_all (project_link attr_split value) lks with
      | inl e => inl e
      | inr lks' =>
          match update_all (project_node attr_split value) nds with
          | inl e => inl e
          | inr nds' => project rest lks' nds'
          end
      end
  end.

Definition isinstance_Variable (a : attr) : bool :=
  match a with Var _ => true | _ => false end.

(** [key not in ("port_from", "port_to", "source", "target")]. *)
Definition accounted_for (key : string) : bool :=
  existsb (String.eqb key) ["port_from"; "port_to"; "source"; "target"].

(** The attribute bag of a connection: the inner loop over
    [link_attribute_dict.items()]. *)
Definition connection_attributes (link_attribute_dict : pydict) : pydict :=
  fold_left (fun acc kv =>
               if negb (accounted_for (fst kv)) && negb (isinstance_Variable (snd kv))
               then dict_set String.eqb (fst kv) (snd kv) acc else acc)
            link_attribute_dict [].

(** The attribute bag of a node: the inner loop over
    [node_attribute_dict.items()]. *)
Definition node_attributes (node_attribute_dict : pydict) : pydict :=
  fold_left (fun acc kv =>
               if isinstance_Variable (snd kv) then acc
               else dict_set String.eqb (fst kv) (snd kv) acc)
            node_attribute_dict [].

(** [for idx, link_attribute_dict in enumerate(nx_json["links"])],
    from index [idx] on. *)
Fixpoint add_connections (idx : nat) (lks : list pydict)
  (acc : list (string * connection)) : result (list (string * connection)) :=
  match lks with
  | [] => inr acc
  | link_attribute_dict :: rest =>
      let channel_id := ("ch" ++ str_of_nat idx)%string in
      match getitem link_attribute_dict "source" with
      | inl e => inl e
      | inr source =>
          match getitem link_attribute_dict "target" with
          | inl e => inl e
          | inr target =>
              add_connections (S idx) rest
                (dict_set String.eqb channel_id
                   {| c_from := source; c_to := target;
                      c_attributes := connection_attributes link_attribute_dict |}
                   acc)
          end
      end
  end.

(** Is [node_kind in ("input", "output")]? *)
Definition is_port_kind (node_kind : attr) : bool :=
  attr_eq_str node_kind "input" || attr_eq_str node_kind "output".

(** [for idx, node_attribute_dict in enumerate(nx_json["nodes"])]; the
    accumulator holds the sections ["nodes"], ["portTypes"], ["nodeTypes"]. *)
Fixpoint add_nodes (idx : nat) (nds : list pydict)
  (acc : list (string * ir_node) * list (string * ir_type) * list (string * ir_type))
  : result (list (string * ir_node) * list (string * ir_type) * list (string * ir_type)) :=
  match nds with
  | [] => inr acc
  | node_attribute_dict :: rest =>
      let node_id := ("pT" ++ str_of_nat idx)%string in
      match getitem node_attribute_dict "kind" with
      | inl e => inl e
      | inr node_kind =>
          match getitem node_attribute_dict "id" with
          | inl e => inl e
          | inr id =>
              let bag := node_attributes node_attribute_dict in
              let '(ns, pts, nts) := acc in
              let ns' := dict_set String.eqb node_id
                           {| n_type := node_kind; portAttrs := id;
                              n_attributes := bag |} ns in
              let ty := {| signalType := node_kind; t_attributes := bag |} in
              if is_port_kind node_kind
              then add_nodes (S idx) rest (ns', dict_set String.eqb node_id ty pts, nts)
              else add_nodes (S idx) rest (ns', pts, dict_set String.eqb node_id ty nts)
          end
      end
  end.

(** The IR that [to_json] builds from the graph snapshot and the value
    [solve] returned. *)
Definition build_ir (nx_json : node_link) (out : output) : result manifold_ir :=
  match items_of out with
  | inl e => inl e
  | inr dreal_output =>
      match project dreal_output (links nx_json) (nodes nx_json) with
      | inl e => inl e
      | inr (lks, nds) =>
          match add_connections 0 lks [] with
          | inl e => inl e
          | inr conns =>
              match add_nodes 0 nds ([], [], []) with
              | inl e => inl e
              | inr (ns, pts, nts) =>
                  inr {| ir_name := "Json Data";
                         userDefinedTypes := [];
                         portTypes := pts;
                         nodeTypes := nts;
                         constraintTypes := [];
                         ir_nodes := ns;
                         connections := conns;
                         constraints :=
                           dict_of String.eqb
                             [ ("directed", IBool (directed nx_json));
                               ("multigraph", IBool (multigraph nx_json));
                               ("graph", IDict (graph nx_json)) ] |}
              end
          end
      end
  end.

(** [Schematic.to_json]: the state is the schematic and the files; the
    file at [path] is written last. *)
Definition to_json (path : string) : M (Schematic * files) unit :=
  fun w =>
    let (s, fs) := w in
    let nx_json := node_link_data (dg s) in
    match solve false s with
    | (inl e, s') => (inl e, (s', fs))
    | (inr out, s') =>
        match build_ir nx_json out with
        | inl e => (inl e, (s', fs))
        | inr manifold_ir => (inr tt, (s', dict_set String.eqb path manifold_ir fs))
        end
    end.

End Schematic.

Arguments exprs {E} s.
Arguments dim {E} s.
Arguments translation_strats {E} s.
Arguments dg {E} s.


(** ** The creation calls, as data

    A call of one of the three creation methods with its arguments, so
    that a statement can range over all of them. *)

Inductive creation :=
| Channel (port_from port_to min_length min_width min_height min_resolution
           kind phase min_sampling_rate : pyval)
| Port (name kind min_pressure min_flow_rate x y fluid_name : pyval)
| Node (name x y kind c p qf : pyval).

Definition run (E : Collaborators) (c : creation) : M (Schematic E) unit :=
  match c with
  | Channel f t l w h r k ph m => channel E f t l w h r k ph m
  | Port n k mp mf x y fl => port E n k mp mf x y fl
  | Node n x y k c p qf => node E n x y k c p qf
  end.

(** The dict display the call validates, its component and its name. *)
Definition params_of (c : creation) : list (pyval * string) :=
  match c with
  | Channel f t l w h r k ph m => channel_params f t l w h r k ph m
  | Port n k mp mf x y fl => port_params n mp mf x y k fl
  | Node n x y k c p qf => node_params n x y k c p qf
  end.

Definition component_of (c : creation) : string :=
  match c with
  | Channel _ _ _ _ _ _ _ _ _ => "Channel"
  | Port _ _ _ _ _ _ _ => "port"
  | Node _ _ _ _ _ _ _ => "node"
  end.

Definition name_of (c : creation) : list pyval :=
  match c with
  | Channel f t _ _ _ _ _ _ _ => [f; t]
  | Port n _ _ _ _ _ _ => [n]
  | Node n _ _ _ _ _ _ => [n]
  end.

(** The test that [channel] makes before it validates the parameters:
    [kind in valid_kinds]. The other two methods validate first. *)
Definition passes_kind_test (c : creation) : Prop :=
  match c with
  | Channel _ _ _ _ _ _ k _ _ => py_in_str k "rectangle" = inr true
  | _ => True
  end.

(** The parameters declared ['positive number'] and ['string']. *)
Definition numbers_of (c : creation) : list pyval :=
  map fst (filter (fun e => snd e =? "positive number") (params_of c)).
Definition strings_of (c : creation) : list pyval :=
  map fst (filter (fun e => snd e =? "string") (params_of c)).

(** A [bool], [int] or [float]. *)
Definition numeric (v : pyval) : bool :=
  match num_val v with Some _ => true | None => false end.

(** ** What the creation methods store

    The dicts below are the attribute dicts of a new port, node and
    channel, written out; the properties section proves that the methods
    store exactly these. *)

(** The dicts of a node that [add_node] or [add_edge] creates. *)
Definition empty_node : node_data := {| attrs := []; succ := [] |}.

(** What a loop of item assignments leaves in a dict. *)
Definition assign_all (items d : pydict) : pydict :=
  fold_left (fun d kv => dict_set String.eqb (fst kv) (snd kv) d) items d.

Definition stored_port (n k : string) (fluid : Fluid)
  (min_pressure min_flow_rate x y : pyval) : pydict :=
  [ ("kind", Lit (PStr k));
    ("viscosity", Var (n ++ "_viscosity")%string);
    ("min_viscosity", Lit (min_viscosity fluid));
    ("pressure", Var (n ++ "_pressure")%string);
    ("min_pressure", Lit min_pressure);
    ("flow_rate", Var (n ++ "_flow_rate")%string);
    ("min_flow_rate", Lit min_flow_rate);
    ("density", Var (n ++ "_density")%string);
    ("min_density", Lit (min_density fluid));
    ("x", Var (n ++ "_x")%string);
    ("y", Var (n ++ "_y")%string);
    ("min_x", Lit x);
    ("min_y", Lit y);
    ("analyte_diffusivities", Table (analyte_diffusivities fluid));
    ("analyte_initial_concentrations", Table (analyte_initial_concentrations fluid));
    ("analyte_radii", Table (analyte_radii fluid));
    ("analyte_charges", Table (analyte_charges fluid)) ].

Definition stored_node (n k : string) (x y c p qf : pyval) : pydict :=
  [ ("kind", Lit (PStr k));
    ("pressure", Var (n ++ "_pressure")%string);
    ("min_pressure", Lit PNone);
    ("flow_rate", Var (n ++ "_flow_rate")%string);
    ("min_flow_rate", Lit PNone);
    ("viscosity", Var (n ++ "_viscosity")%string);
    ("min_viscosity", Lit PNone);
    ("density", Var (n ++ "_density")%string);
    ("min_density", Lit PNone);
    ("x", Var (n ++ "_x")%string);
    ("min_x", Lit (if truthy x then x else PNone));
    ("y", Var (n ++ "_y")%string);
    ("min_y", Lit (if truthy y then y else PNone));
    ("c", Lit c);
    ("p", Lit p);
    ("qf", Lit qf) ].

(** The name of the variable of attribute [a] of the channel [(f, t)]. *)
Definition channel_var (f t a : string) : string := String.concat "_" [f; t; a].

(** The kind a channel is stored with. *)
Definition canonical (k : string) : string :=
  if k =? "rectangle" then "channel" else k.

Definition stored_channel (f t k ph : string)
  (min_length min_width min_height min_resolution min_sampling_rate : pyval) : pydict :=
  [ ("kind", Lit (PStr k));
    ("length", Var (channel_var f t "length"));
    ("min_length", Lit min_length);
    ("width", Var (channel_var f t "width"));
    ("min_width", Lit min_width);
    ("height", Var (channel_var f t "height"));
    ("min_height", Lit min_height);
    ("resolution", Var (channel_var f t "resolution"));
    ("min_resolution", Lit min_resolution);
    ("flow_rate", Var (channel_var f t "flow_rate"));
    ("droplet_volume", Var (channel_var f t "droplet_volume"));
    ("viscosity", Var (channel_var f t "viscosity"));
    ("resistance", Var (channel_var f t "resistance"));
    ("phase", Lit (PStr ph));
    ("port_from", Lit (PStr f));
    ("port_to", Lit (PStr t));
    ("x_detector", Var (channel_var f t "x_detector"));
    ("min_sampling_rate", Lit min_sampling_rate) ].

(** The graph after [channel] has added the edge [(u, v)] with the data
    dict [d] to a graph [G] that had no such edge. *)
Definition with_channel (G : DiGraph) (u v : pyval) (d : pydict) : DiGraph :=
  let nd := match dict_get py_eq u G with Some nd => nd | None => empty_node end in
  dict_set py_eq u {| attrs := attrs nd; succ := succ nd ++ [(v, d)] |}
    (add_node (add_node G u) v).

(** Is the name of a port or node, or the ordered pair of a channel,
    already in the graph? *)
Definition already_there (G : DiGraph) (c : creation) : bool :=
  match c with
  | Channel f t _ _ _ _ _ _ _ => has_edge G f t
  | Port n _ _ _ _ _ _ => has_node G n
  | Node n _ _ _ _ _ _ => has_node G n
  end.

(** The error the methods raise for such a duplicate. *)
Definition duplicate_error (c : creation) : exn :=
  match c with
  | Channel f t _ _ _ _ _ _ _ => TypeError format_arguments_left_over
  | Port _ _ _ _ _ _ _ => ValueError must_provide_a_unique_name
  | Node _ _ _ _ _ _ _ => ValueError must_provide_a_unique_name
  end.

(** A value that must not pass for a ['positive number'] parameter of
    the call [c]: a negative number, or a truthy value that is no number
    (and is not also the value of one of the call's string parameters,
    with which it would share its entry in the validated dict). *)
Definition offending (c : creation) (p : pyval) : Prop :=
  negative p = true
  \/ (truthy p = true /\ numeric p = false /\ ~ In p (strings_of c)).

(** Every string parameter of the call is a string, or falsy. *)
Definition strings_well_typed (c : creation) : Prop :=
  forall q, In q (strings_of c) -> isinstance_str q = true \/ truthy q = false.

(** The optional bounds of a call: the attribute key each is stored
    under, and the value passed. *)
Definition bounds_of (c : creation) : list (string * pyval) :=
  match c with
  | Channel _ _ l w h r _ _ _ =>
      [("min_length", l); ("min_width", w); ("min_height", h); ("min_resolution", r)]
  | Port _ _ mp mf x y _ =>
      [("min_pressure", mp); ("min_flow_rate", mf); ("min_x", x); ("min_y", y)]
  | Node _ x y _ _ _ _ => [("min_x", x); ("min_y", y)]
  end.

(** The attribute dict of the entity a call creates, in a graph. *)
Definition entity_attrs (G : DiGraph) (c : creation) : option pydict :=
  match c with
  | Channel f t _ _ _ _ _ _ _ => edge_attrs G f t
  | Port n _ _ _ _ _ _ => node_attrs G n
  | Node n _ _ _ _ _ _ => node_attrs G n
  end.

(** The rule set has no rule named after a fragment of ["rectangle"]:
    the kind test of [channel] is a substring test. *)
Definition rectangle_only (strats : list string) : Prop :=
  forall k, contains k "rectangle" = true ->
            In ("translate_" ++ k)%string strats -> k = "rectangle".

(** The kinds a call is accepted with, for a rule set. *)
Definition supported (strats : list string) (c : creation) : Prop :=
  match c with
  | Channel _ _ _ _ _ _ k _ _ =>
      k = PStr "rectangle" /\ In "translate_channel" strats
  | Port _ k _ _ _ _ _ | Node _ _ _ k _ _ _ =>
      exists k', k = PStr k' /\ In ("translate_" ++ lower k')%string strats
  end.

(** The kind the created entity is stored with. *)
Definition stored_kind (c : creation) : string :=
  match c with
  | Channel _ _ _ _ _ _ _ _ _ => "channel"
  | Port _ k _ _ _ _ _ | Node _ _ _ k _ _ _ =>
      match k with PStr k' => lower k' | _ => "" end
  end.

(** The attributes for which a call allocates a dReal variable. *)
Definition variable_attributes (c : creation) : list string :=
  match c with
  | Channel _ _ _ _ _ _ _ _ _ =>
      [ "length"; "width"; "height"; "resolution"; "flow_rate";
        "droplet_volume"; "viscosity"; "resistance"; "x_detector" ]
  | Port _ _ _ _ _ _ _ | Node _ _ _ _ _ _ _ =>
      [ "viscosity"; "pressure"; "flow_rate"; "density"; "x"; "y" ]
  end.

(** A node whose attribute dict has no ['kind']. *)
Definition bare (nd : node_data) : Prop :=
  dict_get String.eqb "kind" (attrs nd) = None.

(** The attribute [key] of the IR node [id]. *)
Definition ir_node_attribute (ir : manifold_ir) (id key : string) : option attr :=
  match dict_get String.eqb id (ir_nodes ir) with
  | Some entry => dict_get String.eqb key (n_attributes entry)
  | None => None
  end.

(** The ids [<prefix><from>], ..., [<prefix><from+n-1>]. *)
Definition ids (prefix : string) (from n : nat) : list string :=
  map (fun i => (prefix ++ str_of_nat i)%string) (seq from n).

(** The entry of ["portTypes"] or ["nodeTypes"] that goes with an entry
    of ["nodes"]. *)
Definition type_of_node (e : string * ir_node) : string * ir_type :=
  (fst e, {| signalType := n_type (snd e); t_attributes := n_attributes (snd e) |}).

Definition is_port_entry (e : string * ir_node) : bool :=
  is_port_kind (n_type (snd e)).

(** Every key is an id below [idx]. *)
Definition below (prefix : string) (idx : nat) (keys : list string) : Prop :=
  forall k, In k keys -> exists j, (j < idx)%nat /\ k = (prefix ++ str_of_nat j)%string.

(** ** Sample collaborators

    Stand-ins for the collaborators, used where a statement is evaluated
    on a concrete schematic: a fluid table with one entry for every
    name, translation rules that emit one named constraint per entity,
    and a solver given as a parameter. *)

Module Sample.

Definition fluids : FluidProperties :=
  {| getDensity := fun _ => inr (PInt 999);
     getResistivity := fun _ => inr (PInt 18);
     getViscosity := fun _ => inr (PFloat (1 # 1000));
     getDiffusivities := fun _ => inr [];
     getInitialConcentrations := fun _ => inr [];
     getRadii := fun _ => inr [];
     getCharges := fun _ => inr [] |}.

(** The names the module [translate] is known to define: the rules
    listed in [Schematic.__init__] and [translate_chip]. *)
Definition rules : list string :=
  [ "translate_channel"; "translate_chip"; "translate_input";
    "translate_node"; "translate_output"; "translate_tjunc" ].

Definition tagged (tag : string) (name : pyval) : list string :=
  match name with
  | PStr n => [(tag ++ n)%string]
  | _ => [tag]
  end.

Definition collaborators (solver : list string -> Q -> option Box) : Collaborators :=
  {| expr := string;
     formula := list string;
     dir_translate := rules;
     translate_input := fun _ name => inr (tagged "input " name);
     translate_chip := fun _ name _ => inr (tagged "chip " name);
     constants := fluids;
     logical_and := fun l => l;
     CheckSatisfiability := solver |}.

(** A solver that finds every formula unsatisfiable, and one that returns
    a fixed model. *)
Definition unsat : list string -> Q -> option Box := fun _ _ => None.
Definition sat (model : Box) : list string -> Q -> option Box := fun _ _ => Some model.

(** The default values of the keyword arguments. *)
Definition absent : pyval := PBool false.

Definition port_ (E : Collaborators) (name kind : string) (min_flow_rate : pyval)
  : M (Schematic E) unit :=
  port E (PStr name) (PStr kind) absent min_flow_rate absent absent (PStr "default").

Definition channel_ (E : Collaborators) (port_from port_to : string) (min_length : pyval)
  : M (Schematic E) unit :=
  channel E (PStr port_from) (PStr port_to) min_length absent absent absent
    (PStr "rectangle") (PStr "None") (PInt 1).

Definition chip : list Q := [0; 0; 1; 1]%Q.

(** The schematic after a sequence of calls, whatever they return. *)
Definition build (E : Collaborators) (calls : list (M (Schematic E) unit))
  : Schematic E :=
  fold_left (fun s call => snd (call s)) calls (Schematic_init E chip).

(** An input port and an output port, and no channel. *)
Definition unconnected (E : Collaborators) : Schematic E :=
  build E [ port_ E "A" "input" absent; port_ E "B" "output" absent ].

(** The two ports joined by a channel. *)
Definition circuit (E : Collaborators) : Schematic E :=
  build E [ port_ E "A" "input" absent; port_ E "B" "output" absent;
            channel_ E "A" "B" (PFloat (1 # 100)) ].

(** An input port [P1] with the static bound [min_flow_rate = 5], an
    output port named [min], and the channel between them. *)
Definition to_min (E : Collaborators) : Schematic E :=
  build E [ port_ E "P1" "input" (PInt 5); port_ E "min" "output" absent;
            channel_ E "P1" "min" absent ].

(** A model of that schematic: intervals for the pressure of [P1] and
    for the flow rate of the channel [(P1, min)]. *)
Definition model_to_min : Box :=
  [ ("P1_pressure", (100, 101)%Q); ("P1_min_flow_rate", (0, 1)%Q) ].

(** A model of [circuit]. *)
Definition model_circuit : Box :=
  [ ("A_pressure", (100, 101)%Q); ("B_pressure", (0, 1)%Q);
    ("A_B_flow_rate", (2, 3)%Q) ].

(** The collaborators with a solver that finds no model, and with one
    that returns [model_circuit]. *)
Definition E_unsat : Collaborators := collaborators unsat.
Definition E_sat : Collaborators := collaborators (sat model_circuit).

(** The graph of [unconnected], evaluated. *)
Definition unconnected_graph : DiGraph :=
  Eval vm_compute in dg (unconnected E_unsat).

(** The call [channel(f, t, min_length=l, kind=k)]. *)
Definition channel_call (f t : string) (l : pyval) (k : string) : creation :=
  Channel (PStr f) (PStr t) l absent absent absent (PStr k) (PStr "None") (PInt 1).

(** The call [port(n, k, min_pressure=mp)]. *)
Definition port_call (n k : string) (mp : pyval) : creation :=
  Port (PStr n) (PStr k) mp absent absent absent (PStr "default").

End Sample.

(** ** Further definitions for the properties *)

(** The tag a dict display keeps for a value: that of the last item
    written with an equal key. *)
Fixpoint last_tag (items : list (pyval * string)) (p : pyval) : option string :=
  match items with
  | [] => None
  | (k, t) :: rest =>
      match last_tag rest p with
      | Some t' => Some t'
      | None => if py_eq k p then Some t else None
      end
  end.

(** The four tags that [validate_params] knows. *)
Definition known_tag (tag : string) : bool :=
  existsb (String.eqb tag) ["string"; "number"; "negative number"; "positive number"].


(** No two entries of a dict have equal keys. *)
Fixpoint uniq_keys {V : Type} (d : list (pyval * V)) : Prop :=
  match d with
  | [] => True
  | (k, _) :: d' => dict_get py_eq k d' = None /\ uniq_keys d'
  end.

(** The attribute dict of a new electrical port. *)
Definition stored_elec_port (n k : string) (fluid : Fluid)
  (min_pressure min_flow_rate x y voltage current : pyval) : pydict :=
  [ ("kind", Lit (PStr k));
    ("viscosity", Var (n ++ "_viscosity")%string);
    ("min_viscosity", Lit (min_viscosity fluid));
    ("pressure", Var (n ++ "_pressure")%string);
    ("min_pressure", Lit min_pressure);
    ("flow_rate", Var (n ++ "_flow_rate")%string);
    ("min_flow_rate", Lit min_flow_rate);
    ("density", Var (n ++ "_density")%string);
    ("min_density", Lit (min_density fluid));
    ("x", Var (n ++ "_X")%string);
    ("y", Var (n ++ "_Y")%string);
    ("min_x", Lit x);
    ("min_y", Lit y);
    ("voltage", Lit voltage);
    ("current", Lit current) ].

(** Is the kind of a node item the string [k]? *)
Definition has_kind (k : string) (item : pyval * node_data) : bool :=
  match getitem (attrs (snd item)) "kind" with
  | inr a => attr_eq_str a k
  | inl _ => false
  end.

(** Every node of the graph has a ['kind']. *)
Definition all_kinded (G : DiGraph) : Prop :=
  forall item, In item G -> exists a, getitem (attrs (snd item)) "kind" = inr a.

(** A Boolean test for [all_kinded]. *)
Definition all_kindedb (G : DiGraph) : bool :=
  forallb (fun item : pyval * node_data =>
             dict_has String.eqb "kind" (attrs (snd item))) G.

(** The keys [to_json] reads on every link dict and on every node dict
    of the node-link data. *)
Definition link_keys (d : pydict) : Prop :=
  dict_has String.eqb "source" d = true /\ dict_has String.eqb "target" d = true.

Definition node_keys (d : pydict) : Prop :=
  dict_has String.eqb "id" d = true /\ dict_has String.eqb "kind" d = true.

(** The entries [to_json] copies into the attribute bag of a node and
    of a connection. *)
Definition kept_on_node (kv : string * attr) : bool :=
  negb (isinstance_Variable (snd kv)).

Definition kept_on_connection (kv : string * attr) : bool :=
  negb (accounted_for (fst kv)) && negb (isinstance_Variable (snd kv)).

(** A call of one of the four creation methods. *)
Inductive call :=
| Create (c : creation)
| ElecPort (name kind min_pressure min_flow_rate x y voltage current fluid_name : pyval).

Definition run_call (E : Collaborators) (c : call) : M (Schematic E) unit :=
  match c with
  | Create c => run E c
  | ElecPort name kind min_pressure min_flow_rate x y voltage current fluid_name =>
      elec_port E name kind min_pressure min_flow_rate x y voltage current fluid_name
  end.

(** The schematic after a script of creation calls, a call that raises
    being caught by the script. *)
Definition after_calls (E : Collaborators) (cs : list call) (s : Schematic E)
  : Schematic E :=
  fold_left (fun s c => snd (run_call E c s)) cs s.

(** The formula [invoke_backend] hands to the solver in the state [s]:
    [logical_and] of all of [self.exprs]. *)
Definition query (E : Collaborators) (s : Schematic E) : formula E :=
  logical_and E (exprs s).

(** A conjunction that ignores an operand it already has, as one kept
    over a set of operands does. *)
Definition absorbs_repeats (E : Collaborators) : Prop :=
  forall (l : list (expr E)) (c : expr E),
    In c l -> logical_and E (l ++ [c]) = logical_and E l.

(** Further sample schematics. *)
Module Cases.

(** A conjunction kept as the list of its distinct operands, in the
    order of their first occurrence. *)
Definition conj_set (l : list string) : list string :=
  fold_left (fun acc c => if existsb (String.eqb c) acc then acc else acc ++ [c]) l [].

(** A solver whose answer depends on the formula: it finds the model of
    the sample circuit for a conjunction of three constraints, and none
    for any other. *)
Definition by_size (f : list string) (_ : Q) : option Box :=
  if (length f =? 3)%nat then Some Sample.model_circuit else None.

(** The sample collaborators with the conjunction over a set. *)
Definition E_set : Collaborators :=
  {| expr := string;
     formula := list string;
     dir_translate := Sample.rules;
     translate_input := fun _ name => inr (Sample.tagged "input " name);
     translate_chip := fun _ name _ => inr (Sample.tagged "chip " name);
     constants := Sample.fluids;
     logical_and := conj_set;
     CheckSatisfiability := by_size |}.

(** One port only: an input, or an output. *)
Definition only_input (E : Collaborators) : Schematic E :=
  Sample.build E [ Sample.port_ E "A" "input" Sample.absent ].

Definition only_output (E : Collaborators) : Schematic E :=
  Sample.build E [ Sample.port_ E "B" "output" Sample.absent ].

(** The two sample ports and a channel between the unknown names [X]
    and [Y]. *)
Definition dangling (E : Collaborators) : Schematic E :=
  Sample.build E [ Sample.port_ E "A" "input" Sample.absent;
                   Sample.port_ E "B" "output" Sample.absent;
                   Sample.channel_ E "X" "Y" Sample.absent ].

(** A model with a variable named as the port [A], without underscore. *)
Definition model_A : Box := [ ("A", (0, 1)%Q) ].

Definition E_A : Collaborators := Sample.collaborators (Sample.sat model_A).

(** A script: a port, a node, an electrical port and a channel. *)
Definition script : list call :=
  [ Create (Sample.port_call "X" "input" (PInt 3));
    Create (Node (PStr "N") (PInt 1) (PInt 2) (PStr "node")
              Sample.absent Sample.absent Sample.absent);
    ElecPort (PStr "Y") (PStr "output") Sample.absent Sample.absent Sample.absent
      Sample.absent (PInt 5) Sample.absent (PStr "default");
    Create (Sample.channel_call "A" "X" Sample.absent "rectangle") ].

(** The link dicts and the node dicts of the sample circuit after the
    values of [model_circuit] were written onto them. *)
Definition projected_circuit : list pydict * list pydict :=
  Eval vm_compute in
    match project Sample.model_circuit
            (links (node_link_data (dg (Sample.circuit Sample.E_sat))))
            (nodes (node_link_data (dg (Sample.circuit Sample.E_sat)))) with
    | inr p => p
    | inl _ => ([], [])
    end.

(** A node dict and a link dict as [node_link_data] makes them. *)
Definition node_A : pydict :=
  [ ("kind", Lit (PStr "input")); ("pressure", Var "A_pressure");
    ("min_pressure", Lit (PBool false)); ("id", Lit (PStr "A")) ].

Definition link_A_B : pydict :=
  [ ("kind", Lit (PStr "rectangle")); ("flow_rate", Var "A_B_flow_rate");
    ("source", Lit (PStr "A")); ("target", Lit (PStr "B")) ].

End Cases.

(** * Properties *)

(** ** Python equality *)

Lemma py_eq_refl (v : pyval) : py_eq v v = true.
Proof.
  destruct v as [ | b | z | q | s ]; simpl;
    auto using Qeq_bool_refl, String.eqb_refl.
Qed.

Lemma py_eq_str_r (k : pyval) (s : string) :
  py_eq k (PStr s) = true -> k = PStr s.
Proof.
  destruct k as [ | b | z | q | t ]; simpl; try discriminate.
  intros H. apply String.eqb_eq in H. now subst.
Qed.

Lemma py_eq_num (k p : pyval) :
  py_eq k p = true -> numeric p = true ->
  exists x y, num_val k = Some x /\ num_val p = Some y /\ x == y.
Proof.
  unfold numeric.
  destruct p as [ | b | z | q | s ]; simpl; try discriminate; intros H _;
    destruct k as [ | b' | z' | q' | s' ]; simpl in *; try discriminate;
    eexists; eexists; (split; [reflexivity | split; [reflexivity | ]]);
    now apply Qeq_bool_iff.
Qed.

Lemma py_eq_numeric (k p : pyval) :
  py_eq k p = true -> numeric k = numeric p.
Proof.
  destruct k as [ | b | z | q | s ], p as [ | b' | z' | q' | s' ];
    simpl; intros; try reflexivity; discriminate.
Qed.

Lemma py_eq_isinstance_str (k p : pyval) :
  py_eq k p = true -> isinstance_str k = isinstance_str p.
Proof.
  destruct k as [ | b | z | q | s ], p as [ | b' | z' | q' | s' ];
    simpl; intros; try reflexivity; discriminate.
Qed.

Lemma truthy_num (v : pyval) (x : Q) :
  num_val v = Some x -> truthy v = negb (Qeq_bool x 0).
Proof.
  destruct v as [ | b | z | q | s ]; simpl; try discriminate;
    intros H; injection H as <-.
  - now destruct b.
  - f_equal. unfold Qeq_bool. simpl. now rewrite Z.mul_1_r.
  - reflexivity.
Qed.

Lemma Qeq_bool_compat (x y z : Q) : x == y -> Qeq_bool x z = Qeq_bool y z.
Proof.
  intros H. apply eq_true_iff_eq. rewrite !Qeq_bool_iff. now rewrite H.
Qed.

Lemma Qltb_compat (x y z : Q) : x == y -> Qltb x z = Qltb y z.
Proof.
  intros H. unfold Qltb. f_equal.
  apply eq_true_iff_eq. rewrite !Qle_bool_iff. now rewrite H.
Qed.

Lemma py_eq_truthy (k p : pyval) : py_eq k p = true -> truthy k = truthy p.
Proof.
  intros H. destruct (numeric p) eqn:Hn.
  - destruct (py_eq_num k p H Hn) as (x & y & Hk & Hp & Hxy).
    rewrite (truthy_num _ _ Hk), (truthy_num _ _ Hp).
    f_equal. now apply Qeq_bool_compat.
  - destruct p as [ | b | z | q | s ]; try discriminate.
    + destruct k as [ | b' | z' | q' | s' ]; simpl in H; try discriminate; reflexivity.
    + now rewrite (py_eq_str_r _ _ H).
Qed.

Lemma py_eq_negative (k p : pyval) : py_eq k p = true -> negative k = negative p.
Proof.
  intros H. destruct (numeric p) eqn:Hn.
  - destruct (py_eq_num k p H Hn) as (x & y & Hk & Hp & Hxy).
    unfold negative. rewrite Hk, Hp. now apply Qltb_compat.
  - assert (Hk : numeric k = false) by now rewrite (py_eq_numeric _ _ H).
    unfold negative, numeric in *.
    destruct (num_val k), (num_val p); try discriminate; reflexivity.
Qed.

Lemma negative_numeric (v : pyval) : negative v = true -> numeric v = true.
Proof. unfold negative, numeric. now destruct (num_val v). Qed.

Lemma negative_truthy (v : pyval) : negative v = true -> truthy v = true.
Proof.
  unfold negative. destruct (num_val v) as [x | ] eqn:Hv; try discriminate.
  intros H. rewrite (truthy_num _ _ Hv).
  destruct (Qeq_bool x 0) eqn:H0; try reflexivity.
  apply Qeq_bool_iff in H0. unfold Qltb in H.
  assert (Hle : Qle_bool 0 x = true) by (apply Qle_bool_iff; rewrite H0; apply Qle_refl).
  now rewrite Hle in H.
Qed.

Lemma numeric_not_str (v : pyval) : numeric v = true -> isinstance_str v = false.
Proof. now destruct v. Qed.

(** ** Dicts *)

Section DictFacts.
Context {K V : Type} (eqb : K -> K -> bool).
Hypothesis eqb_refl : forall k, eqb k k = true.

Lemma dict_get_set_eq (k : K) (v : V) (d : list (K * V)) :
  dict_get eqb k (dict_set eqb k v d) = Some v.
Proof.
  induction d as [ | [k' v'] d IH ]; simpl.
  - now rewrite eqb_refl.
  - destruct (eqb k' k) eqn:Hk; simpl; now rewrite Hk.
Qed.

Lemma dict_set_set (k : K) (v1 v2 : V) (d : list (K * V)) :
  dict_set eqb k v2 (dict_set eqb k v1 d) = dict_set eqb k v2 d.
Proof.
  induction d as [ | [k' v'] d IH ]; simpl.
  - now rewrite eqb_refl.
  - destruct (eqb k' k) eqn:Hk; simpl; rewrite Hk; [reflexivity | now rewrite IH].
Qed.

Lemma dict_set_same (k : K) (v : V) (d : list (K * V)) :
  dict_get eqb k d = Some v -> dict_set eqb k v d = d.
Proof.
  induction d as [ | [k' v'] d IH ]; simpl; try discriminate.
  destruct (eqb k' k); intros H.
  - now injection H as ->.
  - now rewrite IH.
Qed.

Lemma dict_set_new (k : K) (v : V) (d : list (K * V)) :
  dict_get eqb k d = None -> dict_set eqb k v d = d ++ [(k, v)].
Proof.
  induction d as [ | [k' v'] d IH ]; simpl; try reflexivity.
  destruct (eqb k' k); try discriminate. intros H. now rewrite IH.
Qed.

Lemma dict_get_app_new (k : K) (v : V) (d : list (K * V)) :
  dict_get eqb k d = None -> dict_get eqb k (d ++ [(k, v)]) = Some v.
Proof.
  intros H. rewrite <- (dict_set_new k v d H). apply dict_get_set_eq.
Qed.

Lemma dict_set_app_last (k : K) (v1 v2 : V) (d : list (K * V)) :
  dict_get eqb k d = None ->
  dict_set eqb k v2 (d ++ [(k, v1)]) = d ++ [(k, v2)].
Proof.
  intros H. rewrite <- (dict_set_new k v1 d H), dict_set_set.
  now apply dict_set_new.
Qed.

(** Assigning to a key keeps every key there is, and its position. *)
Lemma dict_set_keys_kept (k k0 : K) (v v0 : V) (d : list (K * V)) :
  In (k0, v0) d -> exists v1, In (k0, v1) (dict_set eqb k v d).
Proof.
  induction d as [ | [k' v'] d IH ]; simpl; try tauto.
  intros [H | H].
  - injection H as -> ->. destruct (eqb k0 k); eexists; left; reflexivity.
  - destruct (eqb k' k).
    + exists v0. now right.
    + destruct (IH H) as [v1 H1]. exists v1. now right.
Qed.

(** After the assignment some key equal to [k] holds [v]. *)
Lemma dict_set_holds (k : K) (v : V) (d : list (K * V)) :
  exists k', In (k', v) (dict_set eqb k v d) /\ eqb k' k = true.
Proof.
  induction d as [ | [k' v'] d IH ]; simpl.
  - exists k. auto.
  - destruct (eqb k' k) eqn:Hk.
    + exists k'. split; [now left | assumption].
    + destruct IH as (k1 & H1 & H2). exists k1. split; [now right | assumption].
Qed.

(** Every entry after the assignment was there before, or holds the new
    value under a key equal to the new key. *)
Lemma dict_set_in (k k0 : K) (v v0 : V) (d : list (K * V)) :
  In (k0, v0) (dict_set eqb k v d) ->
  In (k0, v0) d \/ (v0 = v /\ eqb k0 k = true).
Proof.
  induction d as [ | [k' v'] d IH ]; simpl.
  - intros [H | []]. injection H as <- <-. right. auto.
  - destruct (eqb k' k) eqn:Hk; simpl.
    + intros [H | H].
      * injection H as <- <-. right. auto.
      * left. now right.
    + intros [H | H].
      * left. now left.
      * destruct (IH H) as [H1 | H1]; [left; now right | now right].
Qed.

Lemma dict_of_fold_in (items : list (K * V)) (d : list (K * V)) (k0 : K) (v0 : V) :
  In (k0, v0) (fold_left (fun d kv => dict_set eqb (fst kv) (snd kv) d) items d) ->
  In (k0, v0) d \/ exists k, In (k, v0) items /\ eqb k0 k = true.
Proof.
  revert d. induction items as [ | [k v] items IH ]; simpl; intros d H.
  - now left.
  - destruct (IH _ H) as [H1 | (k1 & H1 & H2)].
    + destruct (dict_set_in _ _ _ _ _ H1) as [H3 | [-> H3]]; simpl in *.
      * now left.
      * right. exists k. split; [now left | assumption].
    + right. exists k1. split; [now right | assumption].
Qed.

(** An entry of a dict display carries the tag of a written item whose
    key equals the entry's key. *)
Lemma dict_of_in (items : list (K * V)) (k0 : K) (v0 : V) :
  In (k0, v0) (dict_of eqb items) ->
  exists k, In (k, v0) items /\ eqb k0 k = true.
Proof.
  unfold dict_of. intros H.
  destruct (dict_of_fold_in _ _ _ _ H) as [[] | H1]. exact H1.
Qed.

Lemma dict_of_fold_has (items : list (K * V)) (d : list (K * V)) (k : K) (v : V) :
  In (k, v) items \/ (exists k1 v1, In (k1, v1) d /\ eqb k1 k = true) ->
  exists k' v', In (k', v')
    (fold_left (fun d kv => dict_set eqb (fst kv) (snd kv) d) items d)
    /\ eqb k' k = true.
Proof.
  revert d. induction items as [ | [k2 v2] items IH ]; simpl; intros d H.
  - destruct H as [[] | (k1 & v1 & H1 & H2)]. now exists k1, v1.
  - apply IH. destruct H as [[H | H] | (k1 & v1 & H1 & H2)].
    + injection H as -> ->. right.
      destruct (dict_set_holds k v d) as (k' & H1 & H2). now exists k', v.
    + now left.
    + right. destruct (dict_set_keys_kept k2 k1 v2 v1 d H1) as [v3 H3].
      now exists k1, v3.
Qed.

(** Every written key is represented in the dict display. *)
Lemma dict_of_has (items : list (K * V)) (k : K) (v : V) :
  In (k, v) items ->
  exists k' v', In (k', v') (dict_of eqb items) /\ eqb k' k = true.
Proof. intros H. apply (dict_of_fold_has items [] k v). now left. Qed.

End DictFacts.

Lemma py_eq_sym (a b : pyval) : py_eq a b = true -> py_eq b a = true.
Proof.
  destruct a as [ | x | x | x | x ], b as [ | y | y | y | y ]; simpl;
    try discriminate; try reflexivity;
    try apply Qeq_bool_sym.
  now rewrite String.eqb_sym.
Qed.

(** ** Parameter validation *)

Lemma check_param_falsy (comp : string) (name : list pyval) (p : pyval) (tag : string) :
  truthy p = false -> check_param comp name (p, tag) = inr tt.
Proof. intros H. unfold check_param. now rewrite H. Qed.

Lemma check_param_string (comp : string) (name : list pyval) (p : pyval) :
  isinstance_str p = true -> check_param comp name (p, "string") = inr tt.
Proof.
  intros H. unfold check_param. rewrite H.
  now destruct (truthy p).
Qed.

Lemma check_param_string_bad (comp : string) (name : list pyval) (p : pyval) :
  truthy p = true -> isinstance_str p = false ->
  check_param comp name (p, "string") = inl (TypeError (must_be_a_string comp name p)).
Proof. intros H1 H2. unfold check_param. now rewrite H1, H2. Qed.

Lemma check_param_negative (comp : string) (name : list pyval) (p : pyval) :
  negative p = true ->
  check_param comp name (p, "positive number")
  = inl (ValueError (must_be_ge_0 comp name p)).
Proof.
  intros H. unfold check_param. rewrite (negative_truthy _ H). simpl.
  unfold py_lt0. unfold negative in H.
  destruct (num_val p); try discriminate. now rewrite H.
Qed.

Lemma check_param_number (comp : string) (name : list pyval) (p : pyval) :
  numeric p = true -> negative p = false ->
  check_param comp name (p, "positive number") = inr tt.
Proof.
  intros H1 H2. unfold check_param. destruct (truthy p); simpl; try reflexivity.
  unfold py_lt0. unfold negative in H2. unfold numeric in H1.
  destruct (num_val p); try discriminate. now rewrite H2.
Qed.

Lemma check_param_not_number (comp : string) (name : list pyval) (p : pyval) :
  truthy p = true -> numeric p = false ->
  check_param comp name (p, "positive number")
  = inl (TypeError (must_be_int_or_float comp name p)).
Proof.
  intros H1 H2. unfold check_param. rewrite H1. simpl.
  unfold py_lt0. unfold numeric in H2.
  now destruct (num_val p).
Qed.

(** Validation raises nothing but a [ValueError] or a [TypeError]. *)
Lemma check_param_raises (comp : string) (name : list pyval) (e : pyval * string) (x : exn) :
  check_param comp name e = inl x -> is_ValueError x \/ is_TypeError x.
Proof.
  destruct e as [p tag]. unfold check_param.
  destruct (negb (truthy p)); try discriminate.
  destruct (tag =? "string").
  { destruct (negb (isinstance_str p)); try discriminate.
    intros H; injection H as <-. right. exact I. }
  destruct (tag =? "number").
  { destruct (negb (isinstance_int p) && negb (isinstance_float p)); try discriminate.
    intros H; injection H as <-. right. exact I. }
  destruct (tag =? "negative number").
  { destruct (py_gt0 p) as [ | [ | ] ]; try discriminate;
      intros H; injection H as <-; [right | left]; exact I. }
  destruct (tag =? "positive number"); try discriminate.
  destruct (py_lt0 p) as [ | [ | ] ]; try discriminate;
    intros H; injection H as <-; [right | left]; exact I.
Qed.

(** The error of a validation is the error of one of the entries. *)
Lemma validate_params_error (d : list (pyval * string)) (comp : string)
  (name : list pyval) (x : exn) :
  validate_params d comp name = inl x ->
  exists e, In e d /\ check_param comp name e = inl x.
Proof.
  induction d as [ | e d IH ]; simpl; try discriminate.
  destruct (check_param comp name e) as [x' | []] eqn:He.
  - intros H; injection H as <-. exists e. auto.
  - intros H. destruct (IH H) as (e' & H1 & H2). exists e'. auto.
Qed.

Lemma validate_params_fails (d : list (pyval * string)) (comp : string)
  (name : list pyval) (e : pyval * string) (x : exn) :
  In e d -> check_param comp name e = inl x ->
  exists x', validate_params d comp name = inl x'.
Proof.
  induction d as [ | e' d IH ]; simpl; try tauto.
  intros [-> | H] Hx.
  - rewrite Hx. now exists x.
  - destruct (check_param comp name e') as [x' | []].
    + now exists x'.
    + now apply IH.
Qed.

Lemma validate_params_raises (d : list (pyval * string)) (comp : string)
  (name : list pyval) (x : exn) :
  validate_params d comp name = inl x -> is_ValueError x \/ is_TypeError x.
Proof.
  intros H. destruct (validate_params_error _ _ _ _ H) as (e & _ & He).
  eapply check_param_raises; eassumption.
Qed.

(** An entry whose key is falsy does not take part in the validation. *)
Lemma validate_params_skips (l1 l2 : list (pyval * string)) (p : pyval) (tag : string)
  (comp : string) (name : list pyval) :
  truthy p = false ->
  validate_params (l1 ++ (p, tag) :: l2) comp name
  = validate_params (l1 ++ l2) comp name.
Proof.
  intros H. induction l1 as [ | e l1 IH ]; cbn [app validate_params].
  - now rewrite (check_param_falsy _ _ _ _ H).
  - now rewrite IH.
Qed.

(** The three creation methods tag a parameter ['string'] or
    ['positive number']. *)
Lemma params_of_tags (c : creation) (p : pyval) (tag : string) :
  In (p, tag) (params_of c) -> tag = "string" \/ tag = "positive number".
Proof.
  destruct c; simpl; intros H;
    repeat (destruct H as [H | H]; [injection H as _ <-; auto | ]); destruct H.
Qed.

Lemma numbers_of_in (c : creation) (p : pyval) :
  In p (numbers_of c) <-> In (p, "positive number") (params_of c).
Proof.
  unfold numbers_of. rewrite in_map_iff. split.
  - intros ([p' tag] & Hp & Hin). simpl in Hp. subst p'.
    apply filter_In in Hin. destruct Hin as [Hin Htag]. simpl in Htag.
    apply String.eqb_eq in Htag. now subst.
  - intros H. exists (p, "positive number"). split; [reflexivity | ].
    apply filter_In. split; [assumption | reflexivity].
Qed.

Lemma strings_of_in (c : creation) (p : pyval) :
  In p (strings_of c) <-> In (p, "string") (params_of c).
Proof.
  unfold strings_of. rewrite in_map_iff. split.
  - intros ([p' tag] & Hp & Hin). simpl in Hp. subst p'.
    apply filter_In in Hin. destruct Hin as [Hin Htag]. simpl in Htag.
    apply String.eqb_eq in Htag. now subst.
  - intros H. exists (p, "string"). split; [reflexivity | ].
    apply filter_In. split; [assumption | reflexivity].
Qed.

(** A negative number among the parameters makes the validation fail,
    whatever the other parameters are. *)
Lemma validate_negative_fails (c : creation) (p : pyval) :
  In p (numbers_of c) -> negative p = true ->
  exists x, validate_params (dict_of py_eq (params_of c)) (component_of c) (name_of c)
            = inl x.
Proof.
  intros Hin Hneg. apply numbers_of_in in Hin.
  destruct (dict_of_has py_eq py_eq_refl _ _ _ Hin) as (k & tag & Hk & Heq).
  destruct (dict_of_in py_eq py_eq_refl _ _ _ Hk) as (p' & Hp' & _).
  assert (Hkneg : negative k = true) by now rewrite (py_eq_negative _ _ Heq).
  destruct (params_of_tags _ _ _ Hp') as [-> | ->].
  - eapply validate_params_fails; [exact Hk | ].
    apply check_param_string_bad.
    + now apply negative_truthy.
    + now apply numeric_not_str, negative_numeric.
  - eapply validate_params_fails; [exact Hk | ].
    now apply check_param_negative.
Qed.

(** When every parameter has the declared type or is falsy, the only
    error of the validation is the range violation of a negative one. *)
Lemma validate_well_typed (c : creation) :
  (forall p, In p (strings_of c) -> isinstance_str p = true \/ truthy p = false) ->
  (forall p, In p (numbers_of c) -> numeric p = true \/ truthy p = false) ->
  forall e, In e (dict_of py_eq (params_of c)) ->
    check_param (component_of c) (name_of c) e = inr tt
    \/ (negative (fst e) = true
        /\ check_param (component_of c) (name_of c) e
           = inl (ValueError (must_be_ge_0 (component_of c) (name_of c) (fst e)))).
Proof.
  intros Hs Hn [k tag] Hk.
  destruct (dict_of_in py_eq py_eq_refl _ _ _ Hk) as (p & Hp & Heq).
  destruct (params_of_tags _ _ _ Hp) as [-> | ->].
  - left. apply strings_of_in in Hp. destruct (Hs p Hp) as [H | H].
    + apply check_param_string. now rewrite (py_eq_isinstance_str _ _ Heq).
    + apply check_param_falsy. now rewrite (py_eq_truthy _ _ Heq).
  - apply numbers_of_in in Hp. destruct (Hn p Hp) as [H | H].
    + destruct (negative k) eqn:Hneg.
      * right. simpl. split; [assumption | now apply check_param_negative].
      * left. apply check_param_number; [ | assumption].
        now rewrite (py_eq_numeric _ _ Heq).
    + left. apply check_param_falsy. now rewrite (py_eq_truthy _ _ Heq).
Qed.

(** ** The graph *)

Lemma has_node_false (G : DiGraph) (n : pyval) :
  has_node G n = false -> dict_get py_eq n G = None.
Proof. unfold has_node, dict_has. now destruct (dict_get py_eq n G). Qed.

Lemma has_node_true (G : DiGraph) (n : pyval) :
  has_node G n = true -> exists nd, dict_get py_eq n G = Some nd.
Proof.
  unfold has_node, dict_has. destruct (dict_get py_eq n G) as [nd | ]; try discriminate.
  now exists nd.
Qed.

Lemma add_node_new (G : DiGraph) (n : pyval) :
  has_node G n = false -> add_node G n = G ++ [(n, empty_node)].
Proof. intros H. unfold add_node. now rewrite H. Qed.

Lemma dict_get_app_some {V : Type} (k : pyval) (d1 d2 : list (pyval * V)) (v : V) :
  dict_get py_eq k d1 = Some v -> dict_get py_eq k (d1 ++ d2) = Some v.
Proof.
  induction d1 as [ | [k' v'] d1 IH ]; simpl; try discriminate.
  destruct (py_eq k' k); auto.
Qed.

(** After [add_node] the node is there: with empty dicts if it is new,
    as it was otherwise. *)
Lemma add_node_get (G : DiGraph) (n : pyval) :
  dict_get py_eq n (add_node G n)
  = Some (match dict_get py_eq n G with Some nd => nd | None => empty_node end).
Proof.
  unfold add_node, has_node, dict_has.
  destruct (dict_get py_eq n G) as [nd | ] eqn:H; try assumption.
  now apply dict_get_app_new; [apply py_eq_refl | ].
Qed.

Lemma add_node_keeps (G : DiGraph) (n m : pyval) (nd : node_data) :
  dict_get py_eq n G = Some nd -> dict_get py_eq n (add_node G m) = Some nd.
Proof.
  intros H. unfold add_node. destruct (has_node G m); try assumption.
  now apply dict_get_app_some.
Qed.

(** [add_edge] for a pair without an edge: the source gets one more
    successor, with an empty data dict. *)
Lemma add_edge_fresh (G : DiGraph) (u v : pyval) :
  has_edge G u v = false ->
  let nd := match dict_get py_eq u G with Some nd => nd | None => empty_node end in
  dict_get py_eq u (add_node (add_node G u) v) = Some nd
  /\ dict_get py_eq v (succ nd) = None
  /\ add_edge G u v
     = dict_set py_eq u {| attrs := attrs nd; succ := succ nd ++ [(v, [])] |}
         (add_node (add_node G u) v).
Proof.
  intros He nd.
  assert (Hu : dict_get py_eq u (add_node (add_node G u) v) = Some nd)
    by (apply add_node_keeps, add_node_get).
  assert (Hv : dict_get py_eq v (succ nd) = None).
  { unfold has_edge, dict_has in He. subst nd.
    destruct (dict_get py_eq u G) as [nd | ]; try reflexivity.
    now destruct (dict_get py_eq v (succ nd)). }
  split; [assumption | split; [assumption | ]].
  unfold add_edge. cbv zeta. rewrite Hu. cbv beta iota. rewrite Hv.
  f_equal. f_equal. now apply dict_set_new.
Qed.

Section Mutation.
Variable E : Collaborators.

Lemma with_dg_dg (s : Schematic E) : with_dg E s (dg s) = s.
Proof. now destruct s. Qed.

Lemma with_dg_with_dg (s : Schematic E) (G1 G2 : DiGraph) :
  with_dg E (with_dg E s G1) G2 = with_dg E s G2.
Proof. reflexivity. Qed.

(** The loop [for key, attr in attributes.items(): self.dg.nodes[name][key] = attr]
    on a node that is there: it cannot fail, and it changes that node's
    attribute dict only. *)
Lemma for_each_setitem_node (n : pyval) (items : pydict) :
  forall (s : Schematic E) (nd : node_data),
  dict_get py_eq n (dg s) = Some nd ->
  for_each items (fun ka => setitem_node E n (fst ka) (snd ka)) s
  = (inr tt,
     with_dg E s (dict_set py_eq n
                    {| attrs := assign_all items (attrs nd); succ := succ nd |} (dg s))).
Proof.
  induction items as [ | [key a] items IH ]; intros s nd Hn.
  - simpl. unfold ret. f_equal. destruct nd as [at0 su0]. simpl.
    rewrite (dict_set_same py_eq n _ _ Hn). now rewrite with_dg_dg.
  - cbn [for_each]. unfold bind at 1. unfold setitem_node at 1.
    unfold bind, get, lift, put, set_node_attr. rewrite Hn. simpl fst. simpl snd.
    rewrite (IH _ {| attrs := dict_set String.eqb key a (attrs nd); succ := succ nd |}).
    + simpl. unfold with_dg. simpl. f_equal. f_equal.
      now rewrite (dict_set_set py_eq py_eq_refl).
    + simpl. apply (dict_get_set_eq py_eq py_eq_refl).
Qed.

(** The same loop over [self.dg.edges[u, v]]. *)
Lemma for_each_setitem_edge (u v : pyval) (items : pydict) :
  forall (s : Schematic E) (nd : node_data) (d : pydict),
  dict_get py_eq u (dg s) = Some nd ->
  dict_get py_eq v (succ nd) = Some d ->
  for_each items (fun ka => setitem_edge E u v (fst ka) (snd ka)) s
  = (inr tt,
     with_dg E s (dict_set py_eq u
                    {| attrs := attrs nd;
                       succ := dict_set py_eq v (assign_all items d) (succ nd) |}
                    (dg s))).
Proof.
  induction items as [ | [key a] items IH ]; intros s nd d Hu Hv.
  - simpl. unfold ret. f_equal. destruct nd as [at0 su0]. simpl in *.
    rewrite (dict_set_same py_eq v _ _ Hv).
    rewrite (dict_set_same py_eq u _ _ Hu). now rewrite with_dg_dg.
  - cbn [for_each]. unfold bind at 1. unfold setitem_edge at 1.
    unfold bind, get, lift, put, set_edge_attr. rewrite Hu, Hv. simpl fst. simpl snd.
    rewrite (IH _ {| attrs := attrs nd;
                     succ := dict_set py_eq v (dict_set String.eqb key a d) (succ nd) |}
                (dict_set String.eqb key a d)).
    + simpl. unfold with_dg. simpl. f_equal. f_equal.
      rewrite (dict_set_set py_eq py_eq_refl).
      now rewrite (dict_set_set py_eq py_eq_refl).
    + simpl. apply (dict_get_set_eq py_eq py_eq_refl).
    + simpl. apply (dict_get_set_eq py_eq py_eq_refl).
Qed.

End Mutation.

(** ** The creation methods: failure without mutation, or success *)

Ltac run_monad := unfold bind, lift, get, put, raise, ret; cbv beta iota.
Ltac fails := left; eexists; reflexivity.

Section Creation.
Variable E : Collaborators.

(** [port] either raises and leaves the schematic as it was, or appends
    one node with the attribute dict [stored_port]. *)
Lemma port_outcome (name kind min_pressure min_flow_rate x y fluid_name : pyval)
  (s : Schematic E) :
  (exists e, port E name kind min_pressure min_flow_rate x y fluid_name s = (inl e, s))
  \/
  (exists n k fluid,
      name = PStr n /\ kind = PStr k
      /\ validate_params
           (dict_of py_eq (port_params name min_pressure min_flow_rate x y kind fluid_name))
           "port" [name] = inr tt
      /\ has_node (dg s) name = false
      /\ no_strategy E s (lower k) = false
      /\ Fluid_init (constants E) fluid_name = inr fluid
      /\ port E name kind min_pressure min_flow_rate x y fluid_name s
         = (inr tt,
            with_dg E s
              (dg s ++ [(name, {| attrs := stored_port n (lower k) fluid
                                              min_pressure min_flow_rate x y;
                                  succ := [] |})]))).
Proof.
  unfold port. run_monad.
  destruct (validate_params _ _ _) as [e | []] eqn:Hval; [left; now exists e | ].
  destruct (has_node (dg s) name) eqn:Hnode; [fails | ].
  destruct kind as [ | b | z | q | k ]; try fails.
  cbn [py_lower].
  destruct (no_strategy E s (lower k)) eqn:Hstrat; [fails | ].
  destruct (Fluid_init (constants E) fluid_name) as [e | fluid] eqn:Hfl;
    [left; now exists e | ].
  destruct name as [ | b | z | q | n ]; try fails.
  cbn [py_add_str].
  right. exists n, k, fluid. repeat (split; [reflexivity || assumption | ]).
  match goal with |- context [for_each ?items ?f ?s0] =>
    rewrite (for_each_setitem_node E (PStr n) items s0 empty_node) end.
  - simpl dg. rewrite add_node_new by assumption.
    rewrite (dict_set_app_last py_eq py_eq_refl) by now apply has_node_false.
    rewrite with_dg_with_dg. f_equal. f_equal. f_equal. f_equal.
    destruct (truthy x), (truthy y), (truthy min_flow_rate), (truthy min_pressure);
      reflexivity.
  - simpl dg. rewrite add_node_new by assumption.
    apply dict_get_app_new; [apply py_eq_refl | now apply has_node_false].
Qed.

(** [node] either raises and leaves the schematic as it was, or appends
    one node with the attribute dict [stored_node]. *)
Lemma node_outcome (name x y kind c p qf : pyval) (s : Schematic E) :
  (exists e, node E name x y kind c p qf s = (inl e, s))
  \/
  (exists n k,
      name = PStr n /\ kind = PStr k
      /\ validate_params (dict_of py_eq (node_params name x y kind c p qf))
           "node" [name] = inr tt
      /\ has_node (dg s) name = false
      /\ no_strategy E s (lower k) = false
      /\ node E name x y kind c p qf s
         = (inr tt,
            with_dg E s
              (dg s ++ [(name, {| attrs := stored_node n (lower k) x y c p qf;
                                  succ := [] |})]))).
Proof.
  unfold node. run_monad.
  destruct (validate_params _ _ _) as [e | []] eqn:Hval; [left; now exists e | ].
  destruct (has_node (dg s) name) eqn:Hnode; [fails | ].
  destruct kind as [ | b | z | q | k ]; try fails.
  cbn [py_lower].
  destruct (no_strategy E s (lower k)) eqn:Hstrat; [fails | ].
  destruct name as [ | b | z | q | n ]; try fails.
  cbn [py_add_str].
  right. exists n, k. repeat (split; [reflexivity || assumption | ]).
  match goal with |- context [for_each ?items ?f ?s0] =>
    rewrite (for_each_setitem_node E (PStr n) items s0 empty_node) end.
  - simpl dg. rewrite add_node_new by assumption.
    rewrite (dict_set_app_last py_eq py_eq_refl) by now apply has_node_false.
    rewrite with_dg_with_dg. f_equal. f_equal. f_equal. f_equal.
    unfold stored_node. destruct (truthy x), (truthy y); reflexivity.
  - simpl dg. rewrite add_node_new by assumption.
    apply dict_get_app_new; [apply py_eq_refl | now apply has_node_false].
Qed.

(** [channel] with string arguments, an accepted kind, valid parameters
    and no edge yet between the two ends adds the edge with the data
    dict [stored_channel] (and its two ends, when they are missing). *)
Lemma channel_succeeds
  (f t k ph : string) (min_length min_width min_height min_resolution
   min_sampling_rate : pyval) (s : Schematic E) :
  contains k "rectangle" = true ->
  validate_params
    (dict_of py_eq (channel_params (PStr f) (PStr t) min_length min_width
                      min_height min_resolution (PStr k) (PStr ph) min_sampling_rate))
    "Channel" [PStr f; PStr t] = inr tt ->
  has_edge (dg s) (PStr f) (PStr t) = false ->
  no_strategy E s (lower (canonical k)) = false ->
  channel E (PStr f) (PStr t) min_length min_width min_height
    min_resolution (PStr k) (PStr ph) min_sampling_rate s
  = (inr tt,
     with_dg E s
       (with_channel (dg s) (PStr f) (PStr t)
          (stored_channel f t (canonical k) (lower ph) min_length min_width
             min_height min_resolution min_sampling_rate))).
Proof.
  intros Hkind Hval Hedge Hstrat.
  unfold channel. run_monad. cbn [py_in_str py_eq].
  rewrite Hkind. cbn [negb]. rewrite Hval, Hedge.
  assert (Hlow : py_lower (if k =? "rectangle" then PStr "channel" else PStr k)
                 = inr (lower (canonical k)))
    by (unfold canonical; now destruct (k =? "rectangle")).
  rewrite Hlow, Hstrat.
  cbn [py_join strs app py_lower].
  destruct (add_edge_fresh (dg s) (PStr f) (PStr t) Hedge) as (Hu & Hv & Hadd).
  set (nd := match dict_get py_eq (PStr f) (dg s) with
             | Some nd => nd | None => empty_node end) in *.
  match goal with |- context [for_each ?items ?fn ?s0] =>
    rewrite (for_each_setitem_edge E (PStr f) (PStr t) items s0
               {| attrs := attrs nd; succ := succ nd ++ [(PStr t, [])] |} [])
  end.
  - simpl dg. rewrite Hadd. rewrite with_dg_with_dg.
    rewrite (dict_set_set py_eq py_eq_refl). cbn [attrs succ].
    rewrite (dict_set_app_last py_eq py_eq_refl) by assumption.
    unfold with_channel. fold nd. f_equal. f_equal. f_equal. f_equal. f_equal.
    f_equal. f_equal.
    assert (Hk : (if k =? "rectangle" then PStr "channel" else PStr k)
                 = PStr (canonical k))
      by (unfold canonical; now destruct (k =? "rectangle")).
    rewrite Hk.
    destruct (truthy min_width), (truthy min_length), (truthy min_height);
      reflexivity.
  - simpl dg. rewrite Hadd. apply (dict_get_set_eq py_eq py_eq_refl).
  - cbn [succ]. now apply dict_get_app_new; [apply py_eq_refl | ].
Qed.

(** [channel] either raises and leaves the schematic as it was, or adds
    the edge as above. *)
Lemma channel_outcome
  (port_from port_to min_length min_width min_height min_resolution
   kind phase min_sampling_rate : pyval) (s : Schematic E) :
  (exists e, channel E port_from port_to min_length min_width min_height
               min_resolution kind phase min_sampling_rate s = (inl e, s))
  \/
  (exists f t k ph,
      port_from = PStr f /\ port_to = PStr t /\ kind = PStr k /\ phase = PStr ph
      /\ contains k "rectangle" = true
      /\ validate_params
           (dict_of py_eq (channel_params port_from port_to min_length min_width
                             min_height min_resolution kind phase min_sampling_rate))
           "Channel" [port_from; port_to] = inr tt
      /\ has_edge (dg s) port_from port_to = false
      /\ no_strategy E s (lower (canonical k)) = false
      /\ channel E port_from port_to min_length min_width min_height
           min_resolution kind phase min_sampling_rate s
         = (inr tt,
            with_dg E s
              (with_channel (dg s) port_from port_to
                 (stored_channel f t (canonical k) (lower ph) min_length min_width
                    min_height min_resolution min_sampling_rate)))).
Proof.
  destruct kind as [ | b | z | q | k ];
    try (unfold channel; run_monad; fails).
  destruct (contains k "rectangle") eqn:Hkind;
    [ | unfold channel; run_monad; cbn [py_in_str]; rewrite Hkind; fails].
  destruct (validate_params
              (dict_of py_eq (channel_params port_from port_to min_length min_width
                 min_height min_resolution (PStr k) phase min_sampling_rate))
              "Channel" [port_from; port_to]) as [e | []] eqn:Hval;
    [unfold channel; run_monad; cbn [py_in_str]; rewrite Hkind; cbn [negb];
     rewrite Hval; left; now exists e | ].
  destruct (has_edge (dg s) port_from port_to) eqn:Hedge;
    [unfold channel; run_monad; cbn [py_in_str]; rewrite Hkind; cbn [negb];
     rewrite Hval, Hedge; fails | ].
  assert (Hlow : py_lower (if py_eq (PStr k) (PStr "rectangle")
                           then PStr "channel" else PStr k)
                 = inr (lower (canonical k)))
    by (unfold canonical; cbn [py_eq]; now destruct (k =? "rectangle")).
  destruct (no_strategy E s (lower (canonical k))) eqn:Hstrat;
    [unfold channel; run_monad; cbn [py_in_str]; rewrite Hkind; cbn [negb];
     rewrite Hval, Hedge, Hlow, Hstrat; fails | ].
  destruct port_from as [ | b | z | q | f ];
    try (unfold channel; run_monad; cbn [py_in_str]; rewrite Hkind; cbn [negb];
         rewrite Hval, Hedge, Hlow, Hstrat; fails).
  destruct port_to as [ | b | z | q | t ];
    try (unfold channel; run_monad; cbn [py_in_str]; rewrite Hkind; cbn [negb];
         rewrite Hval, Hedge, Hlow, Hstrat; fails).
  destruct phase as [ | b | z | q | ph ];
    try (unfold channel; run_monad; cbn [py_in_str]; rewrite Hkind; cbn [negb];
         rewrite Hval, Hedge, Hlow, Hstrat; fails).
  right. exists f, t, k, ph. repeat (split; [reflexivity || assumption | ]).
  now apply channel_succeeds.
Qed.

(** A creation call that raises leaves the schematic as it was. *)
Lemma run_raises_unchanged (c : creation) (s s' : Schematic E) (e : exn) :
  run E c s = (inl e, s') -> s' = s.
Proof.
  destruct c as [f t l w h r k ph m | n k mp mf x y fl | n x y k c p qf];
    cbn [run]; intros H.
  - destruct (channel_outcome f t l w h r k ph m s)
      as [[e' He] | (? & ? & ? & ? & _ & _ & _ & _ & _ & _ & _ & _ & He)];
      rewrite He in H; now inversion H.
  - destruct (port_outcome n k mp mf x y fl s)
      as [[e' He] | (? & ? & ? & _ & _ & _ & _ & _ & _ & He)];
      rewrite He in H; now inversion H.
  - destruct (node_outcome n x y k c p qf s)
      as [[e' He] | (? & ? & _ & _ & _ & _ & _ & He)];
      rewrite He in H; now inversion H.
Qed.

(** A creation call starts with the validation of its parameters
    ([channel]: after the test of the kind); an error of the validation
    is the error of the call. *)
Lemma run_validation_error (c : creation) (s : Schematic E) (e : exn) :
  passes_kind_test c ->
  validate_params (dict_of py_eq (params_of c)) (component_of c) (name_of c) = inl e ->
  run E c s = (inl e, s).
Proof.
  destruct c as [f t l w h r k ph m | n k mp mf x y fl | n x y k c p qf];
    cbn [run passes_kind_test params_of component_of name_of]; intros Hk Hv.
  - unfold channel. run_monad. rewrite Hk. cbn [negb]. now rewrite Hv.
  - unfold port. run_monad. now rewrite Hv.
  - unfold node. run_monad. now rewrite Hv.
Qed.

(** What a call raises before it validates. *)
Lemma run_kind_test_error (c : creation) (s : Schematic E) :
  ~ passes_kind_test c ->
  exists e, run E c s = (inl e, s) /\ (is_ValueError e \/ is_TypeError e).
Proof.
  destruct c as [f t l w h r k ph m | n k mp mf x y fl | n x y k c p qf];
    cbn [run passes_kind_test]; intros Hk; try tauto.
  unfold channel. run_monad.
  destruct (py_in_str k "rectangle") as [e | [ | ]] eqn:Hin.
  - exists e. split; [reflexivity | ].
    destruct k; simpl in Hin; try discriminate; injection Hin as <-; right; exact I.
  - tauto.
  - cbn [negb]. eexists. split; [reflexivity | left; exact I].
Qed.

End Creation.

(** ** Duplicates *)

(** C2. A channel over an ordered pair that already has a channel, and
    a port or node whose name is already a node of the graph, is
    rejected: the call raises and the schematic (graph, attributes and
    all) is the one before the call. As soon as the parameters
    themselves are accepted the error is that of the duplicate test:
    [ValueError('Must provide a unique name')] for a port or node, and
    for a channel the [TypeError] that formatting the message of its
    [ValueError] raises. *)
Theorem duplicate_rejected_unchanged (E : Collaborators) (c : creation)
  (s : Schematic E) :
  already_there (dg s) c = true ->
  exists e,
    run E c s = (inl e, s)
    /\ (is_ValueError e \/ is_TypeError e)
    /\ (passes_kind_test c ->
        validate_params (dict_of py_eq (params_of c)) (component_of c) (name_of c)
        = inr tt ->
        e = duplicate_error c).
Proof.
  destruct c as [f t l w h r k ph m | n k mp mf x y fl | n x y k c p qf];
    cbn [run already_there passes_kind_test params_of component_of name_of
         duplicate_error]; intros Hdup.
  - unfold channel. run_monad.
    destruct (py_in_str k "rectangle") as [e | [ | ]] eqn:Hin; cbn [negb].
    + exists e. split; [reflexivity | split; [ | discriminate]].
      destruct k; simpl in Hin; try discriminate; injection Hin as <-; right; exact I.
    + destruct (validate_params _ _ _) as [e | []] eqn:Hval.
      * exists e. split; [reflexivity | split; [ | discriminate]].
        eapply validate_params_raises; eassumption.
      * rewrite Hdup. eexists. split; [reflexivity | split; [right; exact I | reflexivity]].
    + eexists. split; [reflexivity | split; [left; exact I | discriminate]].
  - unfold port. run_monad.
    destruct (validate_params _ _ _) as [e | []] eqn:Hval.
    + exists e. split; [reflexivity | split; [ | discriminate]].
      eapply validate_params_raises; eassumption.
    + rewrite Hdup. eexists. split; [reflexivity | split; [left; exact I | reflexivity]].
  - unfold node. run_monad.
    destruct (validate_params _ _ _) as [e | []] eqn:Hval.
    + exists e. split; [reflexivity | split; [ | discriminate]].
      eapply validate_params_raises; eassumption.
    + rewrite Hdup. eexists. split; [reflexivity | split; [left; exact I | reflexivity]].
Qed.

(** ** Invalid numbers *)

Lemma passes_kind_test_dec (c : creation) :
  passes_kind_test c \/ ~ passes_kind_test c.
Proof.
  destruct c as [f t l w h r k ph m | | ]; cbn [passes_kind_test]; auto.
  destruct (py_in_str k "rectangle") as [e | [ | ]]; auto; right; discriminate.
Qed.

Lemma py_eq_str_l (s : string) (q : pyval) : py_eq (PStr s) q = true -> q = PStr s.
Proof. intros H. now apply py_eq_str_r, py_eq_sym. Qed.

Lemma truthy_not_numeric (p : pyval) :
  truthy p = true -> numeric p = false -> exists s, p = PStr s.
Proof. destruct p as [ | b | z | q | s ]; try discriminate. now exists s. Qed.

(** A truthy value that is no number, passed for a number and for no
    string parameter, makes the validation fail. *)
Lemma validate_wrong_type_fails (c : creation) (p : pyval) :
  In p (numbers_of c) -> truthy p = true -> numeric p = false ->
  ~ In p (strings_of c) ->
  exists x, validate_params (dict_of py_eq (params_of c)) (component_of c) (name_of c)
            = inl x.
Proof.
  intros Hin Ht Hn Hsep. apply numbers_of_in in Hin.
  destruct (truthy_not_numeric _ Ht Hn) as [s0 ->].
  destruct (dict_of_has py_eq py_eq_refl _ _ _ Hin) as (k & tag & Hk & Heq).
  apply py_eq_str_r in Heq. subst k.
  destruct (dict_of_in py_eq py_eq_refl _ _ _ Hk) as (q & Hq & Heq).
  apply py_eq_str_l in Heq. subst q.
  destruct (params_of_tags _ _ _ Hq) as [-> | ->].
  - exfalso. apply Hsep. now apply strings_of_in.
  - eapply validate_params_fails; [exact Hk | ].
    now apply check_param_not_number.
Qed.

(** Without a negative number, and with the non-numbers kept apart from
    the strings, the only error of the validation is the type mismatch
    of a non-number. *)
Lemma validate_no_negative (c : creation) :
  strings_well_typed c ->
  (forall q, In q (numbers_of c) ->
     negative q = false
     /\ (numeric q = false -> truthy q = false \/ ~ In q (strings_of c))) ->
  forall e, In e (dict_of py_eq (params_of c)) ->
    check_param (component_of c) (name_of c) e = inr tt
    \/ (numeric (fst e) = false
        /\ check_param (component_of c) (name_of c) e
           = inl (TypeError (must_be_int_or_float (component_of c) (name_of c) (fst e)))).
Proof.
  intros Hs Hn [k tag] Hk.
  destruct (dict_of_in py_eq py_eq_refl _ _ _ Hk) as (q & Hq & Heq).
  destruct (params_of_tags _ _ _ Hq) as [-> | ->].
  - left. apply strings_of_in in Hq. destruct (Hs q Hq) as [H | H].
    + apply check_param_string. now rewrite (py_eq_isinstance_str _ _ Heq).
    + apply check_param_falsy. now rewrite (py_eq_truthy _ _ Heq).
  - apply numbers_of_in in Hq. destruct (Hn q Hq) as [Hneg Hsep].
    destruct (truthy k) eqn:Ht; [ | left; now apply check_param_falsy].
    destruct (numeric k) eqn:Hnum.
    + left. apply check_param_number; [assumption | ].
      now rewrite (py_eq_negative _ _ Heq).
    + right. simpl. split; [assumption | now apply check_param_not_number].
Qed.

(** C3, as amended. A negative number, or a truthy value that is no
    number, passed for a ['positive number'] parameter of [port], [node]
    or [channel] makes the call raise a [ValueError] or a [TypeError]
    before anything is created: the schematic is the one before the call.
    When the call passes the kind test of [channel] and its string
    parameters are strings, the error is the range violation if every
    number parameter is a number or falsy, and the type mismatch if none
    is negative and no truthy non-number among them is also the value of
    a string parameter. A falsy value is never checked. *)
Theorem invalid_number_rejected (E : Collaborators) (c : creation)
  (s : Schematic E) (p : pyval) :
  In p (numbers_of c) -> offending c p ->
  exists e,
    run E c s = (inl e, s)
    /\ (is_ValueError e \/ is_TypeError e)
    /\ (passes_kind_test c -> strings_well_typed c ->
        ((forall q, In q (numbers_of c) -> numeric q = true \/ truthy q = false) ->
         exists p', negative p' = true
           /\ e = ValueError (must_be_ge_0 (component_of c) (name_of c) p'))
        /\
        ((forall q, In q (numbers_of c) ->
            negative q = false
            /\ (numeric q = false -> truthy q = false \/ ~ In q (strings_of c))) ->
         exists p', numeric p' = false
           /\ e = TypeError (must_be_int_or_float (component_of c) (name_of c) p'))).
Proof.
  intros Hin Hoff.
  destruct (passes_kind_test_dec c) as [Hk | Hk].
  - assert (Hfail : exists x,
               validate_params (dict_of py_eq (params_of c)) (component_of c) (name_of c)
               = inl x).
    { destruct Hoff as [Hneg | (Ht & Hn & Hsep)].
      - now apply (validate_negative_fails c p).
      - now apply (validate_wrong_type_fails c p). }
    destruct Hfail as [x Hx]. exists x.
    split; [now apply run_validation_error | ].
    split; [eapply validate_params_raises; eassumption | ].
    intros _ Hs.
    destruct (validate_params_error _ _ _ _ Hx) as (entry & Hentry & Hcheck).
    split; intros Hn.
    + destruct (validate_well_typed c Hs Hn entry Hentry) as [H | [H1 H2]];
        rewrite Hcheck in *; [discriminate | ].
      exists (fst entry). split; [assumption | congruence].
    + destruct (validate_no_negative c Hs Hn entry Hentry) as [H | [H1 H2]];
        rewrite Hcheck in *; [discriminate | ].
      exists (fst entry). split; [assumption | congruence].
  - destruct (run_kind_test_error E c s Hk) as (e & He & Hkind).
    exists e. split; [assumption | split; [assumption | tauto]].
Qed.

(** ** What is stored *)

Lemma node_attrs_appended (G : DiGraph) (n : pyval) (nd : node_data) :
  has_node G n = false -> node_attrs (G ++ [(n, nd)]) n = Some (attrs nd).
Proof.
  intros H. unfold node_attrs.
  rewrite (dict_get_app_new py_eq py_eq_refl) by now apply has_node_false.
  reflexivity.
Qed.

Lemma edge_attrs_with_channel (G : DiGraph) (u v : pyval) (d : pydict) :
  has_edge G u v = false -> edge_attrs (with_channel G u v d) u v = Some d.
Proof.
  intros H. destruct (add_edge_fresh G u v H) as (_ & Hv & _).
  unfold edge_attrs, with_channel.
  rewrite (dict_get_set_eq py_eq py_eq_refl). cbn [succ].
  now apply dict_get_app_new; [apply py_eq_refl | ].
Qed.

(** The entity a successful call creates, with its attribute dict. *)
Lemma run_stores (E : Collaborators) (c : creation) (s s' : Schematic E) :
  run E c s = (inr tt, s') ->
  match c with
  | Channel f t l w h r k ph m =>
      exists f' t' k' ph',
        f = PStr f' /\ t = PStr t' /\ k = PStr k' /\ ph = PStr ph'
        /\ contains k' "rectangle" = true
        /\ no_strategy E s (lower (canonical k')) = false
        /\ entity_attrs (dg s') c
           = Some (stored_channel f' t' (canonical k') (lower ph') l w h r m)
  | Port n k mp mf x y fl =>
      exists n' k' fluid,
        n = PStr n' /\ k = PStr k'
        /\ no_strategy E s (lower k') = false
        /\ entity_attrs (dg s') c = Some (stored_port n' (lower k') fluid mp mf x y)
  | Node n x y k c0 p qf =>
      exists n' k',
        n = PStr n' /\ k = PStr k'
        /\ no_strategy E s (lower k') = false
        /\ entity_attrs (dg s') c = Some (stored_node n' (lower k') x y c0 p qf)
  end.
Proof.
  destruct c as [f t l w h r k ph m | n k mp mf x y fl | n x y k c p qf];
    cbn [run entity_attrs]; intros H.
  - destruct (channel_outcome E f t l w h r k ph m s)
      as [[e He] | (f' & t' & k' & ph' & -> & -> & -> & -> & Hk & _ & Hedge & Hs & He)];
      rewrite He in H; inversion H.
    exists f', t', k', ph'. repeat (split; [reflexivity || assumption | ]).
    simpl dg. now apply edge_attrs_with_channel.
  - destruct (port_outcome E n k mp mf x y fl s)
      as [[e He] | (n' & k' & fluid & -> & -> & _ & Hnode & Hs & _ & He)];
      rewrite He in H; inversion H.
    exists n', k', fluid. repeat (split; [reflexivity || assumption | ]).
    simpl dg. now apply node_attrs_appended.
  - destruct (node_outcome E n x y k c p qf s)
      as [[e He] | (n' & k' & -> & -> & _ & Hnode & Hs & He)];
      rewrite He in H; inversion H.
    exists n', k'. repeat (split; [reflexivity || assumption | ]).
    simpl dg. now apply node_attrs_appended.
Qed.

(** C4. A parameter whose value is [False] is skipped by
    [validate_params] whatever its tag: the validation is that of the
    other entries. On the entity a call creates, a bound passed as
    [False] is stored as absent: as [False] itself (port, channel) or as
    [None] (node). *)
Theorem absent_sentinel_skipped (E : Collaborators) :
  (forall (l1 l2 : list (pyval * string)) (tag comp : string) (name : list pyval),
      validate_params (l1 ++ (PBool false, tag) :: l2) comp name
      = validate_params (l1 ++ l2) comp name)
  /\
  (forall (c : creation) (s s' : Schematic E),
      run E c s = (inr tt, s') ->
      exists d, entity_attrs (dg s') c = Some d
        /\ forall key, In (key, PBool false) (bounds_of c) ->
             getitem d key = inr (Lit (PBool false))
             \/ getitem d key = inr (Lit PNone)).
Proof.
  split.
  - intros. now apply validate_params_skips.
  - intros c s s' H. pose proof (run_stores E c s s' H) as Hst.
    destruct c as [f t l w h r k ph m | n k mp mf x y fl | n x y k c p qf].
    + destruct Hst as (f' & t' & k' & ph' & _ & _ & _ & _ & _ & _ & Hd).
      eexists. split; [exact Hd | ].
      intros key Hin. cbn [bounds_of In] in Hin.
      repeat (destruct Hin as [Hin | Hin];
              [injection Hin as Hkey Hval; subst; left; reflexivity | ]).
      destruct Hin.
    + destruct Hst as (n' & k' & fluid & _ & _ & _ & Hd).
      eexists. split; [exact Hd | ].
      intros key Hin. cbn [bounds_of In] in Hin.
      repeat (destruct Hin as [Hin | Hin];
              [injection Hin as Hkey Hval; subst; left; reflexivity | ]).
      destruct Hin.
    + destruct Hst as (n' & k' & _ & _ & _ & Hd).
      eexists. split; [exact Hd | ].
      intros key Hin. cbn [bounds_of In] in Hin.
      repeat (destruct Hin as [Hin | Hin];
              [injection Hin as Hkey Hval; subst; right; reflexivity | ]).
      destruct Hin.
Qed.

(** ** Kinds *)

Lemma lower_app (a b : string) : lower (a ++ b) = (lower a ++ lower b)%string.
Proof. induction a as [ | c a IH ]; simpl; [reflexivity | now rewrite IH]. Qed.

Lemma lower_length (a : string) : String.length (lower a) = String.length a.
Proof. induction a as [ | c a IH ]; simpl; [reflexivity | now rewrite IH]. Qed.

Lemma string_app_inj (a a' b b' : string) :
  String.length a = String.length a' ->
  (a ++ b)%string = (a' ++ b')%string -> a = a' /\ b = b'.
Proof.
  revert a'. induction a as [ | c a IH ]; intros [ | c' a' ]; simpl;
    try discriminate; intros Hlen H.
  - auto.
  - injection H as -> H. injection Hlen as Hlen.
    destruct (IH a' Hlen H) as [-> ->]. auto.
Qed.

Lemma prefix_app (s t : string) :
  String.prefix s t = true -> exists post, t = (s ++ post)%string.
Proof.
  revert t. induction s as [ | c s IH ]; intros t H.
  - now exists t.
  - destruct t as [ | c' t ]; simpl in H; try discriminate.
    destruct (ascii_dec c c') as [-> | ]; try discriminate.
    destruct (IH t H) as [post ->]. now exists post.
Qed.

Lemma contains_app (s t : string) :
  contains s t = true -> exists pre post, t = (pre ++ s ++ post)%string.
Proof.
  induction t as [ | c t IH ]; cbn [contains]; intros H.
  - rewrite orb_false_r in H. destruct (prefix_app _ _ H) as [post Hp].
    now exists EmptyString, post.
  - apply orb_true_iff in H. destruct H as [H | H].
    + destruct (prefix_app _ _ H) as [post Hp]. now exists EmptyString, post.
    + destruct (IH H) as (pre & post & ->). now exists (String c pre), post.
Qed.

(** A fragment of a lower-case string is in lower case. *)
Lemma contains_lower (s t : string) :
  contains s t = true -> lower t = t -> lower s = s.
Proof.
  intros H Ht. destruct (contains_app _ _ H) as (pre & post & ->).
  rewrite !lower_app in Ht.
  apply string_app_inj in Ht; [ | apply lower_length].
  destruct Ht as [_ Ht].
  apply string_app_inj in Ht; [ | apply lower_length].
  tauto.
Qed.

Lemma no_strategy_false (E : Collaborators) (s : Schematic E) (k : string) :
  no_strategy E s k = false <-> In ("translate_" ++ k)%string (translation_strats s).
Proof.
  unfold no_strategy. rewrite negb_false_iff, existsb_exists. split.
  - intros (r & Hr & Heq). apply String.eqb_eq in Heq. now subst.
  - intros H. eexists. split; [exact H | apply String.eqb_refl].
Qed.

Lemma run_dichotomy (E : Collaborators) (c : creation) (s : Schematic E) :
  (exists e, run E c s = (inl e, s)) \/ (exists s', run E c s = (inr tt, s')).
Proof.
  destruct c as [f t l w h r k ph m | n k mp mf x y fl | n x y k c p qf]; cbn [run].
  - destruct (channel_outcome E f t l w h r k ph m s)
      as [He | (? & ? & ? & ? & _ & _ & _ & _ & _ & _ & _ & _ & He)];
      [now left | right; eexists; exact He].
  - destruct (port_outcome E n k mp mf x y fl s)
      as [He | (? & ? & ? & _ & _ & _ & _ & _ & _ & He)];
      [now left | right; eexists; exact He].
  - destruct (node_outcome E n x y k c p qf s)
      as [He | (? & ? & _ & _ & _ & _ & _ & He)];
      [now left | right; eexists; exact He].
Qed.

(** C5. A call whose kind is not supported raises, in the call itself,
    and stores nothing; a call that succeeds had a supported kind: for a
    port or node a kind with a translation rule, for a channel the kind
    ['rectangle'], stored as ['channel']. The rule set is that of the
    module [translate], which has no rule named after a fragment of
    ["rectangle"]. *)
Theorem unsupported_kind_rejected (E : Collaborators) (c : creation)
  (s : Schematic E) :
  rectangle_only (translation_strats s) ->
  (~ supported (translation_strats s) c -> exists e, run E c s = (inl e, s))
  /\
  (forall s', run E c s = (inr tt, s') ->
     supported (translation_strats s) c
     /\ exists d, entity_attrs (dg s') c = Some d
          /\ getitem d "kind" = inr (Lit (PStr (stored_kind c)))).
Proof.
  intros Hrect.
  assert (Hok : forall s', run E c s = (inr tt, s') ->
     supported (translation_strats s) c
     /\ exists d, entity_attrs (dg s') c = Some d
          /\ getitem d "kind" = inr (Lit (PStr (stored_kind c)))).
  { intros s' H. pose proof (run_stores E c s s' H) as Hst.
    destruct c as [f t l w h r k ph m | n k mp mf x y fl | n x y k c p qf].
    - destruct Hst as (f' & t' & k' & ph' & _ & _ & -> & _ & Hk & Hs & Hd).
      apply no_strategy_false in Hs.
      assert (Hrec : k' = "rectangle").
      { unfold canonical in Hs. destruct (k' =? "rectangle") eqn:Heq.
        - now apply String.eqb_eq.
        - apply Hrect; [assumption | ].
          now rewrite (contains_lower _ _ Hk eq_refl) in Hs. }
      subst k'. split; [split; [reflexivity | exact Hs] | ].
      eexists. split; [exact Hd | reflexivity].
    - destruct Hst as (n' & k' & fluid & _ & -> & Hs & Hd).
      apply no_strategy_false in Hs.
      split; [now exists k' | ].
      eexists. split; [exact Hd | reflexivity].
    - destruct Hst as (n' & k' & _ & -> & Hs & Hd).
      apply no_strategy_false in Hs.
      split; [now exists k' | ].
      eexists. split; [exact Hd | reflexivity]. }
  split; [ | exact Hok].
  intros Hun. destruct (run_dichotomy E c s) as [He | [s' Hs']]; [assumption | ].
  exfalso. apply Hun. now apply (Hok s').
Qed.

(** ** Variable names *)

Ltac in_cases H :=
  repeat (destruct H as [H | H];
          [try discriminate H;
           try (injection H as <- <-; split; [simpl; tauto | reflexivity]) | ]);
  try destruct H.

(** C6. On the entity a call creates, the attributes that hold a dReal
    variable are the physical ones, and the variable of attribute [a] is
    named [<name>_<a>] for a port or node and [<from>_<to>_<a>] for a
    channel: the name parts and the attribute joined by ["_"]. *)
Theorem variable_names_follow_convention (E : Collaborators) (c : creation)
  (s s' : Schematic E) :
  run E c s = (inr tt, s') ->
  exists d owner,
    entity_attrs (dg s') c = Some d
    /\ name_of c = map PStr owner
    /\ forall a v,
         In (a, Var v) d
         <-> In a (variable_attributes c) /\ v = String.concat "_" (owner ++ [a]).
Proof.
  intros H. pose proof (run_stores E c s s' H) as Hst.
  destruct c as [f t l w h r k ph m | n k mp mf x y fl | n x y k c p qf].
  - destruct Hst as (f' & t' & k' & ph' & -> & -> & _ & _ & _ & _ & Hd).
    eexists. exists [f'; t']. split; [exact Hd | split; [reflexivity | ]].
    intros a v. split.
    + intros Hin. unfold stored_channel in Hin. cbn [In] in Hin. in_cases Hin.
    + intros [Hin ->]. cbn [variable_attributes In] in Hin.
      repeat (destruct Hin as [<- | Hin]; [simpl; tauto | ]). destruct Hin.
  - destruct Hst as (n' & k' & fluid & -> & _ & _ & Hd).
    eexists. exists [n']. split; [exact Hd | split; [reflexivity | ]].
    intros a v. split.
    + intros Hin. unfold stored_port in Hin. cbn [In] in Hin. in_cases Hin.
    + intros [Hin ->]. cbn [variable_attributes In] in Hin.
      repeat (destruct Hin as [<- | Hin]; [simpl; tauto | ]). destruct Hin.
  - destruct Hst as (n' & k' & -> & _ & _ & Hd).
    eexists. exists [n']. split; [exact Hd | split; [reflexivity | ]].
    intros a v. split.
    + intros Hin. unfold stored_node in Hin. cbn [In] in Hin. in_cases Hin.
    + intros [Hin ->]. cbn [variable_attributes In] in Hin.
      repeat (destruct Hin as [<- | Hin]; [simpl; tauto | ]). destruct Hin.
Qed.

(** [elec_port], which is not one of the three creation methods above,
    names the variables of [x] and [y] with capital letters. *)
Lemma elec_port_names_X_Y (E : Collaborators)
  (name kind min_pressure min_flow_rate x y voltage current fluid_name : pyval)
  (s s' : Schematic E) :
  elec_port E name kind min_pressure min_flow_rate x y voltage current fluid_name s
  = (inr tt, s') ->
  exists n d, name = PStr n /\ node_attrs (dg s') name = Some d
    /\ getitem d "x" = inr (Var (n ++ "_X")%string)
    /\ getitem d "y" = inr (Var (n ++ "_Y")%string).
Proof.
  unfold elec_port. run_monad.
  destruct (validate_params _ _ _) as [e | []] eqn:Hval; [discriminate | ].
  destruct (has_node (dg s) name) eqn:Hnode; [discriminate | ].
  destruct kind as [ | b | z | q | k ]; try discriminate.
  cbn [py_lower].
  destruct (no_strategy E s (lower k)) eqn:Hstrat; [discriminate | ].
  destruct (Fluid_init (constants E) fluid_name) as [e | fluid] eqn:Hfl;
    [discriminate | ].
  destruct name as [ | b | z | q | n ]; try discriminate.
  cbn [py_add_str].
  match goal with |- context [for_each ?items ?f ?s0] =>
    rewrite (for_each_setitem_node E (PStr n) items s0 empty_node) end.
  - simpl dg. rewrite add_node_new by assumption.
    rewrite (dict_set_app_last py_eq py_eq_refl) by now apply has_node_false.
    intros H. injection H as <-. exists n. eexists.
    split; [reflexivity | ]. simpl dg.
    split; [now apply node_attrs_appended | ]. split; reflexivity.
  - simpl dg. rewrite add_node_new by assumption.
    apply dict_get_app_new; [apply py_eq_refl | now apply has_node_false].
Qed.

(** ** Translation *)

Section Translation.
Variable E : Collaborators.

Lemma with_exprs_nil (s : Schematic E) : with_exprs E s (exprs s ++ []) = s.
Proof. destruct s. unfold with_exprs. simpl. now rewrite app_nil_r. Qed.

Lemma with_exprs_app (s : Schematic E) (T1 T2 : list (expr E)) :
  with_exprs E (with_exprs E s (exprs s ++ T1))
    (exprs (with_exprs E s (exprs s ++ T1)) ++ T2)
  = with_exprs E s (exprs s ++ T1 ++ T2).
Proof. unfold with_exprs. simpl. now rewrite app_assoc. Qed.

(** The first loop only appends to [self.exprs], and what it does is
    decided by the graph alone. *)
Lemma translate_inputs_frame (items : DiGraph) :
  forall (b : bool) (s : Schematic E) (r : result bool) (s' : Schematic E),
  translate_inputs E items b s = (r, s') ->
  exists T,
    s' = with_exprs E s (exprs s ++ T)
    /\ forall s2, dg s2 = dg s ->
         translate_inputs E items b s2 = (r, with_exprs E s2 (exprs s2 ++ T)).
Proof.
  induction items as [ | [name data] items IH ]; intros b s r s'.
  - cbn [translate_inputs]. unfold ret. intros H. injection H as <- <-.
    exists []. split; [now rewrite with_exprs_nil | ].
    intros s2 _. now rewrite with_exprs_nil.
  - cbn [translate_inputs]. run_monad.
    destruct (getitem (attrs data) "kind") as [e | kind].
    { intros H. injection H as <- <-. exists [].
      split; [now rewrite with_exprs_nil | ].
      intros s2 _. now rewrite with_exprs_nil. }
    destruct (attr_eq_str kind "input"); [ | apply IH].
    destruct (scan_for_output (dg s) false) as [e | [ | ]] eqn:Hscan.
    + intros H. injection H as <- <-. exists [].
      split; [now rewrite with_exprs_nil | ].
      intros s2 Hdg. rewrite Hdg, Hscan. now rewrite with_exprs_nil.
    + destruct (translate_input E (dg s) name) as [e | vals] eqn:Hin.
      * intros H. injection H as <- <-. exists [].
        split; [now rewrite with_exprs_nil | ].
        intros s2 Hdg. rewrite Hdg, Hscan, Hin. now rewrite with_exprs_nil.
      * unfold append_exprs. run_monad. intros H.
        destruct (IH _ _ _ _ H) as (T & -> & Hframe).
        exists (vals ++ T). split; [apply with_exprs_app | ].
        intros s2 Hdg. rewrite Hdg, Hscan, Hin.
        rewrite (Hframe (with_exprs E s2 (exprs s2 ++ vals))) by exact Hdg.
        now rewrite with_exprs_app.
    + intros H. injection H as <- <-. exists [].
      split; [now rewrite with_exprs_nil | ].
      intros s2 Hdg. rewrite Hdg, Hscan. now rewrite with_exprs_nil.
Qed.

Lemma chip_loop_frame (items : DiGraph) :
  forall (s : Schematic E) (r : result unit) (s' : Schematic E),
  for_each items (chip_body E) s = (r, s') ->
  exists T,
    s' = with_exprs E s (exprs s ++ T)
    /\ forall s2, dg s2 = dg s -> dim s2 = dim s ->
         for_each items (chip_body E) s2 = (r, with_exprs E s2 (exprs s2 ++ T)).
Proof.
  induction items as [ | item items IH ]; intros s r s'.
  - cbn [for_each]. unfold ret. intros H. injection H as <- <-.
    exists []. split; [now rewrite with_exprs_nil | ].
    intros s2 _ _. now rewrite with_exprs_nil.
  - cbn [for_each]. unfold chip_body at 1 3. run_monad.
    destruct (translate_chip E (dg s) (fst item) (dim s)) as [e | vals] eqn:Hchip.
    + intros H. injection H as <- <-. exists [].
      split; [now rewrite with_exprs_nil | ].
      intros s2 Hdg Hdim. rewrite Hdg, Hdim, Hchip. now rewrite with_exprs_nil.
    + unfold append_exprs. run_monad. intros H.
      destruct (IH _ _ _ H) as (T & -> & Hframe).
      exists (vals ++ T). split; [apply with_exprs_app | ].
      intros s2 Hdg Hdim. rewrite Hdg, Hdim, Hchip.
      rewrite (Hframe (with_exprs E s2 (exprs s2 ++ vals))) by assumption.
      now rewrite with_exprs_app.
Qed.

(** [translate_schematic] only appends to [self.exprs]; what it appends
    and what it returns is decided by the graph and the chip dimensions. *)
Lemma translate_schematic_frame (s : Schematic E) (r : result unit) (s' : Schematic E) :
  translate_schematic E s = (r, s') ->
  exists T,
    s' = with_exprs E s (exprs s ++ T)
    /\ forall s2, dg s2 = dg s -> dim s2 = dim s ->
         translate_schematic E s2 = (r, with_exprs E s2 (exprs s2 ++ T)).
Proof.
  unfold translate_schematic.
  unfold bind at 1. unfold get at 1. unfold bind at 1.
  destruct (translate_inputs E (dg s) false s) as [[e | has_input] s1] eqn:Hin;
    destruct (translate_inputs_frame _ _ _ _ _ Hin) as (T1 & -> & Hframe1).
  - intros H. injection H as <- <-. exists T1. split; [reflexivity | ].
    intros s2 Hdg _. unfold bind at 1. unfold get at 1. unfold bind at 1.
    rewrite Hdg. now rewrite (Hframe1 s2 Hdg).
  - destruct has_input; cbn [negb].
    + unfold bind at 1. unfold get at 1. simpl dg. intros H.
      destruct (chip_loop_frame _ _ _ _ H) as (T2 & -> & Hframe2).
      exists (T1 ++ T2). split; [apply with_exprs_app | ].
      intros s2 Hdg Hdim. unfold bind at 1. unfold get at 1. unfold bind at 1.
      rewrite Hdg. rewrite (Hframe1 s2 Hdg). cbn [negb].
      unfold bind at 1. unfold get at 1. simpl dg. rewrite Hdg.
      rewrite (Hframe2 (with_exprs E s2 (exprs s2 ++ T1))) by assumption.
      now rewrite with_exprs_app.
    + unfold raise. intros H. injection H as <- <-. exists T1.
      split; [reflexivity | ].
      intros s2 Hdg _. unfold bind at 1. unfold get at 1. unfold bind at 1.
      rewrite Hdg. now rewrite (Hframe1 s2 Hdg).
Qed.

End Translation.

(** ** Solving twice *)

Lemma in_app_twice {A : Type} (pre T : list A) (c : A) :
  In c ((pre ++ T) ++ T) <-> In c (pre ++ T).
Proof. rewrite !in_app_iff. tauto. Qed.

Lemma Forall_app_twice {A : Type} (sat : A -> Prop) (pre T : list A) :
  Forall sat ((pre ++ T) ++ T) <-> Forall sat (pre ++ T).
Proof. rewrite !Forall_app. tauto. Qed.

Lemma solve_inv (E : Collaborators) (show : bool) (s s1 : Schematic E) (out : output) :
  solve E show s = (inr out, s1) ->
  translate_schematic E s = (inr tt, s1)
  /\ out = match CheckSatisfiability E (logical_and E (exprs s1)) 10 with
           | Some model => OBox model
           | None => OStr "No solution found"
           end.
Proof.
  unfold solve, bind.
  destruct (translate_schematic E s) as [[e | []] s'] eqn:Ht; try discriminate.
  unfold invoke_backend, bind, get.
  destruct (CheckSatisfiability E (logical_and E (exprs s')) 10) eqn:Hc;
    unfold ret; intros H; injection H as <- <-; rewrite Hc; auto.
Qed.

Lemma solve_after_translate (E : Collaborators) (show : bool) (s s1 : Schematic E) :
  translate_schematic E s = (inr tt, s1) ->
  solve E show s
  = (inr match CheckSatisfiability E (logical_and E (exprs s1)) 10 with
         | Some model => OBox model
         | None => OStr "No solution found"
         end, s1).
Proof.
  intros Ht. unfold solve, bind. rewrite Ht.
  unfold invoke_backend, bind, get.
  now destruct (CheckSatisfiability E (logical_and E (exprs s1)) 10).
Qed.

Lemma logical_and_absorbs (E : Collaborators) :
  absorbs_repeats E ->
  forall (T l : list (expr E)),
    (forall c, In c T -> In c l) -> logical_and E (l ++ T) = logical_and E l.
Proof.
  intros Habs. induction T as [ | c T IH ]; intros l Hsub.
  - now rewrite app_nil_r.
  - change (l ++ c :: T) with (l ++ [c] ++ T). rewrite app_assoc.
    rewrite IH.
    + apply Habs. apply Hsub. now left.
    + intros c' Hc'. apply in_or_app. left. apply Hsub. now right.
Qed.

(** C7. After a solve that returned, a second solve on the same object
    (the graph is not touched in between, and is not changed by a solve)
    returns too. It does not start from scratch: it translates the whole
    graph again and appends the same constraints [T] to [self.exprs]
    once more, so the solver is given the conjunction of the doubled
    list. The accumulated list has the same members and, under every
    interpretation of the constraints, the same conjunction as after the
    first solve. When [logical_and] ignores an operand it already has,
    the second query is the first one, the second solve returns the
    result of the first and [to_json] writes the same IR. *)
Theorem solve_twice_same_constraints (E : Collaborators) (show show' : bool)
  (s s1 : Schematic E) (out1 : output) :
  solve E show s = (inr out1, s1) ->
  exists T out2 s2,
    solve E show' s1 = (inr out2, s2)
    /\ dg s1 = dg s /\ dg s2 = dg s
    /\ exprs s1 = exprs s ++ T /\ exprs s2 = exprs s1 ++ T
    /\ query E s2 = logical_and E (exprs s ++ T ++ T)
    /\ (forall c, In c (exprs s2) <-> In c (exprs s1))
    /\ (forall sat : expr E -> Prop, Forall sat (exprs s2) <-> Forall sat (exprs s1))
    /\ (absorbs_repeats E ->
        query E s2 = query E s1
        /\ out2 = out1
        /\ build_ir (node_link_data (dg s1)) out2
           = build_ir (node_link_data (dg s)) out1
        /\ forall path fs, exists r fs1,
             to_json E path (s, fs) = (r, (s1, fs1))
             /\ to_json E path (s1, fs1) = (r, (s2, fs1))).
Proof.
  intros H. destruct (solve_inv _ _ _ _ _ H) as [Ht Hout].
  destruct (translate_schematic_frame E _ _ _ Ht) as (T & Hs1 & Hframe).
  assert (Hdg : dg s1 = dg s) by now subst s1.
  assert (Hdim : dim s1 = dim s) by now subst s1.
  assert (Hex : exprs s1 = exprs s ++ T) by now subst s1.
  pose proof (Hframe s1 Hdg Hdim) as Ht2.
  set (s2 := with_exprs E s1 (exprs s1 ++ T)) in *.
  exists T. eexists. exists s2.
  split; [apply (solve_after_translate E show' _ _ Ht2) | ].
  split; [assumption | ]. split; [assumption | ].
  split; [assumption | ]. split; [reflexivity | ].
  split; [unfold query; subst s2; simpl; now rewrite Hex, <- app_assoc | ].
  assert (Hmem : forall c, In c (exprs s2) <-> In c (exprs s1))
    by (intros c; subst s2; simpl; rewrite Hex; apply in_app_twice).
  split; [exact Hmem | ].
  split; [intros sat; subst s2; simpl; rewrite Hex; apply Forall_app_twice | ].
  intros Habs.
  assert (Hq : logical_and E (exprs s2) = logical_and E (exprs s1)).
  { subst s2. simpl. apply (logical_and_absorbs E Habs).
    intros c Hc. rewrite Hex. apply in_or_app. now right. }
  assert (Hout2 : match CheckSatisfiability E (logical_and E (exprs s2)) 10 with
                  | Some model => OBox model
                  | None => OStr "No solution found"
                  end = out1)
    by (rewrite Hq; now symmetry).
  split; [exact Hq | ].
  split; [exact Hout2 | ]. split; [now rewrite Hout2, Hdg | ].
  intros path fs. unfold to_json.
  rewrite (solve_after_translate E false _ _ Ht).
  rewrite (solve_after_translate E false _ _ Ht2).
  rewrite Hout2, <- Hout, Hdg.
  destruct (build_ir (node_link_data (dg s)) out1) as [e | ir].
  - exists (inl e), fs. split; reflexivity.
  - exists (inr tt), (dict_set String.eqb path ir fs). split; [reflexivity | ].
    now rewrite (dict_set_set String.eqb String.eqb_refl).
Qed.

(** ** An unsatisfiable schematic *)

(** C9. When the solver finds the formula unsatisfiable, [invoke_backend]
    and [solve] return the string ['No solution found']; [to_json] then
    raises an [AttributeError] at [output.items()], before it builds the
    IR, and writes no file. *)
Theorem unsat_returns_string (E : Collaborators) (show : bool) (s s1 : Schematic E) :
  translate_schematic E s = (inr tt, s1) ->
  CheckSatisfiability E (logical_and E (exprs s1)) 10 = None ->
  invoke_backend E show s1 = (inr (OStr "No solution found"), s1)
  /\ solve E show s = (inr (OStr "No solution found"), s1)
  /\ forall path fs,
       to_json E path (s, fs)
       = (inl (AttributeError (builtin "'str' object has no attribute 'items'")),
          (s1, fs)).
Proof.
  intros Ht Hunsat. split; [ | split].
  - unfold invoke_backend, bind, get. now rewrite Hunsat.
  - rewrite (solve_after_translate E show _ _ Ht). now rewrite Hunsat.
  - intros path fs. unfold to_json.
    rewrite (solve_after_translate E false _ _ Ht). now rewrite Hunsat.
Qed.

(** ** Nodes without attributes *)

Lemma scan_for_output_bare (items : DiGraph) :
  forall b, (exists n nd, In (n, nd) items /\ bare nd) ->
  scan_for_output items b = inl (KeyError "kind").
Proof.
  induction items as [ | [x y] items IH ]; intros b (n & nd & Hin & Hb).
  - destruct Hin.
  - cbn [scan_for_output]. unfold getitem.
    destruct (dict_get String.eqb "kind" (attrs y)) as [kind | ] eqn:Hk;
      [ | reflexivity].
    apply IH. destruct Hin as [Hin | Hin].
    + injection Hin as -> ->. unfold bare in Hb. congruence.
    + now exists n, nd.
Qed.

Lemma translate_inputs_bare (E : Collaborators) (s : Schematic E) (items : DiGraph) :
  forall b,
  (exists n nd, In (n, nd) (dg s) /\ bare nd) ->
  (exists n nd, In (n, nd) items /\ bare nd) ->
  translate_inputs E items b s = (inl (KeyError "kind"), s).
Proof.
  intros b Hdg. revert b.
  induction items as [ | [name data] items IH ]; intros b (n & nd & Hin & Hb).
  - destruct Hin.
  - cbn [translate_inputs]. run_monad. unfold getitem.
    destruct (dict_get String.eqb "kind" (attrs data)) as [kind | ] eqn:Hk;
      [ | reflexivity].
    destruct (attr_eq_str kind "input").
    + now rewrite (scan_for_output_bare (dg s) false Hdg).
    + apply IH. destruct Hin as [Hin | Hin].
      * injection Hin as -> ->. unfold bare in Hb. congruence.
      * now exists n, nd.
Qed.

(** With a node that has no ['kind'] in the graph, the translation
    raises [KeyError('kind')] before it emits anything. *)
Lemma translate_schematic_bare (E : Collaborators) (s : Schematic E) :
  (exists n nd, In (n, nd) (dg s) /\ bare nd) ->
  translate_schematic E s = (inl (KeyError "kind"), s).
Proof.
  intros H. unfold translate_schematic.
  unfold bind at 1. unfold get at 1. unfold bind at 1.
  now rewrite (translate_inputs_bare E s (dg s) false H H).
Qed.

Lemma dict_get_in {V : Type} (k : pyval) (d : list (pyval * V)) (v : V) :
  dict_get py_eq k d = Some v -> exists k', In (k', v) d.
Proof.
  induction d as [ | [k' v'] d IH ]; simpl; try discriminate.
  destruct (py_eq k' k).
  - intros H. injection H as ->. exists k'. now left.
  - intros H. destruct (IH H) as [k1 H1]. exists k1. now right.
Qed.

Lemma dict_get_app_none {V : Type} (k : pyval) (d1 d2 : list (pyval * V)) :
  dict_get py_eq k d1 = None -> dict_get py_eq k (d1 ++ d2) = dict_get py_eq k d2.
Proof.
  induction d1 as [ | [k' v'] d1 IH ]; simpl; try reflexivity.
  destruct (py_eq k' k); [discriminate | assumption].
Qed.

(** Assigning to the string key [u] leaves every other string key alone. *)
Lemma dict_get_set_other {V : Type} (u v : string) (x : V) (d : list (pyval * V)) :
  u <> v ->
  dict_get py_eq (PStr v) (dict_set py_eq (PStr u) x d) = dict_get py_eq (PStr v) d.
Proof.
  intros Huv. induction d as [ | [k' v'] d IH ]; simpl.
  - destruct (String.eqb_spec u v); [contradiction | reflexivity].
  - destruct (py_eq k' (PStr u)) eqn:Hu; simpl.
    + apply py_eq_str_r in Hu. subst k'. simpl.
      destruct (String.eqb_spec u v); [contradiction | reflexivity].
    + now rewrite IH.
Qed.

(** The two ends of a channel between names that are not in the graph
    are nodes with an empty attribute dict. *)
Lemma with_channel_bare_ends (G : DiGraph) (f t : string) (d : pydict) :
  has_node G (PStr f) = false -> has_node G (PStr t) = false ->
  node_attrs (with_channel G (PStr f) (PStr t) d) (PStr f) = Some []
  /\ node_attrs (with_channel G (PStr f) (PStr t) d) (PStr t) = Some []
  /\ has_edge (with_channel G (PStr f) (PStr t) d) (PStr f) (PStr t) = true.
Proof.
  intros Hf Ht.
  pose proof (has_node_false _ _ Hf) as Hf'.
  pose proof (has_node_false _ _ Ht) as Ht'.
  unfold with_channel, node_attrs, has_edge. rewrite Hf'.
  rewrite (dict_get_set_eq py_eq py_eq_refl). cbn [option_map attrs succ empty_node app].
  split; [reflexivity | ]. split.
  - destruct (String.eqb_spec f t) as [-> | Hne].
    + now rewrite (dict_get_set_eq py_eq py_eq_refl).
    + rewrite dict_get_set_other by assumption.
      rewrite add_node_get.
      rewrite add_node_new by assumption.
      rewrite dict_get_app_none by assumption. simpl.
      now destruct (f =? t).
  - unfold dict_has. simpl. now rewrite String.eqb_refl.
Qed.

(** C10. [channel] does not look for its two ends among the nodes: for
    two names that are not in the graph (and parameters that pass the
    validation) it succeeds and adds both as nodes with an empty
    attribute dict, in particular without ['kind'], joined by the new
    edge. Every later [solve] raises [KeyError('kind')] and emits
    nothing. *)
Theorem channel_creates_bare_endpoints (E : Collaborators) (f t ph : string)
  (min_length min_width min_height min_resolution min_sampling_rate : pyval)
  (s : Schematic E) :
  has_node (dg s) (PStr f) = false ->
  has_node (dg s) (PStr t) = false ->
  In "translate_channel" (translation_strats s) ->
  validate_params
    (dict_of py_eq (channel_params (PStr f) (PStr t) min_length min_width
                      min_height min_resolution (PStr "rectangle") (PStr ph)
                      min_sampling_rate))
    "Channel" [PStr f; PStr t] = inr tt ->
  exists s',
    channel E (PStr f) (PStr t) min_length min_width min_height min_resolution
      (PStr "rectangle") (PStr ph) min_sampling_rate s = (inr tt, s')
    /\ node_attrs (dg s') (PStr f) = Some []
    /\ node_attrs (dg s') (PStr t) = Some []
    /\ has_edge (dg s') (PStr f) (PStr t) = true
    /\ forall show, solve E show s' = (inl (KeyError "kind"), s').
Proof.
  intros Hf Ht Hrule Hval.
  assert (Hedge : has_edge (dg s) (PStr f) (PStr t) = false)
    by (unfold has_edge; now rewrite (has_node_false _ _ Hf)).
  assert (Hstrat : no_strategy E s (lower (canonical "rectangle")) = false)
    by now apply no_strategy_false.
  eexists. split.
  - now apply channel_succeeds.
  - simpl dg.
    destruct (with_channel_bare_ends (dg s) f t
                (stored_channel f t (canonical "rectangle") (lower ph) min_length
                   min_width min_height min_resolution min_sampling_rate) Hf Ht)
      as (Hnf & Hnt & He).
    repeat (split; [assumption | ]).
    intros show. unfold solve, bind.
    rewrite translate_schematic_bare; [reflexivity | ].
    simpl dg. unfold node_attrs in Hnf.
    destruct (dict_get py_eq (PStr f) (with_channel _ _ _ _)) as [nd | ] eqn:Hget;
      try discriminate.
    destruct (dict_get_in _ _ _ Hget) as [k' Hin].
    exists k', nd. split; [assumption | ].
    unfold bare. simpl in Hnf. injection Hnf as ->. reflexivity.
Qed.

(** ** The check for an output *)

(** Without a node of kind ['input'] (every node having a kind), the
    translation raises ['Schematic has no input'] and emits nothing. *)
Lemma translate_inputs_no_input (E : Collaborators) (s : Schematic E) (items : DiGraph) :
  forall b,
  (forall n nd, In (n, nd) items ->
     exists kind, getitem (attrs nd) "kind" = inr kind
                  /\ attr_eq_str kind "input" = false) ->
  translate_inputs E items b s = (inr b, s).
Proof.
  induction items as [ | [name data] items IH ]; intros b H.
  - reflexivity.
  - cbn [translate_inputs]. run_monad.
    destruct (H name data (or_introl eq_refl)) as (kind & -> & ->).
    apply IH. intros n nd Hin. apply (H n nd). now right.
Qed.

Lemma translate_schematic_no_input (E : Collaborators) (s : Schematic E) :
  (forall n nd, In (n, nd) (dg s) ->
     exists kind, getitem (attrs nd) "kind" = inr kind
                  /\ attr_eq_str kind "input" = false) ->
  translate_schematic E s = (inl (ValueError schematic_has_no_input), s).
Proof.
  intros H. unfold translate_schematic.
  unfold bind at 1. unfold get at 1. unfold bind at 1.
  now rewrite (translate_inputs_no_input E s (dg s) false H).
Qed.

(** The inner loop looks at the kinds of all nodes of the graph, not at
    the channels: it answers whether any node is an output. *)
Lemma scan_for_output_any (items : DiGraph) :
  forall b has_output,
  scan_for_output items b = inr has_output ->
  has_output = true <->
  (b = true \/ exists n nd kind, In (n, nd) items
                 /\ getitem (attrs nd) "kind" = inr kind
                 /\ attr_eq_str kind "output" = true).
Proof.
  induction items as [ | [x y] items IH ]; intros b has_output.
  - cbn [scan_for_output]. intros H. injection H as <-. split; [auto | ].
    intros [H | (n & nd & kind & [] & _)]. exact H.
  - cbn [scan_for_output].
    destruct (getitem (attrs y) "kind") as [e | kind] eqn:Hk; try discriminate.
    intros H. rewrite (IH _ _ H). split.
    + intros [Hb | (n & nd & kind' & Hin & Hk' & Hout)].
      * destruct (attr_eq_str kind "output") eqn:Hout; [ | now left].
        right. exists x, y, kind. split; [now left | auto].
      * right. exists n, nd, kind'. split; [now right | auto].
    + intros [-> | (n & nd & kind' & [Hin | Hin] & Hk' & Hout)].
      * left. now destruct (attr_eq_str kind "output").
      * injection Hin as <- <-. rewrite Hk in Hk'. injection Hk' as <-.
        left. now rewrite Hout.
      * right. now exists n, nd, kind'.
Qed.

(** An input node followed by an output node: the translation calls
    the collaborators and raises nothing of its own, whatever the edges. *)
Lemma translate_schematic_input_output (E : Collaborators) (s : Schematic E)
  (a b : pyval) (nda ndb : node_data) :
  dg s = [(a, nda); (b, ndb)] ->
  getitem (attrs nda) "kind" = inr (Lit (PStr "input")) ->
  getitem (attrs ndb) "kind" = inr (Lit (PStr "output")) ->
  fst (translate_schematic E s)
  = match translate_input E (dg s) a with
    | inl e => inl e
    | inr _ =>
        match translate_chip E (dg s) a (dim s) with
        | inl e => inl e
        | inr _ =>
            match translate_chip E (dg s) b (dim s) with
            | inl e => inl e
            | inr _ => inr tt
            end
        end
    end.
Proof.
  intros Hdg Ha Hb.
  assert (Hscan : scan_for_output (dg s) false = inr true)
    by (rewrite Hdg; cbn [scan_for_output]; now rewrite Ha, Hb).
  unfold translate_schematic.
  unfold bind at 1. unfold get at 1. unfold bind at 1.
  rewrite Hdg at 1. cbn [translate_inputs]. run_monad.
  rewrite Ha. cbn [attr_eq_str py_eq].
  change ("input" =? "input") with true. cbv beta iota.
  rewrite Hscan. cbv beta iota.
  destruct (translate_input E (dg s) a) as [e | vals]; [reflexivity | ].
  unfold append_exprs. run_monad.
  rewrite Hb. cbn [attr_eq_str py_eq].
  change ("output" =? "input") with false. cbv beta iota.
  cbn [negb dg with_exprs dim].
  rewrite Hdg at 1. cbn [for_each]. unfold chip_body. run_monad.
  cbn [dg with_exprs dim fst].
  destruct (translate_chip E (dg s) a (dim s)) as [e | vals1]; [reflexivity | ].
  unfold append_exprs. run_monad. cbn [dg with_exprs dim fst].
  destruct (translate_chip E (dg s) b (dim s)) as [e | vals2]; reflexivity.
Qed.

(** C1, at an input port and an output port that no channel joins. The
    graph has no edge, so the output is not reachable from the input;
    yet for all collaborators the translation calls [translate_input] on
    the input port and goes on to the chip constraints: it raises only
    what a collaborator raises, and returns when they return. *)
Theorem unreachable_output_not_detected (E : Collaborators) :
  Sample.unconnected_graph = dg (Sample.unconnected Sample.E_unsat)
  /\ edges Sample.unconnected_graph = []
  /\ fst (translate_schematic E
            (with_dg E (Schematic_init E Sample.chip) Sample.unconnected_graph))
     = match translate_input E Sample.unconnected_graph (PStr "A") with
       | inl e => inl e
       | inr _ =>
           match translate_chip E Sample.unconnected_graph (PStr "A") Sample.chip with
           | inl e => inl e
           | inr _ =>
               match translate_chip E Sample.unconnected_graph (PStr "B") Sample.chip with
               | inl e => inl e
               | inr _ => inr tt
               end
           end
       end.
Proof.
  split; [vm_compute; reflexivity | ]. split; [reflexivity | ].
  apply (translate_schematic_input_output E
           (with_dg E (Schematic_init E Sample.chip) Sample.unconnected_graph)
           (PStr "A") (PStr "B") _ _ eq_refl); reflexivity.
Qed.

(** ** The IR *)

(** C8, at an input port [P1] with [min_flow_rate = 5] joined by a
    channel to an output port named [min]. The solved flow rate of the
    channel, the variable [P1_min_flow_rate], is also written onto the
    node [P1], under the key [min_flow_rate]: the IR node of [P1] does
    not carry the static bound [5] but the interval of the channel. *)
Theorem to_json_overwrites_static_attribute :
  let E := Sample.collaborators (Sample.sat Sample.model_to_min) in
  let s := Sample.to_min E in
  let w := to_json E "test.json" (s, []) in
  option_map (dict_get String.eqb "min_flow_rate") (node_attrs (dg s) (PStr "P1"))
  = Some (Some (Lit (PInt 5)))
  /\ fst w = inr tt
  /\ exists ir,
       snd (snd w) = [("test.json", ir)]
       /\ option_map portAttrs (dict_get String.eqb "pT0" (ir_nodes ir))
          = Some (Lit (PStr "P1"))
       /\ ir_node_attribute ir "pT0" "min_flow_rate" = Some (Interval 0 1).
Proof.
  vm_compute. split; [reflexivity | ]. split; [reflexivity | ].
  eexists. split; [reflexivity | ]. split; reflexivity.
Qed.

(** ** The shape of the IR *)

Lemma str_of_nat_inj (i j : nat) : str_of_nat i = str_of_nat j -> i = j.
Proof.
  unfold str_of_nat. intros H. apply DecimalNat.Unsigned.to_uint_inj.
  assert (Hs : Some (Nat.to_uint i) = Some (Nat.to_uint j))
    by (rewrite <- !NilEmpty.usu; now rewrite H).
  now injection Hs.
Qed.

Lemma id_inj (prefix : string) (i j : nat) :
  (prefix ++ str_of_nat i)%string = (prefix ++ str_of_nat j)%string -> i = j.
Proof.
  intros H. apply string_app_inj in H; [ | reflexivity].
  now apply str_of_nat_inj.
Qed.

Lemma below_fresh {V : Type} (prefix : string) (idx : nat) (acc : list (string * V)) :
  below prefix idx (map fst acc) ->
  dict_get String.eqb (prefix ++ str_of_nat idx)%string acc = None.
Proof.
  induction acc as [ | [k v] acc IH ]; intros H; simpl; [reflexivity | ].
  destruct (String.eqb_spec k (prefix ++ str_of_nat idx)%string) as [Heq | _].
  - destruct (H k (or_introl eq_refl)) as (j & Hj & Hk). rewrite Hk in Heq.
    apply id_inj in Heq. lia.
  - apply IH. intros k' Hk'. apply H. now right.
Qed.

Lemma below_step (prefix : string) (idx : nat) (keys : list string) :
  below prefix idx keys ->
  below prefix (S idx) (keys ++ [(prefix ++ str_of_nat idx)%string]).
Proof.
  intros H k Hk. apply in_app_iff in Hk. destruct Hk as [Hk | [<- | []]].
  - destruct (H k Hk) as (j & Hj & ->). exists j. split; [lia | reflexivity].
  - exists idx. split; [lia | reflexivity].
Qed.

Lemma below_weaken (prefix : string) (idx : nat) (keys : list string) :
  below prefix idx keys -> below prefix (S idx) keys.
Proof.
  intros H k Hk. destruct (H k Hk) as (j & Hj & ->). exists j. split; [lia | reflexivity].
Qed.

Lemma Forall2_in_r {A B : Type} (R : A -> B -> Prop) (l : list A) (l' : list B) (b : B) :
  Forall2 R l l' -> In b l' -> exists a, R a b.
Proof.
  induction 1 as [ | a0 b0 l l' Hab _ IH ]; intros Hin; [destruct Hin | ].
  destruct Hin as [<- | Hin]; [now exists a0 | now apply IH].
Qed.

(** The loop over the links appends one connection per link, with the
    ids [ch<idx>], [ch<idx+1>], ... in the order of the links; each
    carries the link's ["source"] and ["target"] and its attribute bag. *)
Lemma add_connections_spec (lks : list pydict) :
  forall (idx : nat) (acc conns : list (string * connection)),
  below "ch" idx (map fst acc) ->
  add_connections idx lks acc = inr conns ->
  exists new,
    conns = acc ++ new
    /\ map fst new = ids "ch" idx (length lks)
    /\ Forall2 (fun link c =>
                  getitem link "source" = inr (c_from c)
                  /\ getitem link "target" = inr (c_to c)
                  /\ c_attributes c = connection_attributes link)
               lks (map snd new).
Proof.
  induction lks as [ | link lks IH ]; intros idx acc conns Hb.
  - cbn [add_connections]. intros H. injection H as <-. exists [].
    split; [now rewrite app_nil_r | split; [reflexivity | constructor]].
  - cbn [add_connections].
    destruct (getitem link "source") as [e | source] eqn:Hs; try discriminate.
    destruct (getitem link "target") as [e | target] eqn:Ht; try discriminate.
    rewrite (dict_set_new String.eqb _ _ _ (below_fresh "ch" idx acc Hb)).
    intros H. apply IH in H.
    + destruct H as (new & -> & Hids & Hall).
      eexists (_ :: new). split; [now rewrite <- app_assoc | ].
      split; [unfold ids in *; cbn [length seq map fst]; now rewrite Hids | ].
      cbn [map snd]. constructor; [ | assumption]. auto.
    + rewrite map_app. now apply below_step.
Qed.

(** The loop over the node dicts appends one node entry per dict, with
    the ids [pT<idx>], ...; an entry whose kind is ['input'] or
    ['output'] is registered under ["portTypes"], every other one under
    ["nodeTypes"], with the same attribute bag. *)
Lemma add_nodes_spec (nds : list pydict) :
  forall (idx : nat) (ns ns' : list (string * ir_node))
         (pts nts pts' nts' : list (string * ir_type)),
  below "pT" idx (map fst ns) ->
  below "pT" idx (map fst pts) ->
  below "pT" idx (map fst nts) ->
  add_nodes idx nds (ns, pts, nts) = inr (ns', pts', nts') ->
  exists new,
    ns' = ns ++ new
    /\ map fst new = ids "pT" idx (length nds)
    /\ Forall2 (fun d n =>
                  getitem d "kind" = inr (n_type n)
                  /\ getitem d "id" = inr (portAttrs n)
                  /\ n_attributes n = node_attributes d)
               nds (map snd new)
    /\ pts' = pts ++ map type_of_node (filter is_port_entry new)
    /\ nts' = nts ++ map type_of_node (filter (fun e => negb (is_port_entry e)) new).
Proof.
  induction nds as [ | d nds IH ]; intros idx ns ns' pts nts pts' nts' Hn Hp Ht.
  - cbn [add_nodes]. intros H. injection H as <- <- <-. exists [].
    cbn [filter map]. rewrite !app_nil_r.
    split; [reflexivity | split; [reflexivity | split; [constructor | auto]]].
  - cbn [add_nodes].
    destruct (getitem d "kind") as [e | node_kind] eqn:Hk; try discriminate.
    destruct (getitem d "id") as [e | id] eqn:Hi; try discriminate.
    rewrite (dict_set_new String.eqb _ _ _ (below_fresh "pT" idx ns Hn)).
    destruct (is_port_kind node_kind) eqn:Hport.
    + rewrite (dict_set_new String.eqb _ _ _ (below_fresh "pT" idx pts Hp)).
      intros H. apply IH in H.
      * destruct H as (new & -> & Hids & Hall & -> & ->).
        eexists (_ :: new). split; [now rewrite <- app_assoc | ].
        split; [unfold ids in *; cbn [length seq map fst]; now rewrite Hids | ].
        split; [cbn [map snd]; constructor; [auto | assumption] | ].
        assert (Hpe : forall i a b,
                   is_port_entry (i, {| n_type := node_kind; portAttrs := a;
                                        n_attributes := b |}) = true)
          by (intros; exact Hport).
        cbn [filter]. rewrite !Hpe. cbn [negb map].
        split; [now rewrite <- app_assoc | reflexivity].
      * rewrite map_app. now apply below_step.
      * rewrite map_app. now apply below_step.
      * now apply below_weaken.
    + rewrite (dict_set_new String.eqb _ _ _ (below_fresh "pT" idx nts Ht)).
      intros H. apply IH in H.
      * destruct H as (new & -> & Hids & Hall & -> & ->).
        eexists (_ :: new). split; [now rewrite <- app_assoc | ].
        split; [unfold ids in *; cbn [length seq map fst]; now rewrite Hids | ].
        split; [cbn [map snd]; constructor; [auto | assumption] | ].
        assert (Hpe : forall i a b,
                   is_port_entry (i, {| n_type := node_kind; portAttrs := a;
                                        n_attributes := b |}) = false)
          by (intros; exact Hport).
        cbn [filter]. rewrite !Hpe. cbn [negb map].
        split; [reflexivity | now rewrite <- app_assoc].
      * rewrite map_app. now apply below_step.
      * now apply below_weaken.
      * rewrite map_app. now apply below_step.
Qed.

Lemma update_all_length (f : pydict -> result pydict) (ds ds' : list pydict) :
  update_all f ds = inr ds' -> length ds' = length ds.
Proof.
  revert ds'. induction ds as [ | d ds IH ]; intros ds'; cbn [update_all].
  - intros H. now injection H as <-.
  - destruct (f d); try discriminate.
    destruct (update_all f ds) as [ | rest]; try discriminate.
    intros H. injection H as <-. simpl. now rewrite (IH rest eq_refl).
Qed.

Lemma project_length (model : Box) :
  forall lks nds lks' nds',
  project model lks nds = inr (lks', nds') ->
  length lks' = length lks /\ length nds' = length nds.
Proof.
  induction model as [ | [attribute value] model IH ]; intros lks nds lks' nds';
    cbn [project].
  - intros H. now injection H as <- <-.
  - destruct (update_all _ lks) as [ | lks1] eqn:H1; try discriminate.
    destruct (update_all _ nds) as [ | nds1] eqn:H2; try discriminate.
    intros H. destruct (IH _ _ _ _ H) as [-> ->].
    now rewrite (update_all_length _ _ _ H1), (update_all_length _ _ _ H2).
Qed.

(** No attribute bag of the IR holds a variable. *)
Lemma node_attributes_no_variable (d : pydict) (key : string) (a : attr) :
  In (key, a) (node_attributes d) -> isinstance_Variable a = false.
Proof.
  unfold node_attributes.
  assert (H : forall acc,
             (forall k v, In (k, v) acc -> isinstance_Variable v = false) ->
             forall k v,
               In (k, v) (fold_left (fun acc kv =>
                            if isinstance_Variable (snd kv) then acc
                            else dict_set String.eqb (fst kv) (snd kv) acc) d acc) ->
               isinstance_Variable v = false).
  { induction d as [ | [k0 v0] d IH ]; intros acc Hacc k v; cbn [fold_left fst snd].
    - apply Hacc.
    - apply IH. destruct (isinstance_Variable v0) eqn:Hv; [exact Hacc | ].
      intros k1 v1 Hin. destruct (dict_set_in String.eqb String.eqb_refl _ _ _ _ _ Hin) as [H1 | [-> _]];
        [now apply (Hacc k1) | assumption]. }
  apply (H []). intros k v [].
Qed.

Lemma connection_attributes_no_variable (d : pydict) (key : string) (a : attr) :
  In (key, a) (connection_attributes d) -> isinstance_Variable a = false.
Proof.
  unfold connection_attributes.
  assert (H : forall acc,
             (forall k v, In (k, v) acc -> isinstance_Variable v = false) ->
             forall k v,
               In (k, v) (fold_left (fun acc kv =>
                            if negb (accounted_for (fst kv))
                               && negb (isinstance_Variable (snd kv))
                            then dict_set String.eqb (fst kv) (snd kv) acc
                            else acc) d acc) ->
               isinstance_Variable v = false).
  { induction d as [ | [k0 v0] d IH ]; intros acc Hacc k v; cbn [fold_left fst snd].
    - apply Hacc.
    - apply IH.
      destruct (negb (accounted_for k0) && negb (isinstance_Variable v0)) eqn:Hv;
        [ | exact Hacc].
      apply andb_true_iff in Hv. destruct Hv as [_ Hv]. apply negb_true_iff in Hv.
      intros k1 v1 Hin. destruct (dict_set_in String.eqb String.eqb_refl _ _ _ _ _ Hin) as [H1 | [-> _]];
        [now apply (Hacc k1) | assumption]. }
  apply (H []). intros k v [].
Qed.

(** The parts of C8 that hold for every graph and every model: when
    [to_json] returns, the file holds an IR with one connection per
    channel, keyed [ch0], [ch1], ..., one node entry per node, keyed
    [pT0], [pT1], ..., the port entries under ["portTypes"] and the
    other ones under ["nodeTypes"], and no variable in any bag. *)
Lemma to_json_shape (E : Collaborators) (path : string) (s s' : Schematic E)
  (fs fs' : files) :
  to_json E path (s, fs) = (inr tt, (s', fs')) ->
  exists ir,
    dict_get String.eqb path fs' = Some ir
    /\ map fst (connections ir) = ids "ch" 0 (length (edges (dg s)))
    /\ map fst (ir_nodes ir) = ids "pT" 0 (length (dg s))
    /\ portTypes ir = map type_of_node (filter is_port_entry (ir_nodes ir))
    /\ nodeTypes ir
       = map type_of_node (filter (fun e => negb (is_port_entry e)) (ir_nodes ir))
    /\ (forall id c key a, In (id, c) (connections ir) ->
          In (key, a) (c_attributes c) -> isinstance_Variable a = false)
    /\ (forall id n key a, In (id, n) (ir_nodes ir) ->
          In (key, a) (n_attributes n) -> isinstance_Variable a = false).
Proof.
  unfold to_json.
  destruct (solve E false s) as [[e | out] s1]; try discriminate.
  unfold build_ir.
  destruct (items_of out) as [e | model]; try discriminate.
  destruct (project model _ _) as [e | [lks nds]] eqn:Hproj; try discriminate.
  destruct (add_connections 0 lks []) as [e | conns] eqn:Hc; try discriminate.
  destruct (add_nodes 0 nds ([], [], [])) as [e | [[ns pts] nts]] eqn:Hn;
    try discriminate.
  intros H. injection H as <- <-.
  destruct (project_length _ _ _ _ _ Hproj) as [Hl1 Hl2].
  unfold node_link_data in Hl1, Hl2. cbn [links nodes] in Hl1, Hl2.
  rewrite length_map in Hl1, Hl2.
  apply add_connections_spec in Hc; [ | intros k []].
  destruct Hc as (newc & -> & Hcids & Hcall).
  apply add_nodes_spec in Hn; try (intros k []).
  destruct Hn as (newn & -> & Hnids & Hnall & -> & ->).
  eexists. split; [apply (dict_get_set_eq String.eqb String.eqb_refl) | ].
  cbn [connections ir_nodes portTypes nodeTypes app].
  split; [now rewrite Hcids, Hl1 | ]. split; [now rewrite Hnids, Hl2 | ].
  split; [reflexivity | ]. split; [reflexivity | ]. split.
  - intros id c key a Hin Ha.
    assert (Hsnd : In c (map snd newc)) by (apply in_map_iff; now exists (id, c)).
    destruct (Forall2_in_r _ _ _ c Hcall Hsnd) as (link & _ & _ & Hattr).
    rewrite Hattr in Ha. eapply connection_attributes_no_variable; eassumption.
  - intros id n key a Hin Ha.
    assert (Hsnd : In n (map snd newn)) by (apply in_map_iff; now exists (id, n)).
    destruct (Forall2_in_r _ _ _ n Hnall Hsnd) as (d & _ & _ & Hattr).
    rewrite Hattr in Ha. eapply node_attributes_no_variable; eassumption.
Qed.

(** ** The statements at sample schematics *)

Import Sample.

Lemma rules_rectangle_only : rectangle_only rules.
Proof.
  intros k Hk Hin. unfold rules in Hin. cbn [In] in Hin.
  repeat (destruct Hin as [Hin | Hin];
          [simpl in Hin; injection Hin as <-; vm_compute in Hk; discriminate Hk | ]).
  destruct Hin.
Qed.

(** C2 at the sample circuit: a second channel from [A] to [B] raises
    the [TypeError] of the message format and changes nothing. *)
Lemma duplicate_rejected_unchanged_witness :
  already_there (dg (circuit E_unsat)) (channel_call "A" "B" absent "rectangle") = true
  /\ run E_unsat (channel_call "A" "B" absent "rectangle") (circuit E_unsat)
     = (inl (TypeError format_arguments_left_over), circuit E_unsat).
Proof.
  assert (Hdup : already_there (dg (circuit E_unsat))
                   (channel_call "A" "B" absent "rectangle") = true)
    by (vm_compute; reflexivity).
  assert (Hkind : passes_kind_test (channel_call "A" "B" absent "rectangle"))
    by (vm_compute; reflexivity).
  assert (Hval : validate_params
                   (dict_of py_eq (params_of (channel_call "A" "B" absent "rectangle")))
                   (component_of (channel_call "A" "B" absent "rectangle"))
                   (name_of (channel_call "A" "B" absent "rectangle")) = inr tt)
    by (vm_compute; reflexivity).
  split; [exact Hdup | ].
  destruct (duplicate_rejected_unchanged E_unsat
              (channel_call "A" "B" absent "rectangle") (circuit E_unsat) Hdup)
    as (e & Hrun & _ & Herr).
  rewrite (Herr Hkind Hval) in Hrun. exact Hrun.
Defined.

(** C3 as stated fails for a falsy value of the wrong type: an empty
    string passed for [min_length] is skipped by the validation and the
    channel is created; no [TypeError] is raised. *)
Lemma falsy_wrong_type_accepted :
  numeric (PStr "") = false
  /\ fst (run E_unsat (channel_call "A" "B" (PStr "") "rectangle") (unconnected E_unsat))
     = inr tt
  /\ ~ (exists e,
          fst (run E_unsat (channel_call "A" "B" (PStr "") "rectangle")
                 (unconnected E_unsat)) = inl e
          /\ is_TypeError e).
Proof.
  split; [reflexivity | ]. split; [reflexivity | ].
  intros (e & He & _). vm_compute in He. discriminate He.
Qed.

(** The validated dict is keyed by the values passed: a string passed
    for [min_length] that is also the value of [kind] shares the entry of
    [kind], is checked as a string, and the channel is created. *)
Lemma shared_entry_accepts_wrong_type :
  fst (run E_unsat (channel_call "A" "B" (PStr "rectangle") "rectangle")
         (unconnected E_unsat)) = inr tt.
Proof. vm_compute. reflexivity. Qed.

(** C3 at the sample ports: a channel with [min_length = -1]. *)
Lemma invalid_number_rejected_witness :
  In (PInt (-1)) (numbers_of (channel_call "A" "B" (PInt (-1)) "rectangle"))
  /\ offending (channel_call "A" "B" (PInt (-1)) "rectangle") (PInt (-1))
  /\ exists e,
       run E_unsat (channel_call "A" "B" (PInt (-1)) "rectangle") (unconnected E_unsat)
       = (inl e, unconnected E_unsat)
       /\ (is_ValueError e \/ is_TypeError e).
Proof.
  assert (Hin : In (PInt (-1))
                  (numbers_of (channel_call "A" "B" (PInt (-1)) "rectangle")))
    by (simpl; tauto).
  assert (Hoff : offending (channel_call "A" "B" (PInt (-1)) "rectangle") (PInt (-1)))
    by (left; reflexivity).
  split; [exact Hin | ]. split; [exact Hoff | ].
  destruct (invalid_number_rejected E_unsat
              (channel_call "A" "B" (PInt (-1)) "rectangle")
              (unconnected E_unsat) (PInt (-1)) Hin Hoff) as (e & He & Hkind & _).
  exists e. split; assumption.
Defined.

(** C4 at a port created without bounds. *)
Lemma absent_sentinel_skipped_witness :
  exists d,
    entity_attrs (dg (snd (run E_unsat (port_call "A" "input" absent)
                             (Schematic_init E_unsat chip))))
      (port_call "A" "input" absent) = Some d
    /\ forall key, In (key, PBool false) (bounds_of (port_call "A" "input" absent)) ->
         getitem d key = inr (Lit (PBool false))
         \/ getitem d key = inr (Lit PNone).
Proof.
  apply (proj2 (absent_sentinel_skipped E_unsat)
           (port_call "A" "input" absent) (Schematic_init E_unsat chip)).
  vm_compute. reflexivity.
Defined.

(** C5 at the sample ports: a channel of kind ['rect'], a fragment of
    ['rectangle'] that passes the first test of [channel]. *)
Lemma unsupported_kind_rejected_witness :
  rectangle_only (translation_strats (unconnected E_unsat))
  /\ ~ supported (translation_strats (unconnected E_unsat))
        (channel_call "A" "B" absent "rect")
  /\ exists e,
       run E_unsat (channel_call "A" "B" absent "rect") (unconnected E_unsat)
       = (inl e, unconnected E_unsat).
Proof.
  assert (Hr : rectangle_only (translation_strats (unconnected E_unsat)))
    by exact rules_rectangle_only.
  assert (Hn : ~ supported (translation_strats (unconnected E_unsat))
                   (channel_call "A" "B" absent "rect"))
    by (intros [H _]; discriminate H).
  split; [exact Hr | ]. split; [exact Hn | ].
  exact (proj1 (unsupported_kind_rejected E_unsat
                  (channel_call "A" "B" absent "rect") (unconnected E_unsat) Hr) Hn).
Defined.

(** C6 at the channel of the sample circuit. *)
Lemma variable_names_follow_convention_witness :
  exists d owner,
    entity_attrs (dg (circuit E_unsat)) (channel_call "A" "B" (PFloat (1 # 100)) "rectangle")
    = Some d
    /\ name_of (channel_call "A" "B" (PFloat (1 # 100)) "rectangle") = map PStr owner
    /\ forall a v,
         In (a, Var v) d
         <-> In a (variable_attributes
                     (channel_call "A" "B" (PFloat (1 # 100)) "rectangle"))
             /\ v = String.concat "_" (owner ++ [a]).
Proof.
  apply (variable_names_follow_convention E_unsat
           (channel_call "A" "B" (PFloat (1 # 100)) "rectangle")
           (unconnected E_unsat) (circuit E_unsat)).
  vm_compute. reflexivity.
Defined.

(** C7 as stated fails: the second solve does not start from scratch.
    At the sample circuit the first solve conjoins three constraints and
    the second one these three twice; with a conjunction that keeps its
    operands as they are passed, the second query is not the first. *)
Lemma second_solve_doubles_the_query :
  exprs (snd (solve E_sat false (circuit E_sat)))
  = ["input A"; "chip A"; "chip B"]
  /\ exprs (snd (solve E_sat false (snd (solve E_sat false (circuit E_sat)))))
     = ["input A"; "chip A"; "chip B"; "input A"; "chip A"; "chip B"]
  /\ query E_sat (snd (solve E_sat false (snd (solve E_sat false (circuit E_sat)))))
     <> query E_sat (snd (solve E_sat false (circuit E_sat))).
Proof.
  split; [vm_compute; reflexivity | ]. split; [vm_compute; reflexivity | ].
  intros H. vm_compute in H. discriminate H.
Qed.

Lemma conj_set_fold_keeps (l acc : list string) (c : string) :
  In c acc ->
  In c (fold_left (fun acc c => if existsb (String.eqb c) acc then acc else acc ++ [c])
          l acc).
Proof.
  revert acc. induction l as [ | x l IH ]; intros acc Hin; cbn [fold_left];
    [assumption | ].
  apply IH. destruct (existsb (String.eqb x) acc); [assumption | ].
  apply in_or_app. now left.
Qed.

Lemma conj_set_fold_has (l acc : list string) (c : string) :
  In c l ->
  In c (fold_left (fun acc c => if existsb (String.eqb c) acc then acc else acc ++ [c])
          l acc).
Proof.
  revert acc. induction l as [ | x l IH ]; intros acc Hin; cbn [fold_left];
    [destruct Hin | ].
  destruct Hin as [-> | Hin]; [ | now apply IH].
  apply conj_set_fold_keeps.
  destruct (existsb (String.eqb c) acc) eqn:Hc.
  - apply existsb_exists in Hc. destruct Hc as (y & Hy & Heq).
    apply String.eqb_eq in Heq. now subst y.
  - apply in_or_app. right. now left.
Qed.

(** The conjunction over a set ignores an operand it already has. *)
Lemma conj_set_absorbs : absorbs_repeats Cases.E_set.
Proof.
  intros l c Hin. cbn [logical_and Cases.E_set]. unfold Cases.conj_set.
  rewrite fold_left_app. cbn [fold_left].
  assert (Hc : existsb (String.eqb c)
                 (fold_left (fun acc c => if existsb (String.eqb c) acc then acc
                                          else acc ++ [c]) l []) = true).
  { apply existsb_exists. exists c. split; [ | apply String.eqb_refl].
    now apply conj_set_fold_has. }
  cbn [expr Cases.E_set] in *. now rewrite Hc.
Qed.

(** C7 at the sample circuit with the conjunction over a set and a
    solver that looks at the formula: the second solve appends the three
    constraints again, asks the same query and returns the same model,
    and the IR is the same. *)
Lemma solve_twice_same_constraints_witness :
  absorbs_repeats Cases.E_set
  /\ exists T out2 s2,
       solve Cases.E_set true (snd (solve Cases.E_set false (circuit Cases.E_set)))
       = (inr out2, s2)
       /\ exprs (snd (solve Cases.E_set false (circuit Cases.E_set)))
          = exprs (circuit Cases.E_set) ++ T
       /\ exprs s2 = exprs (snd (solve Cases.E_set false (circuit Cases.E_set))) ++ T
       /\ query Cases.E_set s2
          = query Cases.E_set (snd (solve Cases.E_set false (circuit Cases.E_set)))
       /\ out2 = OBox model_circuit
       /\ build_ir
            (node_link_data (dg (snd (solve Cases.E_set false (circuit Cases.E_set)))))
            out2
          = build_ir (node_link_data (dg (circuit Cases.E_set))) (OBox model_circuit).
Proof.
  assert (H : solve Cases.E_set false (circuit Cases.E_set)
              = (inr (OBox model_circuit),
                 snd (solve Cases.E_set false (circuit Cases.E_set))))
    by (vm_compute; reflexivity).
  split; [exact conj_set_absorbs | ].
  destruct (solve_twice_same_constraints Cases.E_set false true (circuit Cases.E_set)
              (snd (solve Cases.E_set false (circuit Cases.E_set)))
              (OBox model_circuit) H)
    as (T & out2 & s2 & H1 & _ & _ & H2 & H3 & _ & _ & _ & Hsame).
  destruct (Hsame conj_set_absorbs) as (Hq & Ho & Hir & _).
  exists T, out2, s2.
  split; [exact H1 | ]. split; [exact H2 | ]. split; [exact H3 | ].
  split; [exact Hq | ]. split; [exact Ho | exact Hir].
Defined.

(** C9 at the sample circuit, with a solver that finds no model. *)
Lemma unsat_returns_string_witness :
  solve E_unsat false (circuit E_unsat)
  = (inr (OStr "No solution found"), snd (translate_schematic E_unsat (circuit E_unsat)))
  /\ forall path fs,
       to_json E_unsat path (circuit E_unsat, fs)
       = (inl (AttributeError (builtin "'str' object has no attribute 'items'")),
          (snd (translate_schematic E_unsat (circuit E_unsat)), fs)).
Proof.
  assert (H : translate_schematic E_unsat (circuit E_unsat)
              = (inr tt, snd (translate_schematic E_unsat (circuit E_unsat))))
    by (vm_compute; reflexivity).
  exact (proj2 (unsat_returns_string E_unsat false (circuit E_unsat)
                  (snd (translate_schematic E_unsat (circuit E_unsat)))
                  H eq_refl)).
Defined.

(** C10 at the sample ports: a channel between the unknown names [X]
    and [Y]. *)
Lemma channel_creates_bare_endpoints_witness :
  exists s',
    run E_unsat (channel_call "X" "Y" absent "rectangle") (unconnected E_unsat)
    = (inr tt, s')
    /\ node_attrs (dg s') (PStr "X") = Some []
    /\ node_attrs (dg s') (PStr "Y") = Some []
    /\ has_edge (dg s') (PStr "X") (PStr "Y") = true
    /\ forall show, solve E_unsat show s' = (inl (KeyError "kind"), s').
Proof.
  apply (channel_creates_bare_endpoints E_unsat "X" "Y" "None"
           absent absent absent absent (PInt 1) (unconnected E_unsat)).
  - vm_compute. reflexivity.
  - vm_compute. reflexivity.
  - vm_compute. tauto.
  - vm_compute. reflexivity.
Defined.

(** * Further properties of the class *)

(** ** Validation *)

Lemma py_eq_trans (a b c : pyval) :
  py_eq a b = true -> py_eq b c = true -> py_eq a c = true.
Proof.
  destruct a as [ | x | x | x | x ], b as [ | y | y | y | y ],
           c as [ | z | z | z | z ]; simpl;
    try discriminate; try reflexivity;
    try apply Qeq_bool_trans.
  intros H1 H2. apply String.eqb_eq in H1, H2. subst. apply String.eqb_refl.
Qed.

Lemma numeric_isinstance (p : pyval) :
  negb (isinstance_int p) && negb (isinstance_float p) = negb (numeric p).
Proof. now destruct p. Qed.

Lemma Qltb_false_iff (x y : Q) : Qltb x y = false <-> y <= x.
Proof.
  unfold Qltb. rewrite negb_false_iff. apply Qle_bool_iff.
Qed.

Lemma check_param_inr_iff (comp : string) (name : list pyval) (p : pyval)
  (tag : string) :
  check_param comp name (p, tag) = inr tt
  <-> (truthy p = false
       \/ (tag = "string" /\ isinstance_str p = true)
       \/ (tag = "number" /\ numeric p = true)
       \/ (tag = "negative number" /\ exists x, num_val p = Some x /\ x <= 0)
       \/ (tag = "positive number" /\ exists x, num_val p = Some x /\ 0 <= x)
       \/ known_tag tag = false).
Proof.
  unfold check_param.
  destruct (truthy p) eqn:Ht; cbn [negb]; [ | tauto].
  destruct (String.eqb_spec tag "string") as [-> | Hs].
  { destruct (isinstance_str p); cbn [negb]; split; auto; try discriminate.
    intros [H | [[_ H] | [[H _] | [[H _] | [[H _] | H]]]]]; discriminate. }
  destruct (String.eqb_spec tag "number") as [-> | Hn].
  { rewrite numeric_isinstance. destruct (numeric p); cbn [negb]; split; auto 6;
      try discriminate.
    intros [H | [[H _] | [[_ H] | [[H _] | [[H _] | H]]]]]; discriminate. }
  destruct (String.eqb_spec tag "negative number") as [-> | Hg].
  { unfold py_gt0. destruct (num_val p) as [x | ] eqn:Hv.
    - destruct (Qltb 0 x) eqn:Hx.
      + split; [discriminate | ].
        intros [H | [[H _] | [[H _] | [[_ (y & Hy & Hle)] | [[H _] | H]]]]];
          try discriminate.
        injection Hy as <-. apply Qltb_false_iff in Hle. congruence.
      + split; [ | reflexivity]. intros _. do 3 right. left.
        split; [reflexivity | ]. exists x. split; [reflexivity | ].
        now apply Qltb_false_iff.
    - split; [discriminate | ].
      intros [H | [[H _] | [[H _] | [[_ (y & Hy & _)] | [[H _] | H]]]]];
        discriminate. }
  destruct (String.eqb_spec tag "positive number") as [-> | Hp].
  { unfold py_lt0. destruct (num_val p) as [x | ] eqn:Hv.
    - destruct (Qltb x 0) eqn:Hx.
      + split; [discriminate | ].
        intros [H | [[H _] | [[H _] | [[H _] | [[_ (y & Hy & Hle)] | H]]]]];
          try discriminate.
        injection Hy as <-. apply Qltb_false_iff in Hle. congruence.
      + split; [ | reflexivity]. intros _. do 4 right. left.
        split; [reflexivity | ]. exists x. split; [reflexivity | ].
        now apply Qltb_false_iff.
    - split; [discriminate | ].
      intros [H | [[H _] | [[H _] | [[H _] | [[_ (y & Hy & _)] | H]]]]];
        discriminate. }
  split; [ | reflexivity]. intros _. do 5 right.
  unfold known_tag. cbn [existsb].
  destruct (String.eqb_spec tag "string"); [contradiction | ].
  destruct (String.eqb_spec tag "number"); [contradiction | ].
  destruct (String.eqb_spec tag "negative number"); [contradiction | ].
  destruct (String.eqb_spec tag "positive number"); [contradiction | ].
  reflexivity.
Qed.

(** X1. What each tag accepts: a falsy value always passes; a truthy one
    passes ['string'] when it is a string, ['number'] when it is an int
    or float, ['negative number'] when it is a number not above zero,
    ['positive number'] when it is a number not below zero, and any
    other tag without a check. *)
Theorem check_param_accepts (comp : string) (name : list pyval) (p : pyval)
  (tag : string) :
  check_param comp name (p, tag) = inr tt
  <-> (truthy p = false
       \/ (tag = "string" /\ isinstance_str p = true)
       \/ (tag = "number" /\ numeric p = true)
       \/ (tag = "negative number" /\ exists x, num_val p = Some x /\ x <= 0)
       \/ (tag = "positive number" /\ exists x, num_val p = Some x /\ 0 <= x)
       \/ known_tag tag = false).
Proof. apply check_param_inr_iff. Qed.

Lemma validate_params_all_pass (d : list (pyval * string)) (comp : string)
  (name : list pyval) :
  validate_params d comp name = inr tt
  <-> forall e, In e d -> check_param comp name e = inr tt.
Proof.
  induction d as [ | e d IH ]; cbn [validate_params].
  - split; [intros _ e [] | reflexivity].
  - destruct (check_param comp name e) as [x | []] eqn:He.
    + split; [discriminate | ]. intros H.
      specialize (H e (or_introl eq_refl)). congruence.
    + rewrite IH. split.
      * intros H e' [<- | Hin]; [assumption | now apply H].
      * intros H e' Hin. apply H. now right.
Qed.

(** X2. The validation goes through the entries in the order of the
    dict and stops at the first one that fails: it raises the error [x]
    exactly when the dict splits into entries that pass, an entry whose
    check raises [x], and a rest that is not looked at. *)
Theorem validate_params_first_failure (d : list (pyval * string)) (comp : string)
  (name : list pyval) (x : exn) :
  validate_params d comp name = inl x
  <-> exists l1 e l2,
        d = l1 ++ e :: l2
        /\ (forall e', In e' l1 -> check_param comp name e' = inr tt)
        /\ check_param comp name e = inl x.
Proof.
  induction d as [ | e d IH ]; cbn [validate_params].
  - split; [discriminate | ]. intros (l1 & e & l2 & H & _). now destruct l1.
  - destruct (check_param comp name e) as [x' | []] eqn:He.
    + split.
      * intros H. injection H as <-. exists [], e, d. repeat split; auto.
        intros e' [].
      * intros (l1 & e0 & l2 & Hd & Hpass & Hx). destruct l1 as [ | e1 l1].
        -- injection Hd as <- _. congruence.
        -- injection Hd as <- _. specialize (Hpass e (or_introl eq_refl)). congruence.
    + rewrite IH. split.
      * intros (l1 & e0 & l2 & -> & Hpass & Hx). exists (e :: l1), e0, l2.
        repeat split; auto. intros e' [<- | Hin]; auto.
      * intros (l1 & e0 & l2 & Hd & Hpass & Hx). destruct l1 as [ | e1 l1].
        -- injection Hd as <- _. congruence.
        -- injection Hd as <- ->. exists l1, e0, l2. repeat split; auto.
           intros e' Hin. apply Hpass. now right.
Qed.

(** Equal values pass the same checks. *)
Lemma check_param_py_eq (comp : string) (name : list pyval) (k p : pyval) (tag : string) :
  py_eq k p = true ->
  check_param comp name (k, tag) = inr tt ->
  check_param comp name (p, tag) = inr tt.
Proof.
  intros Heq. rewrite !check_param_inr_iff.
  rewrite (py_eq_truthy _ _ Heq), (py_eq_isinstance_str _ _ Heq),
    (py_eq_numeric _ _ Heq).
  intros [H | [H | [H | [[Ht (x & Hx & Hle)] | [[Ht (x & Hx & Hle)] | H]]]]]; auto 6.
  - assert (Hn : numeric p = true)
      by (rewrite <- (py_eq_numeric _ _ Heq); unfold numeric; now rewrite Hx).
    destruct (py_eq_num k p Heq Hn) as (x' & y & Hk & Hp & Hxy).
    rewrite Hx in Hk. injection Hk as <-.
    do 3 right. left. split; [assumption | ]. exists y. split; [assumption | ].
    now rewrite <- Hxy.
  - assert (Hn : numeric p = true)
      by (rewrite <- (py_eq_numeric _ _ Heq); unfold numeric; now rewrite Hx).
    destruct (py_eq_num k p Heq Hn) as (x' & y & Hk & Hp & Hxy).
    rewrite Hx in Hk. injection Hk as <-.
    do 4 right. left. split; [assumption | ]. exists y. split; [assumption | ].
    now rewrite <- Hxy.
Qed.

Lemma last_tag_py_eq (items : list (pyval * string)) (k p : pyval) :
  py_eq k p = true -> last_tag items k = last_tag items p.
Proof.
  intros Heq. induction items as [ | [k0 t0] items IH ]; cbn [last_tag];
    [reflexivity | ].
  rewrite IH. destruct (last_tag items p); [reflexivity | ].
  destruct (py_eq k0 k) eqn:H1, (py_eq k0 p) eqn:H2; try reflexivity.
  - now rewrite (py_eq_trans _ _ _ H1 Heq) in H2.
  - now rewrite (py_eq_trans _ _ _ H2 (py_eq_sym _ _ Heq)) in H1.
Qed.

Lemma last_tag_member (items : list (pyval * string)) (p : pyval) (t0 : string) :
  In (p, t0) items -> exists t, last_tag items p = Some t.
Proof.
  induction items as [ | [k t] items IH ]; intros Hin; [destruct Hin | ].
  cbn [last_tag]. destruct Hin as [Hin | Hin].
  - injection Hin as -> ->. rewrite py_eq_refl.
    destruct (last_tag items p); eexists; reflexivity.
  - destruct (IH Hin) as [t1 ->]. now exists t1.
Qed.

(** Looking up [p] after an assignment to [k]. *)
Lemma dict_get_set_py {V : Type} (k p : pyval) (v : V) (d : list (pyval * V)) :
  dict_get py_eq p (dict_set py_eq k v d)
  = if py_eq k p then Some v else dict_get py_eq p d.
Proof.
  induction d as [ | [k' v'] d IH ]; cbn [dict_set dict_get].
  - reflexivity.
  - destruct (py_eq k' k) eqn:Hk; cbn [dict_get].
    + destruct (py_eq k' p) eqn:Hp.
      * now rewrite (py_eq_trans _ _ _ (py_eq_sym _ _ Hk) Hp).
      * destruct (py_eq k p) eqn:Hkp; [ | reflexivity].
        now rewrite (py_eq_trans _ _ _ Hk Hkp) in Hp.
    + rewrite IH. destruct (py_eq k' p) eqn:Hp; [ | reflexivity].
      destruct (py_eq k p) eqn:Hkp; [ | reflexivity].
      now rewrite (py_eq_trans _ _ _ Hp (py_eq_sym _ _ Hkp)) in Hk.
Qed.

Lemma dict_get_none_in {V : Type} (p k : pyval) (v : V) (d : list (pyval * V)) :
  dict_get py_eq p d = None -> In (k, v) d -> py_eq k p = false.
Proof.
  induction d as [ | [k' v'] d IH ]; cbn [dict_get]; intros Hn Hin; [destruct Hin | ].
  destruct (py_eq k' p) eqn:Hp; [discriminate | ].
  destruct Hin as [Hin | Hin]; [now injection Hin as <- _ | now apply IH].
Qed.

Lemma dict_set_uniq {V : Type} (k : pyval) (v : V) (d : list (pyval * V)) :
  uniq_keys d -> uniq_keys (dict_set py_eq k v d).
Proof.
  induction d as [ | [k' v'] d IH ]; cbn [dict_set uniq_keys].
  - auto.
  - intros [Hn Hu]. destruct (py_eq k' k) eqn:Hk; cbn [uniq_keys].
    + auto.
    + split; [ | now apply IH]. rewrite dict_get_set_py, Hn.
      destruct (py_eq k k') eqn:Hkk; [ | reflexivity].
      now rewrite (py_eq_sym _ _ Hkk) in Hk.
Qed.

Lemma dict_of_uniq {V : Type} (items : list (pyval * V)) :
  uniq_keys (dict_of py_eq items).
Proof.
  unfold dict_of.
  assert (H : forall d, uniq_keys d ->
                uniq_keys (fold_left (fun d kv => dict_set py_eq (fst kv) (snd kv) d)
                             items d)).
  { induction items as [ | [k v] items IH ]; intros d Hd; cbn [fold_left];
      [assumption | ]. apply IH. now apply dict_set_uniq. }
  apply H. exact I.
Qed.

Lemma uniq_keys_get {V : Type} (d : list (pyval * V)) (k : pyval) (v : V) :
  uniq_keys d -> In (k, v) d -> dict_get py_eq k d = Some v.
Proof.
  induction d as [ | [k' v'] d IH ]; cbn [uniq_keys dict_get]; intros Hu Hin;
    [destruct Hin | ].
  destruct Hu as [Hn Hu]. destruct Hin as [Hin | Hin].
  - injection Hin as -> ->. now rewrite py_eq_refl.
  - pose proof (dict_get_none_in _ _ _ _ Hn Hin) as Hne.
    destruct (py_eq k' k) eqn:Hk; [now rewrite (py_eq_sym _ _ Hk) in Hne | ].
    now apply IH.
Qed.

(** Looking a value up in a dict display gives the tag written last
    with an equal key. *)
Lemma dict_of_get_last (items : list (pyval * string)) (p : pyval) :
  dict_get py_eq p (dict_of py_eq items) = last_tag items p.
Proof.
  unfold dict_of.
  assert (H : forall d,
             dict_get py_eq p
               (fold_left (fun d kv => dict_set py_eq (fst kv) (snd kv) d) items d)
             = match last_tag items p with
               | Some t => Some t
               | None => dict_get py_eq p d
               end).
  { induction items as [ | [k t] items IH ]; intros d; cbn [fold_left last_tag fst snd].
    - reflexivity.
    - rewrite IH. destruct (last_tag items p); [reflexivity | ].
      rewrite dict_get_set_py. now destruct (py_eq k p). }
  rewrite H. now destruct (last_tag items p).
Qed.

Lemma validate_dict_of_iff (items : list (pyval * string)) (comp : string)
  (name : list pyval) :
  validate_params (dict_of py_eq items) comp name = inr tt
  <-> forall p t0 t, In (p, t0) items -> last_tag items p = Some t ->
                     check_param comp name (p, t) = inr tt.
Proof.
  rewrite validate_params_all_pass. split.
  - intros H p t0 t Hin Hlast.
    destruct (dict_of_has py_eq py_eq_refl _ _ _ Hin) as (k & t' & Hk & Heq).
    pose proof (uniq_keys_get _ _ _ (dict_of_uniq items) Hk) as Hget.
    rewrite dict_of_get_last, (last_tag_py_eq _ _ _ Heq), Hlast in Hget.
    injection Hget as ->.
    apply (check_param_py_eq comp name k p t' Heq). now apply H.
  - intros H [k t] Hk.
    destruct (dict_of_in py_eq py_eq_refl _ _ _ Hk) as (p & Hp & Heq).
    pose proof (uniq_keys_get _ _ _ (dict_of_uniq items) Hk) as Hget.
    rewrite dict_of_get_last, (last_tag_py_eq _ _ _ Heq) in Hget.
    apply (check_param_py_eq comp name p k t (py_eq_sym _ _ Heq)).
    now apply (H p t t).
Qed.

(** X3. The dict that the creation methods validate is keyed by the
    values passed, so parameters with equal values ([1], [1.0] and
    [True] are equal) share one entry, which keeps the tag written last.
    The validation of such a dict passes exactly when every value passes
    the check of the last tag written for it; the tags written earlier
    for an equal value are not checked. *)
Theorem validate_params_last_tag (items : list (pyval * string)) (comp : string)
  (name : list pyval) :
  validate_params (dict_of py_eq items) comp name = inr tt
  <-> forall p t0 t, In (p, t0) items -> last_tag items p = Some t ->
                     check_param comp name (p, t) = inr tt.
Proof. apply validate_dict_of_iff. Qed.

(** ** Electrical ports *)

Lemma elec_port_succeeds (E : Collaborators) (n k : string)
  (min_pressure min_flow_rate x y voltage current fluid_name : pyval)
  (fluid : Fluid) (s : Schematic E) :
  validate_params
    (dict_of py_eq (elec_port_params (PStr n) min_pressure min_flow_rate x y
                      voltage current (PStr k) fluid_name))
    "electrical port" [PStr n] = inr tt ->
  has_node (dg s) (PStr n) = false ->
  no_strategy E s (lower k) = false ->
  Fluid_init (constants E) fluid_name = inr fluid ->
  elec_port E (PStr n) (PStr k) min_pressure min_flow_rate x y voltage current
    fluid_name s
  = (inr tt,
     with_dg E s
       (dg s ++ [(PStr n, {| attrs := stored_elec_port n (lower k) fluid min_pressure
                                        min_flow_rate x y voltage current;
                             succ := [] |})])).
Proof.
  intros Hval Hnode Hstrat Hfl.
  unfold elec_port. run_monad. rewrite Hval, Hnode. cbn [py_lower].
  rewrite Hstrat, Hfl. cbn [py_add_str].
  match goal with |- context [for_each ?items ?f ?s0] =>
    rewrite (for_each_setitem_node E (PStr n) items s0 empty_node) end.
  - simpl dg. rewrite add_node_new by assumption.
    rewrite (dict_set_app_last py_eq py_eq_refl) by now apply has_node_false.
    reflexivity.
  - simpl dg. rewrite add_node_new by assumption.
    apply dict_get_app_new; [apply py_eq_refl | now apply has_node_false].
Qed.

Lemma elec_port_cases (E : Collaborators)
  (name kind min_pressure min_flow_rate x y voltage current fluid_name : pyval)
  (s : Schematic E) :
  (exists e, elec_port E name kind min_pressure min_flow_rate x y voltage current
               fluid_name s = (inl e, s))
  \/
  (exists n k fluid,
      name = PStr n /\ kind = PStr k
      /\ has_node (dg s) name = false
      /\ In ("translate_" ++ lower k)%string (translation_strats s)
      /\ Fluid_init (constants E) fluid_name = inr fluid
      /\ elec_port E name kind min_pressure min_flow_rate x y voltage current
           fluid_name s
         = (inr tt,
            with_dg E s
              (dg s ++ [(name, {| attrs := stored_elec_port n (lower k) fluid
                                              min_pressure min_flow_rate x y
                                              voltage current;
                                  succ := [] |})]))).
Proof.
  destruct (validate_params
              (dict_of py_eq (elec_port_params name min_pressure min_flow_rate x y
                                voltage current kind fluid_name))
              "electrical port" [name]) as [e | []] eqn:Hval;
    [left; exists e; unfold elec_port; run_monad; now rewrite Hval | ].
  destruct (has_node (dg s) name) eqn:Hnode;
    [left; unfold elec_port; run_monad; rewrite Hval, Hnode; eexists; reflexivity | ].
  destruct kind as [ | b | z | q | k ];
    try (left; unfold elec_port; run_monad; rewrite Hval, Hnode;
         eexists; reflexivity).
  destruct (no_strategy E s (lower k)) eqn:Hstrat;
    [left; unfold elec_port; run_monad; rewrite Hval, Hnode; cbn [py_lower];
     rewrite Hstrat; eexists; reflexivity | ].
  destruct (Fluid_init (constants E) fluid_name) as [e | fluid] eqn:Hfl;
    [left; unfold elec_port; run_monad; rewrite Hval, Hnode; cbn [py_lower];
     rewrite Hstrat, Hfl; now exists e | ].
  destruct name as [ | b | z | q | n ];
    try (left; unfold elec_port; run_monad; rewrite Hval, Hnode; cbn [py_lower];
         rewrite Hstrat, Hfl; eexists; reflexivity).
  right. exists n, k, fluid. repeat (split; [reflexivity || assumption | ]).
  split; [now apply no_strategy_false | ]. split; [reflexivity | ].
  now apply elec_port_succeeds.
Qed.

(** X4. [elec_port] either raises and leaves the schematic as it was, or
    appends one node without successors to the node order and changes
    nothing else. Then the name and the kind are strings, the name was
    not a node, the kind has a translation rule, and the node carries
    the fifteen attributes of [stored_elec_port]: the values passed, the
    density and viscosity of the fluid, and six variables, those of [x]
    and [y] named [<name>_X] and [<name>_Y]. *)
Theorem elec_port_outcome (E : Collaborators)
  (name kind min_pressure min_flow_rate x y voltage current fluid_name : pyval)
  (s : Schematic E) :
  (exists e, elec_port E name kind min_pressure min_flow_rate x y voltage current
               fluid_name s = (inl e, s))
  \/
  (exists n k fluid,
      name = PStr n /\ kind = PStr k
      /\ has_node (dg s) name = false
      /\ In ("translate_" ++ lower k)%string (translation_strats s)
      /\ Fluid_init (constants E) fluid_name = inr fluid
      /\ elec_port E name kind min_pressure min_flow_rate x y voltage current
           fluid_name s
         = (inr tt,
            with_dg E s
              (dg s ++ [(name, {| attrs := stored_elec_port n (lower k) fluid
                                              min_pressure min_flow_rate x y
                                              voltage current;
                                  succ := [] |})]))).
Proof. apply elec_port_cases. Qed.

Lemma py_eq_str_numeric (s : string) (v : pyval) :
  numeric v = true -> py_eq (PStr s) v = false /\ py_eq v (PStr s) = false.
Proof. destruct v; try discriminate; auto. Qed.

Lemma py_eq_false_negative (v : pyval) :
  negative v = true ->
  py_eq (PBool false) v = false /\ py_eq v (PBool false) = false.
Proof.
  intros H. pose proof (negative_truthy _ H) as Ht.
  destruct (py_eq (PBool false) v) eqn:H1.
  - apply py_eq_truthy in H1. simpl in H1. congruence.
  - split; [reflexivity | ].
    destruct (py_eq v (PBool false)) eqn:H2; [ | reflexivity].
    apply py_eq_sym in H2. congruence.
Qed.

(** X5. [elec_port] tags the voltage ['number'], which has no sign
    check, and writes it into the validated dict after [x]. A negative
    number passed for both [x] and the voltage is therefore validated
    once, as a voltage: the call succeeds and stores the negative
    coordinate as [min_x]. *)
Theorem elec_port_negative_x_with_equal_voltage (E : Collaborators)
  (n k fl : string) (v : pyval) (fluid : Fluid) (s : Schematic E) :
  negative v = true ->
  has_node (dg s) (PStr n) = false ->
  In ("translate_" ++ lower k)%string (translation_strats s) ->
  Fluid_init (constants E) (PStr fl) = inr fluid ->
  exists s' d,
    elec_port E (PStr n) (PStr k) (PBool false) (PBool false) v (PBool false)
      v (PBool false) (PStr fl) s = (inr tt, s')
    /\ node_attrs (dg s') (PStr n) = Some d
    /\ getitem d "min_x" = inr (Lit v)
    /\ getitem d "voltage" = inr (Lit v).
Proof.
  intros Hneg Hnode Hrule Hfl.
  pose proof (negative_numeric _ Hneg) as Hnum.
  assert (Hval : validate_params
            (dict_of py_eq (elec_port_params (PStr n) (PBool false) (PBool false) v
                              (PBool false) v (PBool false) (PStr k) (PStr fl)))
            "electrical port" [PStr n] = inr tt).
  { apply validate_dict_of_iff. intros p t0 t Hin Hlast.
    unfold elec_port_params in Hin, Hlast. cbn [In] in Hin.
    destruct (py_eq_false_negative v Hneg) as [Hfv Hvf].
    assert (Hstr : forall q, py_eq (PStr q) v = false)
      by (intros q; now apply py_eq_str_numeric).
    assert (Hstr' : forall q, py_eq v (PStr q) = false)
      by (intros q; now apply py_eq_str_numeric).
    repeat (destruct Hin as [Hin | Hin];
            [injection Hin as <- _ | ]); try destruct Hin;
      try (now apply check_param_falsy).
    - cbn [last_tag] in Hlast. rewrite ?Hstr', ?py_eq_refl in Hlast.
      destruct (py_eq (PStr fl) (PStr n)), (py_eq (PStr k) (PStr n));
        simpl in Hlast; injection Hlast as <-; now apply check_param_string.
    - cbn [last_tag] in Hlast. rewrite !Hstr, Hfv, py_eq_refl in Hlast.
      injection Hlast as <-. rewrite check_param_inr_iff. auto.
    - cbn [last_tag] in Hlast. rewrite !Hstr, Hfv, py_eq_refl in Hlast.
      injection Hlast as <-. rewrite check_param_inr_iff. auto.
    - cbn [last_tag] in Hlast. rewrite ?py_eq_refl in Hlast.
      destruct (py_eq (PStr fl) (PStr k));
        simpl in Hlast; injection Hlast as <-; now apply check_param_string.
    - cbn [last_tag] in Hlast. rewrite ?py_eq_refl in Hlast.
      injection Hlast as <-. now apply check_param_string. }
  apply no_strategy_false in Hrule.
  eexists. eexists. split; [now apply (elec_port_succeeds E n k _ _ _ _ _ _ _ fluid) | ].
  simpl dg. split; [now apply node_attrs_appended | ]. split; reflexivity.
Qed.

(** ** What a successful creation leaves alone *)

Lemma dict_get_app {V : Type} (k : pyval) (d1 d2 : list (pyval * V)) :
  dict_get py_eq k (d1 ++ d2)
  = match dict_get py_eq k d1 with
    | Some v => Some v
    | None => dict_get py_eq k d2
    end.
Proof.
  induction d1 as [ | [k' v'] d1 IH ]; simpl; [reflexivity | ].
  now destruct (py_eq k' k).
Qed.

Lemma edges_app (G1 G2 : DiGraph) : edges (G1 ++ G2) = edges G1 ++ edges G2.
Proof. unfold edges. apply flat_map_app. Qed.

Lemma add_node_get_other (G : DiGraph) (n m : string) :
  n <> m -> dict_get py_eq (PStr m) (add_node G (PStr n)) = dict_get py_eq (PStr m) G.
Proof.
  intros Hnm. unfold add_node. destruct (has_node G (PStr n)); [reflexivity | ].
  rewrite dict_get_app. destruct (dict_get py_eq (PStr m) G); [reflexivity | ].
  simpl. destruct (String.eqb_spec n m); [contradiction | reflexivity].
Qed.

(** A lookup in the graph with both ends of a channel added. *)
Lemma add_ends_get (G : DiGraph) (f t m : string) :
  dict_get py_eq (PStr m) (add_node (add_node G (PStr f)) (PStr t))
  = match dict_get py_eq (PStr m) G with
    | Some nd => Some nd
    | None => if (f =? m) || (t =? m) then Some empty_node else None
    end.
Proof.
  destruct (String.eqb_spec t m) as [-> | Htm].
  - rewrite add_node_get. rewrite orb_true_r.
    destruct (String.eqb_spec f m) as [-> | Hfm].
    + rewrite add_node_get. now destruct (dict_get py_eq (PStr m) G).
    + rewrite add_node_get_other by assumption.
      now destruct (dict_get py_eq (PStr m) G).
  - rewrite add_node_get_other by assumption. rewrite orb_false_r.
    destruct (String.eqb_spec f m) as [-> | Hfm].
    + rewrite add_node_get. now destruct (dict_get py_eq (PStr m) G).
    + rewrite add_node_get_other by assumption.
      now destruct (dict_get py_eq (PStr m) G).
Qed.

(** The node dict of [m] after [with_channel]: as before for a node that
    was there, empty for an end that was missing. *)
Lemma with_channel_node_attrs (G : DiGraph) (f t m : string) (d : pydict) :
  node_attrs (with_channel G (PStr f) (PStr t) d) (PStr m)
  = match node_attrs G (PStr m) with
    | Some a => Some a
    | None => if (f =? m) || (t =? m) then Some [] else None
    end.
Proof.
  unfold with_channel, node_attrs.
  destruct (String.eqb_spec f m) as [-> | Hfm].
  - rewrite (dict_get_set_eq py_eq py_eq_refl). cbn [option_map attrs orb].
    now destruct (dict_get py_eq (PStr m) G).
  - rewrite dict_get_set_other by assumption. rewrite add_ends_get.
    destruct (dict_get py_eq (PStr m) G); [reflexivity | ].
    destruct (String.eqb_spec f m); [contradiction | ]. cbn [orb].
    now destruct (t =? m).
Qed.

(** The data dict of the edge [(u, v)] after [with_channel] on a pair
    without an edge: the new dict for the new edge, as before for every
    other pair. *)
Lemma with_channel_edge_attrs (G : DiGraph) (f t u v : string) (d : pydict) :
  has_edge G (PStr f) (PStr t) = false ->
  edge_attrs (with_channel G (PStr f) (PStr t) d) (PStr u) (PStr v)
  = if (f =? u) && (t =? v) then Some d else edge_attrs G (PStr u) (PStr v).
Proof.
  intros Hedge. destruct (add_edge_fresh G (PStr f) (PStr t) Hedge) as (_ & Hv & _).
  unfold with_channel, edge_attrs.
  destruct (String.eqb_spec f u) as [-> | Hfu]; cbn [andb].
  - rewrite (dict_get_set_eq py_eq py_eq_refl). cbn [succ].
    rewrite dict_get_app.
    destruct (String.eqb_spec t v) as [-> | Htv].
    + rewrite Hv. simpl. now rewrite String.eqb_refl.
    + destruct (dict_get py_eq (PStr u) G) as [nd | ]; simpl;
        destruct (String.eqb_spec t v); try contradiction;
        [now destruct (dict_get py_eq (PStr v) (succ nd)) | reflexivity].
  - rewrite dict_get_set_other by assumption. rewrite add_ends_get.
    destruct (dict_get py_eq (PStr u) G); [reflexivity | ].
    destruct (String.eqb_spec f u); [contradiction | ]. cbn [orb].
    now destruct (t =? u).
Qed.

(** X6. A successful [port] or [node] call appends one node without
    successors at the end of the node order and changes nothing else:
    the nodes there were, their attributes and their order, the edges,
    the constraints and the chip dimensions are as before. *)
Theorem port_node_appends (E : Collaborators) (c : creation) (s s' : Schematic E) :
  (forall f t l w h r k ph m, c <> Channel f t l w h r k ph m) ->
  run E c s = (inr tt, s') ->
  exists n d,
    name_of c = [PStr n]
    /\ has_node (dg s) (PStr n) = false
    /\ dg s' = dg s ++ [(PStr n, {| attrs := d; succ := [] |})]
    /\ edges (dg s') = edges (dg s)
    /\ exprs s' = exprs s /\ dim s' = dim s
    /\ translation_strats s' = translation_strats s.
Proof.
  intros Hc H.
  destruct c as [f t l w h r k ph m | n k mp mf x y fl | n x y k c p qf];
    cbn [run name_of] in *.
  - now destruct (Hc f t l w h r k ph m).
  - destruct (port_outcome E n k mp mf x y fl s)
      as [[e He] | (n' & k' & fluid & -> & -> & _ & Hnode & _ & _ & He)];
      rewrite He in H; inversion H.
    exists n'. eexists. split; [reflexivity | ]. split; [assumption | ].
    split; [reflexivity | ]. simpl dg. rewrite edges_app.
    split; [apply app_nil_r | ]. repeat split.
  - destruct (node_outcome E n x y k c p qf s)
      as [[e He] | (n' & k' & -> & -> & _ & Hnode & _ & He)];
      rewrite He in H; inversion H.
    exists n'. eexists. split; [reflexivity | ]. split; [assumption | ].
    split; [reflexivity | ]. simpl dg. rewrite edges_app.
    split; [apply app_nil_r | ]. repeat split.
Qed.

(** X7. A successful [channel] call stores the data dict of the new edge
    and leaves everything else as it was: every node that was there
    keeps its attribute dict, an end that was missing appears with an
    empty one, every other ordered pair (the reverse pair included) has
    the edge data it had, and the constraints and chip dimensions are
    untouched. *)
Theorem channel_adds_one_edge (E : Collaborators)
  (port_from port_to min_length min_width min_height min_resolution
   kind phase min_sampling_rate : pyval) (s s' : Schematic E) :
  channel E port_from port_to min_length min_width min_height min_resolution
    kind phase min_sampling_rate s = (inr tt, s') ->
  exists f t d,
    port_from = PStr f /\ port_to = PStr t
    /\ has_edge (dg s) port_from port_to = false
    /\ (forall m, node_attrs (dg s') (PStr m)
                  = match node_attrs (dg s) (PStr m) with
                    | Some a => Some a
                    | None => if (f =? m) || (t =? m) then Some [] else None
                    end)
    /\ (forall u v, edge_attrs (dg s') (PStr u) (PStr v)
                    = if (f =? u) && (t =? v) then Some d
                      else edge_attrs (dg s) (PStr u) (PStr v))
    /\ exprs s' = exprs s /\ dim s' = dim s
    /\ translation_strats s' = translation_strats s.
Proof.
  intros H.
  destruct (channel_outcome E port_from port_to min_length min_width min_height
              min_resolution kind phase min_sampling_rate s)
    as [[e He] | (f & t & k & ph & -> & -> & -> & -> & _ & _ & Hedge & _ & He)];
    rewrite He in H; inversion H.
  exists f, t. eexists. split; [reflexivity | ]. split; [reflexivity | ].
  split; [assumption | ]. simpl dg.
  split; [intros m; apply with_channel_node_attrs | ].
  split; [intros u v; now apply with_channel_edge_attrs | ].
  repeat split.
Qed.

(** ** Calls after a channel *)

Lemma edge_attrs_has_edge (G : DiGraph) (u v : pyval) (d : pydict) :
  edge_attrs G u v = Some d -> has_edge G u v = true.
Proof.
  unfold edge_attrs, has_edge, dict_has.
  destruct (dict_get py_eq u G) as [nd | ]; [ | discriminate].
  now intros ->.
Qed.

Lemma node_attrs_has_node (G : DiGraph) (n : pyval) (d : pydict) :
  node_attrs G n = Some d -> has_node G n = true.
Proof.
  unfold node_attrs, has_node, dict_has.
  now destruct (dict_get py_eq n G).
Qed.

(** X8. After a successful [channel(f, t)] the pair and both names are
    taken: every further [channel] call on the same ordered pair raises,
    and so does every [port], [node] or [elec_port] call named [f] or
    [t], also when the channel itself brought the name into the graph;
    each of these calls leaves the schematic as it is. *)
Theorem channel_takes_pair_and_names (E : Collaborators)
  (port_from port_to min_length min_width min_height min_resolution
   kind phase min_sampling_rate : pyval) (s s' : Schematic E) :
  channel E port_from port_to min_length min_width min_height min_resolution
    kind phase min_sampling_rate s = (inr tt, s') ->
  (forall l w h r k ph m,
      exists e, channel E port_from port_to l w h r k ph m s' = (inl e, s'))
  /\ (forall name, name = port_from \/ name = port_to ->
        (forall k mp mf x y fl, exists e, port E name k mp mf x y fl s' = (inl e, s'))
        /\ (forall x y k c p qf, exists e, node E name x y k c p qf s' = (inl e, s'))
        /\ (forall k mp mf x y v cur fl,
              exists e, elec_port E name k mp mf x y v cur fl s' = (inl e, s'))).
Proof.
  intros H.
  destruct (channel_outcome E port_from port_to min_length min_width min_height
              min_resolution kind phase min_sampling_rate s)
    as [[e He] | (f & t & k0 & ph0 & -> & -> & -> & -> & _ & _ & Hedge & _ & He)];
    rewrite He in H; inversion H as [Hs']. clear H.
  set (G' := with_channel (dg s) (PStr f) (PStr t)
               (stored_channel f t (canonical k0) (lower ph0) min_length min_width
                  min_height min_resolution min_sampling_rate)) in *.
  assert (He' : has_edge G' (PStr f) (PStr t) = true).
  { eapply edge_attrs_has_edge. unfold G'.
    rewrite (with_channel_edge_attrs _ _ _ _ _ _ Hedge).
    now rewrite !String.eqb_refl. }
  assert (Hn : forall name, name = PStr f \/ name = PStr t -> has_node G' name = true).
  { intros name [-> | ->]; unfold G'.
    - destruct (node_attrs (dg s) (PStr f)) as [a | ] eqn:Ha.
      + eapply node_attrs_has_node. rewrite with_channel_node_attrs, Ha. reflexivity.
      + eapply node_attrs_has_node. rewrite with_channel_node_attrs, Ha.
        now rewrite String.eqb_refl.
    - destruct (node_attrs (dg s) (PStr t)) as [a | ] eqn:Ha.
      + eapply node_attrs_has_node. rewrite with_channel_node_attrs, Ha. reflexivity.
      + eapply node_attrs_has_node. rewrite with_channel_node_attrs, Ha.
        now rewrite String.eqb_refl, orb_true_r. }
  split.
  - intros l w h r k ph m.
    destruct (channel_outcome E (PStr f) (PStr t) l w h r k ph m (with_dg E s G'))
      as [He2 | (? & ? & ? & ? & _ & _ & _ & _ & _ & _ & Hno & _)];
      [exact He2 | ].
    simpl dg in Hno. congruence.
  - intros name Hname. specialize (Hn name Hname). split; [ | split].
    + intros k mp mf x y fl.
      destruct (port_outcome E name k mp mf x y fl (with_dg E s G'))
        as [He2 | (? & ? & ? & _ & _ & _ & Hno & _)]; [exact He2 | ].
      simpl dg in Hno. congruence.
    + intros x y k c p qf.
      destruct (node_outcome E name x y k c p qf (with_dg E s G'))
        as [He2 | (? & ? & _ & _ & _ & Hno & _)]; [exact He2 | ].
      simpl dg in Hno. congruence.
    + intros k mp mf x y v cur fl.
      destruct (elec_port_cases E name k mp mf x y v cur fl (with_dg E s G'))
        as [He2 | (? & ? & ? & _ & _ & Hno & _)]; [exact He2 | ].
      simpl dg in Hno. congruence.
Qed.

(** X9. [node] stores a coordinate only when it is truthy: a zero (like
    [False], [None] or an empty string) given for [x] or [y] is stored
    as [None]. [port] stores the coordinates as they were passed, a zero
    as zero. *)
Theorem zero_coordinate_node_and_port (E : Collaborators) (s s' : Schematic E) :
  (forall name x y kind c p qf,
      node E name x y kind c p qf s = (inr tt, s') ->
      exists d, node_attrs (dg s') name = Some d
        /\ getitem d "min_x" = inr (Lit (if truthy x then x else PNone))
        /\ getitem d "min_y" = inr (Lit (if truthy y then y else PNone)))
  /\ (forall name kind min_pressure min_flow_rate x y fluid_name,
        port E name kind min_pressure min_flow_rate x y fluid_name s = (inr tt, s') ->
        exists d, node_attrs (dg s') name = Some d
          /\ getitem d "min_x" = inr (Lit x)
          /\ getitem d "min_y" = inr (Lit y)).
Proof.
  split.
  - intros n x y k c p qf H.
    destruct (run_stores E (Node n x y k c p qf) s s' H) as (n' & k' & _ & _ & _ & Hd).
    eexists. split; [exact Hd | split; reflexivity].
  - intros n k mp mf x y fl H.
    destruct (run_stores E (Port n k mp mf x y fl) s s' H)
      as (n' & k' & fluid & _ & _ & _ & Hd).
    eexists. split; [exact Hd | split; reflexivity].
Qed.

(** ** The translation driver *)

Lemma scan_for_output_kinded (items : DiGraph) :
  forall b, all_kinded items ->
  scan_for_output items b = inr (b || existsb (has_kind "output") items).
Proof.
  induction items as [ | [x y] items IH ]; intros b Hk; cbn [scan_for_output existsb].
  - now rewrite orb_false_r.
  - destruct (Hk (x, y) (or_introl eq_refl)) as [a Ha]. cbn [snd] in Ha.
    unfold has_kind at 1. cbn [snd]. rewrite Ha.
    rewrite IH by (intros item Hin; apply Hk; now right).
    destruct (attr_eq_str a "output"), b; reflexivity.
Qed.

(** The first loop on a graph where every node has a kind, some node is
    an output and [translate_input] returns [fi n] for every input [n]. *)
Lemma translate_inputs_emits (E : Collaborators) (G : DiGraph)
  (fi : pyval -> list (expr E)) (items : DiGraph) :
  scan_for_output G false = inr true ->
  all_kinded items ->
  (forall item, In item items -> has_kind "input" item = true ->
                translate_input E G (fst item) = inr (fi (fst item))) ->
  forall (b : bool) (s : Schematic E), dg s = G ->
  translate_inputs E items b s
  = (inr (b || existsb (has_kind "input") items),
     with_exprs E s (exprs s ++ flat_map (fun item => fi (fst item))
                                   (filter (has_kind "input") items))).
Proof.
  intros Hscan. induction items as [ | [name data] items IH ]; intros Hk Hin b s Hdg.
  - cbn [translate_inputs existsb filter flat_map]. unfold ret.
    now rewrite orb_false_r, with_exprs_nil.
  - cbn [translate_inputs]. run_monad.
    destruct (Hk (name, data) (or_introl eq_refl)) as [a Ha]. cbn [snd] in Ha.
    rewrite Ha. cbn [existsb filter].
    assert (Hhk : has_kind "input" (name, data) = attr_eq_str a "input")
      by (unfold has_kind; cbn [snd]; now rewrite Ha).
    rewrite Hhk.
    assert (Hk' : all_kinded items) by (intros item Hi; apply Hk; now right).
    assert (Hin' : forall item, In item items -> has_kind "input" item = true ->
                     translate_input E G (fst item) = inr (fi (fst item)))
      by (intros item Hi; apply Hin; now right).
    destruct (attr_eq_str a "input") eqn:Hinput.
    + rewrite Hdg, Hscan.
      assert (Hcall : translate_input E G name = inr (fi name))
        by (apply (Hin (name, data) (or_introl eq_refl)); now rewrite Hhk).
      rewrite Hcall. unfold append_exprs. run_monad.
      rewrite (IH Hk' Hin' true) by exact Hdg.
      cbn [flat_map fst orb]. rewrite with_exprs_app.
      now rewrite orb_true_r.
    + rewrite (IH Hk' Hin' b s Hdg). reflexivity.
Qed.

Lemma chip_loop_emits (E : Collaborators) (G : DiGraph) (dim0 : list Q)
  (fc : pyval -> list (expr E)) (items : DiGraph) :
  (forall item, In item items ->
                translate_chip E G (fst item) dim0 = inr (fc (fst item))) ->
  forall s : Schematic E, dg s = G -> dim s = dim0 ->
  for_each items (chip_body E) s
  = (inr tt, with_exprs E s (exprs s ++ flat_map (fun item => fc (fst item)) items)).
Proof.
  induction items as [ | item items IH ]; intros Hc s Hdg Hdim.
  - cbn [for_each flat_map]. unfold ret. now rewrite with_exprs_nil.
  - cbn [for_each]. unfold chip_body at 1. run_monad.
    rewrite Hdg, Hdim, (Hc item (or_introl eq_refl)).
    unfold append_exprs. run_monad.
    rewrite IH; [ | intros it Hi; apply Hc; now right | exact Hdg | exact Hdim].
    cbn [flat_map]. now rewrite with_exprs_app.
Qed.

(** X10. A schematic without a node of kind ['input'] (every node having
    a kind; the empty schematic is a case) cannot be solved: the
    translation and [solve] raise ['Schematic has no input'], no rule of
    the module [translate] is called and nothing is emitted. *)
Theorem no_input_raises (E : Collaborators) (show : bool) (s : Schematic E) :
  all_kinded (dg s) ->
  existsb (has_kind "input") (dg s) = false ->
  translate_schematic E s = (inl (ValueError schematic_has_no_input), s)
  /\ solve E show s = (inl (ValueError schematic_has_no_input), s).
Proof.
  intros Hk Hno.
  assert (Ht : translate_schematic E s = (inl (ValueError schematic_has_no_input), s)).
  { apply translate_schematic_no_input. intros n nd Hin.
    destruct (Hk (n, nd) Hin) as [a Ha]. exists a. split; [exact Ha | ].
    destruct (attr_eq_str a "input") eqn:Hi; [ | reflexivity].
    assert (Hex : existsb (has_kind "input") (dg s) = true).
    { apply existsb_exists. exists (n, nd). split; [assumption | ].
      unfold has_kind. cbn [snd] in *. now rewrite Ha. }
    congruence. }
  split; [exact Ht | ]. unfold solve, bind. now rewrite Ht.
Qed.

(** X11. A node without a ['kind'] anywhere in the graph (a bare end of
    a channel, for one) makes the translation, [solve] and [to_json]
    raise [KeyError('kind')]: before any rule is called, with nothing
    emitted and no file written. *)
Theorem missing_kind_raises_KeyError (E : Collaborators) (show : bool)
  (s : Schematic E) (n : pyval) (nd : node_data) :
  In (n, nd) (dg s) -> bare nd ->
  translate_schematic E s = (inl (KeyError "kind"), s)
  /\ solve E show s = (inl (KeyError "kind"), s)
  /\ forall path fs, to_json E path (s, fs) = (inl (KeyError "kind"), (s, fs)).
Proof.
  intros Hin Hb.
  assert (Ht : translate_schematic E s = (inl (KeyError "kind"), s))
    by (apply translate_schematic_bare; now exists n, nd).
  assert (Hs : forall sh, solve E sh s = (inl (KeyError "kind"), s))
    by (intros sh; unfold solve, bind; now rewrite Ht).
  split; [exact Ht | ]. split; [apply Hs | ].
  intros path fs. unfold to_json. now rewrite Hs.
Qed.

(** X12. With input ports but no node of kind ['output'] at all, the
    translation raises ['Schematic input <n> has no output'] for the
    first input [n] in the node order; nothing is emitted. *)
Theorem input_without_output_raises (E : Collaborators) (s : Schematic E)
  (before after : DiGraph) (n : pyval) (nd : node_data) :
  dg s = before ++ (n, nd) :: after ->
  all_kinded (dg s) ->
  existsb (has_kind "output") (dg s) = false ->
  existsb (has_kind "input") before = false ->
  has_kind "input" (n, nd) = true ->
  translate_schematic E s
  = (inl (ValueError (schematic_input_has_no_output n)), s).
Proof.
  intros Hdg Hk Hout Hbefore Hin.
  assert (Hscan : scan_for_output (dg s) false = inr false)
    by (rewrite (scan_for_output_kinded _ false Hk); now rewrite Hout).
  unfold translate_schematic.
  unfold bind at 1. unfold get at 1. unfold bind at 1.
  assert (Hloop : forall items b,
             (forall item, In item items -> In item (dg s)) ->
             existsb (has_kind "input") items = false ->
             translate_inputs E (items ++ (n, nd) :: after) b s
             = (inl (ValueError (schematic_input_has_no_output n)), s)).
  { induction items as [ | [x y] items IH ]; intros b Hsub Hnone.
    - cbn [app translate_inputs]. run_monad.
      unfold has_kind in Hin. cbn [snd] in Hin.
      destruct (getitem (attrs nd) "kind") as [e | a]; [discriminate | ].
      rewrite Hin. now rewrite Hscan.
    - cbn [app translate_inputs]. run_monad.
      destruct (Hk (x, y) (Hsub _ (or_introl eq_refl))) as [a Ha]. cbn [snd] in Ha.
      rewrite Ha. cbn [existsb] in Hnone. apply orb_false_iff in Hnone.
      destruct Hnone as [Hx Hrest]. unfold has_kind in Hx. cbn [snd] in Hx.
      rewrite Ha in Hx. rewrite Hx. apply IH; [ | assumption].
      intros item Hi. apply Hsub. now right. }
  rewrite Hdg at 1. rewrite (Hloop before false); [reflexivity | | assumption].
  intros item Hi. rewrite Hdg. apply in_or_app. now left.
Qed.

(** X13. The order of the constraints. On a graph where every node has
    a kind, with at least one input and one output, when the rules of
    [translate] return, the translation appends to [self.exprs] first
    what [translate_input] returns for every input port, in the order of
    the nodes, and then what [translate_chip] returns for every node, in
    that order; the rules, taken as functions of their arguments, see
    the graph as it was built. *)
Theorem translation_order (E : Collaborators) (s : Schematic E)
  (fi fc : pyval -> list (expr E)) :
  all_kinded (dg s) ->
  existsb (has_kind "input") (dg s) = true ->
  existsb (has_kind "output") (dg s) = true ->
  (forall item, In item (dg s) -> has_kind "input" item = true ->
                translate_input E (dg s) (fst item) = inr (fi (fst item))) ->
  (forall item, In item (dg s) ->
                translate_chip E (dg s) (fst item) (dim s) = inr (fc (fst item))) ->
  translate_schematic E s
  = (inr tt,
     with_exprs E s
       (exprs s
        ++ flat_map (fun item => fi (fst item)) (filter (has_kind "input") (dg s))
        ++ flat_map (fun item => fc (fst item)) (dg s))).
Proof.
  intros Hk Hin Hout Hfi Hfc.
  assert (Hscan : scan_for_output (dg s) false = inr true)
    by (rewrite (scan_for_output_kinded _ false Hk); now rewrite Hout).
  unfold translate_schematic.
  unfold bind at 1. unfold get at 1. unfold bind at 1.
  rewrite (translate_inputs_emits E (dg s) fi (dg s) Hscan Hk Hfi false s eq_refl).
  rewrite Hin. cbn [orb negb].
  unfold bind at 1. unfold get at 1. cbn [dg with_exprs].
  rewrite (chip_loop_emits E (dg s) (dim s) fc (dg s) Hfc) by reflexivity.
  now rewrite with_exprs_app.
Qed.

(** X14. [solve] and [to_json] never change the graph, the chip
    dimensions or the rule set, whether they return or raise: they only
    append to [self.exprs]. The constraints of an earlier run, or of a
    run that failed halfway, stay in the list. *)
Theorem solve_only_appends (E : Collaborators) (show : bool) (s s' : Schematic E)
  (r : result output) :
  solve E show s = (r, s') ->
  dg s' = dg s /\ dim s' = dim s
  /\ translation_strats s' = translation_strats s
  /\ (exists T, exprs s' = exprs s ++ T)
  /\ forall path fs, exists r' fs',
       to_json E path (s, fs) = (r', (s', fs'))
       /\ (forall e, r' = inl e -> fs' = fs).
Proof.
  unfold solve, bind. intros H.
  destruct (translate_schematic E s) as [[e | []] s1] eqn:Ht;
    destruct (translate_schematic_frame E _ _ _ Ht) as (T & -> & _).
  - injection H as <- <-.
    repeat split; try (now exists T).
    intros path fs. exists (inl e), fs. unfold to_json, solve, bind. rewrite Ht.
    split; [reflexivity | auto].
  - assert (Hs' : s' = with_exprs E s (exprs s ++ T)).
    { unfold invoke_backend, bind, get in H.
      destruct (CheckSatisfiability E _ 10); unfold ret in H; now injection H. }
    subst s'. repeat split; try (now exists T).
    intros path fs. unfold to_json, solve, bind. rewrite Ht.
    unfold invoke_backend, bind, get.
    destruct (CheckSatisfiability E _ 10) as [model | ]; unfold ret.
    + destruct (build_ir _ _) as [e | ir].
      * exists (inl e), fs. split; [reflexivity | auto].
      * eexists (inr tt), _. split; [reflexivity | discriminate].
    + destruct (build_ir _ _) as [e | ir].
      * exists (inl e), fs. split; [reflexivity | auto].
      * eexists (inr tt), _. split; [reflexivity | discriminate].
Qed.

(** ** The export to the IR *)

(** X15. The sections of the IR that [to_json] writes: one connection
    per channel, keyed [ch0], [ch1], ... in the order of the edges; one
    node entry per node, keyed [pT0], [pT1], ... in the order of the
    nodes; the entries of the input and output ports once more under
    ["portTypes"] and those of all other nodes under ["nodeTypes"]; and
    no solver variable in any attribute bag. *)
Theorem to_json_ir_shape (E : Collaborators) (path : string) (s s' : Schematic E)
  (fs fs' : files) :
  to_json E path (s, fs) = (inr tt, (s', fs')) ->
  exists ir,
    dict_get String.eqb path fs' = Some ir
    /\ map fst (connections ir) = ids "ch" 0 (length (edges (dg s)))
    /\ map fst (ir_nodes ir) = ids "pT" 0 (length (dg s))
    /\ portTypes ir = map type_of_node (filter is_port_entry (ir_nodes ir))
    /\ nodeTypes ir
       = map type_of_node (filter (fun e => negb (is_port_entry e)) (ir_nodes ir))
    /\ (forall id c key a, In (id, c) (connections ir) ->
          In (key, a) (c_attributes c) -> isinstance_Variable a = false)
    /\ (forall id n key a, In (id, n) (ir_nodes ir) ->
          In (key, a) (n_attributes n) -> isinstance_Variable a = false).
Proof. apply to_json_shape. Qed.

(** ** Names split at the underscore *)

Lemma contains_sep_cons (c : ascii) (s : string) :
  contains "_" (String c s) = Ascii.eqb c "_" || contains "_" s.
Proof.
  cbn [contains String.prefix].
  destruct (ascii_dec "_" c) as [<- | Hne].
  - now destruct s.
  - assert (H : Ascii.eqb c "_" = false) by (apply Ascii.eqb_neq; congruence).
    rewrite H. reflexivity.
Qed.

Lemma split_not_nil (s : string) : split "_" s <> [].
Proof.
  destruct s as [ | c s]; cbn [split]; [discriminate | ].
  destruct (Ascii.eqb c "_"); [discriminate | ].
  destruct (split "_" s); discriminate.
Qed.

Lemma split_no_sep (s : string) : contains "_" s = false -> split "_" s = [s].
Proof.
  induction s as [ | c s IH]; intros H; [reflexivity | ].
  rewrite contains_sep_cons in H. apply orb_false_iff in H. destruct H as [Hc Hs].
  cbn [split]. rewrite Hc, (IH Hs). reflexivity.
Qed.

Lemma split_app_sep (n rest : string) :
  contains "_" n = false ->
  split "_" (n ++ String "_" rest)%string = n :: split "_" rest.
Proof.
  induction n as [ | c n IH]; intros H.
  - reflexivity.
  - rewrite contains_sep_cons in H. apply orb_false_iff in H. destruct H as [Hc Hn].
    cbn [String.append split]. rewrite Hc, (IH Hn). reflexivity.
Qed.

Lemma split_head_no_sep (s w : string) (ws : list string) :
  split "_" s = w :: ws -> contains "_" w = false.
Proof.
  revert w ws. induction s as [ | c s IH]; intros w ws H.
  - injection H as <- _. reflexivity.
  - cbn [split] in H. destruct (Ascii.eqb c "_") eqn:Hc.
    + injection H as <- _. reflexivity.
    + destruct (split "_" s) as [ | w' ws'] eqn:Hs.
      * injection H as <- _. rewrite contains_sep_cons, Hc. reflexivity.
      * injection H as <- _. rewrite contains_sep_cons, Hc. apply (IH w' ws' eq_refl).
Qed.

Lemma split_with_sep (s : string) :
  contains "_" s = true -> exists a0 a1 rest, split "_" s = a0 :: a1 :: rest.
Proof.
  induction s as [ | c s IH]; intros H; [discriminate | ].
  rewrite contains_sep_cons in H. cbn [split].
  destruct (Ascii.eqb c "_") eqn:Hc.
  - destruct (split "_" s) as [ | w ws] eqn:Hs; [now apply split_not_nil in Hs | ].
    now exists "", w, ws.
  - destruct (IH H) as (a0 & a1 & rest & ->). now exists (String c a0), a1, rest.
Qed.

Lemma concat_split (s : string) : String.concat "_" (split "_" s) = s.
Proof.
  induction s as [ | c s IH]; [reflexivity | ].
  cbn [split]. destruct (Ascii.eqb c "_") eqn:Hc.
  - apply Ascii.eqb_eq in Hc. subst c.
    destruct (split "_" s) as [ | w ws] eqn:Hs; [now apply split_not_nil in Hs | ].
    change (String.concat "_" ("" :: w :: ws))
      with ("" ++ "_" ++ String.concat "_" (w :: ws))%string.
    now rewrite IH.
  - destruct (split "_" s) as [ | w ws] eqn:Hs; [now apply split_not_nil in Hs | ].
    destruct ws as [ | w2 ws].
    + cbn [String.concat] in *. now subst.
    + change (String.concat "_" (String c w :: w2 :: ws))
        with (String c (w ++ "_" ++ String.concat "_" (w2 :: ws)))%string.
      change (String.concat "_" (w :: w2 :: ws))
        with (w ++ "_" ++ String.concat "_" (w2 :: ws))%string in IH.
      now rewrite IH.
Qed.

Lemma attr_eq_str_lit (a b : string) : attr_eq_str (Lit (PStr a)) b = String.eqb a b.
Proof. reflexivity. Qed.

(** ** The solved values written back *)

(** The value of a variable named [<name>_<key>] on the node dict of
    [name]. *)

Lemma project_node_own (name key : string) (value : Q * Q) (d : pydict) :
  getitem d "id" = inr (Lit (PStr name)) ->
  project_node (split "_" (name ++ "_" ++ key)%string) value d
  = inr (if contains "_" name then d
         else dict_set String.eqb key (Interval (fst value) (snd value)) d).
Proof.
  intros Hid. unfold project_node. rewrite Hid.
  destruct (contains "_" name) eqn:Hn.
  - destruct (split "_" (name ++ "_" ++ key)%string) as [ | a0 rest0] eqn:Hs;
      [now apply split_not_nil in Hs | ].
    rewrite attr_eq_str_lit. destruct (String.eqb name a0) eqn:He; [ | reflexivity].
    apply String.eqb_eq in He. subst a0.
    apply split_head_no_sep in Hs. congruence.
  - change (name ++ "_" ++ key)%string with (name ++ String "_" key)%string.
    rewrite (split_app_sep _ _ Hn).
    rewrite attr_eq_str_lit, String.eqb_refl. now rewrite concat_split.
Qed.

(** X16. The round trip of a port or node variable. [port] and [node]
    name the variable of an attribute [<name>_<attribute>]; [to_json]
    splits the name at the underscores and takes the first part as the
    owner. So the solved value comes back onto the node under the
    attribute's key when the name has no underscore, and a node whose
    name has one never receives it. *)
Theorem node_variable_written_back (name key : string) (value : Q * Q) (d : pydict) :
  getitem d "id" = inr (Lit (PStr name)) ->
  project_node (split "_" (name ++ "_" ++ key)%string) value d
  = inr (if contains "_" name then d
         else dict_set String.eqb key (Interval (fst value) (snd value)) d).
Proof. apply project_node_own. Qed.

(** X17. A channel variable is written twice. For names [f] and [t]
    without underscore, the value of [<f>_<t>_<key>] is stored on the
    link from [f] to [t] under [key], and also on the node [f], under
    the key [<t>_<key>]. *)
Theorem channel_variable_written_twice (f t key : string) (value : Q * Q)
  (d nd : pydict) :
  getitem d "source" = inr (Lit (PStr f)) ->
  getitem d "target" = inr (Lit (PStr t)) ->
  getitem nd "id" = inr (Lit (PStr f)) ->
  contains "_" f = false -> contains "_" t = false ->
  project_link (split "_" (f ++ "_" ++ t ++ "_" ++ key)%string) value d
  = inr (dict_set String.eqb key (Interval (fst value) (snd value)) d)
  /\ project_node (split "_" (f ++ "_" ++ t ++ "_" ++ key)%string) value nd
     = inr (dict_set String.eqb (t ++ "_" ++ key)%string
              (Interval (fst value) (snd value)) nd).
Proof.
  intros Hs Ht Hid Hf Htt. split;
    [ | now rewrite (project_node_own f (t ++ "_" ++ key)%string value nd Hid), Hf].
  unfold project_link. rewrite Hs.
  change (f ++ "_" ++ t ++ "_" ++ key)%string
    with (f ++ String "_" (t ++ String "_" key))%string.
  rewrite (split_app_sep _ _ Hf), (split_app_sep _ _ Htt).
  rewrite attr_eq_str_lit, String.eqb_refl, Ht.
  rewrite attr_eq_str_lit, String.eqb_refl. now rewrite concat_split.
Qed.

(** ** When the export returns *)

Section Keys.
Context {K V : Type} (eqb : K -> K -> bool).

Lemma dict_has_set (k k0 : K) (v : V) (d : list (K * V)) :
  dict_has eqb k0 d = true -> dict_has eqb k0 (dict_set eqb k v d) = true.
Proof.
  unfold dict_has. induction d as [ | [k' v'] d IH ]; cbn [dict_get dict_set].
  - discriminate.
  - destruct (eqb k' k) eqn:Hk; cbn [dict_get]; destruct (eqb k' k0); auto.
Qed.

Lemma dict_has_in (k k' : K) (v' : V) (d : list (K * V)) :
  In (k', v') d -> eqb k' k = true -> dict_has eqb k d = true.
Proof.
  unfold dict_has. induction d as [ | [k1 v1] d IH ]; cbn [dict_get In]; [tauto | ].
  intros [H | H] Hk.
  - injection H as -> ->. now rewrite Hk.
  - destruct (eqb k1 k); [reflexivity | now apply IH].
Qed.

End Keys.

Lemma dict_has_of (items : pydict) (k : string) (a : attr) :
  In (k, a) items -> dict_has String.eqb k (dict_of String.eqb items) = true.
Proof.
  intros H.
  destruct (dict_of_has String.eqb String.eqb_refl items k a H) as (k' & v' & Hin & Hk).
  exact (dict_has_in String.eqb k k' v' _ Hin Hk).
Qed.

Lemma getitem_has (d : pydict) (k : string) :
  dict_has String.eqb k d = true -> exists a, getitem d k = inr a.
Proof.
  unfold dict_has, getitem. destruct (dict_get String.eqb k d) as [a | ];
    [now exists a | discriminate].
Qed.

Lemma has_getitem (d : pydict) (k : string) (a : attr) :
  getitem d k = inr a -> dict_has String.eqb k d = true.
Proof.
  unfold dict_has, getitem. now destruct (dict_get String.eqb k d).
Qed.

(** A projection leaves the dict as it is or assigns to one key. *)
Lemma project_link_result (parts : list string) (value : Q * Q) (d d' : pydict) :
  project_link parts value d = inr d' ->
  d' = d \/ exists k a, d' = dict_set String.eqb k a d.
Proof.
  unfold project_link. intros H.
  destruct (getitem d "source") as [ | source]; [discriminate | ].
  destruct parts as [ | a0 [ | a1 rest]]; [discriminate | | ].
  - destruct (attr_eq_str source a0).
    + destruct (getitem d "target"); discriminate.
    + injection H as <-. now left.
  - destruct (attr_eq_str source a0); [ | injection H as <-; now left].
    destruct (getitem d "target") as [ | target]; [discriminate | ].
    destruct (attr_eq_str target a1); injection H as <-; [right; eauto | now left].
Qed.

Lemma project_node_result (parts : list string) (value : Q * Q) (d d' : pydict) :
  project_node parts value d = inr d' ->
  d' = d \/ exists k a, d' = dict_set String.eqb k a d.
Proof.
  unfold project_node. intros H.
  destruct (getitem d "id") as [ | id]; [discriminate | ].
  destruct parts as [ | a0 rest]; [discriminate | ].
  destruct (attr_eq_str id a0); injection H as <-; [right; eauto | now left].
Qed.

Lemma project_link_returns (name : string) (value : Q * Q) (d : pydict) :
  link_keys d -> contains "_" name = true ->
  exists d', project_link (split "_" name) value d = inr d'.
Proof.
  intros [Hs Ht] Hn. unfold project_link.
  destruct (getitem_has _ _ Hs) as [source ->].
  destruct (getitem_has _ _ Ht) as [target ->].
  destruct (split_with_sep _ Hn) as (a0 & a1 & rest & ->).
  destruct (attr_eq_str source a0); [ | eauto].
  destruct (attr_eq_str target a1); eauto.
Qed.

Lemma project_link_raises (name : string) (value : Q * Q) (d : pydict) (e : exn) :
  link_keys d -> project_link (split "_" name) value d = inl e ->
  e = IndexError (builtin "list index out of range")
  /\ contains "_" name = false.
Proof.
  intros Hk H. destruct (contains "_" name) eqn:Hn.
  - destruct (project_link_returns name value d Hk Hn) as [d' Hd]. congruence.
  - split; [ | reflexivity]. destruct Hk as [Hs Ht].
    unfold project_link in H. rewrite (split_no_sep _ Hn) in H.
    destruct (getitem_has _ _ Hs) as [source Hsrc].
    destruct (getitem_has _ _ Ht) as [target Htgt].
    rewrite Hsrc, Htgt in H.
    destruct (attr_eq_str source name); [now injection H as <- | discriminate].
Qed.

Lemma project_node_returns (name : string) (value : Q * Q) (d : pydict) :
  node_keys d -> exists d', project_node (split "_" name) value d = inr d'.
Proof.
  intros [Hi _]. unfold project_node.
  destruct (getitem_has _ _ Hi) as [id ->].
  destruct (split "_" name) as [ | a0 rest] eqn:Hs; [now apply split_not_nil in Hs | ].
  destruct (attr_eq_str id a0); eauto.
Qed.

Lemma update_all_keeps (P : pydict -> Prop) (f : pydict -> result pydict) :
  (forall d d', P d -> f d = inr d' -> P d') ->
  forall ds ds', Forall P ds -> update_all f ds = inr ds' -> Forall P ds'.
Proof.
  intros Hf. induction ds as [ | d ds IH ]; intros ds' HP; cbn [update_all].
  - intros H. injection H as <-. constructor.
  - destruct (f d) as [ | d'] eqn:Hd; [discriminate | ].
    destruct (update_all f ds) as [ | rest]; [discriminate | ].
    intros H. injection H as <-. inversion HP; subst.
    constructor; [eapply Hf; eassumption | now apply IH].
Qed.

Lemma update_all_returns (P : pydict -> Prop) (f : pydict -> result pydict) :
  (forall d, P d -> exists d', f d = inr d') ->
  forall ds, Forall P ds -> exists ds', update_all f ds = inr ds'.
Proof.
  intros Hf. induction ds as [ | d ds IH ]; intros HP; cbn [update_all].
  - now exists [].
  - inversion HP; subst. destruct (Hf d H1) as [d' ->].
    destruct (IH H2) as [rest ->]. eauto.
Qed.

Lemma update_all_raises (P : pydict -> Prop) (f : pydict -> result pydict) (e : exn) :
  forall ds, Forall P ds -> update_all f ds = inl e ->
  exists d, P d /\ f d = inl e.
Proof.
  induction ds as [ | d ds IH ]; intros HP; cbn [update_all]; [discriminate | ].
  inversion HP; subst.
  destruct (f d) as [e' | d'] eqn:Hd.
  - intros H. injection H as ->. now exists d.
  - destruct (update_all f ds) as [e' | rest]; [ | discriminate].
    intros H. injection H as ->. now apply IH.
Qed.

(** A property of dicts that assignments keep holds of every dict
    after the projection of a model. *)
Lemma project_invariant (P : pydict -> Prop) :
  (forall k a d, P d -> P (dict_set String.eqb k a d)) ->
  forall (model : Box) lks nds lks' nds',
  Forall P lks -> Forall P nds ->
  project model lks nds = inr (lks', nds') ->
  Forall P lks' /\ Forall P nds'.
Proof.
  intros HP.
  induction model as [ | [name value] model IH ]; intros lks nds lks' nds' Hl Hn;
    cbn [project].
  - intros H. now injection H as <- <-.
  - destruct (update_all _ lks) as [ | lks1] eqn:H1; [discriminate | ].
    destruct (update_all _ nds) as [ | nds1] eqn:H2; [discriminate | ].
    apply IH.
    + eapply update_all_keeps; [ | exact Hl | exact H1].
      intros d d' Hd Hp.
      destruct (project_link_result _ _ _ _ Hp) as [-> | (k & a & ->)]; auto.
    + eapply update_all_keeps; [ | exact Hn | exact H2].
      intros d d' Hd Hp.
      destruct (project_node_result _ _ _ _ Hp) as [-> | (k & a & ->)]; auto.
Qed.

Lemma link_keys_set (k : string) (a : attr) (d : pydict) :
  link_keys d -> link_keys (dict_set String.eqb k a d).
Proof. intros [H1 H2]. split; now apply dict_has_set. Qed.

Lemma node_keys_set (k : string) (a : attr) (d : pydict) :
  node_keys d -> node_keys (dict_set String.eqb k a d).
Proof. intros [H1 H2]. split; now apply dict_has_set. Qed.

Lemma link_keys_kept (parts : list string) (value : Q * Q) (d d' : pydict) :
  link_keys d -> project_link parts value d = inr d' -> link_keys d'.
Proof.
  intros Hd Hp. destruct (project_link_result _ _ _ _ Hp) as [-> | (k & a & ->)];
    [assumption | now apply link_keys_set].
Qed.

Lemma node_keys_kept (parts : list string) (value : Q * Q) (d d' : pydict) :
  node_keys d -> project_node parts value d = inr d' -> node_keys d'.
Proof.
  intros Hd Hp. destruct (project_node_result _ _ _ _ Hp) as [-> | (k & a & ->)];
    [assumption | now apply node_keys_set].
Qed.

Lemma update_links_keep (parts : list string) (value : Q * Q) (ds ds' : list pydict) :
  Forall link_keys ds -> update_all (project_link parts value) ds = inr ds' ->
  Forall link_keys ds'.
Proof.
  apply update_all_keeps. intros d d'. apply link_keys_kept.
Qed.

Lemma update_nodes_keep (parts : list string) (value : Q * Q) (ds ds' : list pydict) :
  Forall node_keys ds -> update_all (project_node parts value) ds = inr ds' ->
  Forall node_keys ds'.
Proof.
  apply update_all_keeps. intros d d'. apply node_keys_kept.
Qed.

Lemma project_keeps (model : Box) :
  forall lks nds lks' nds',
  Forall link_keys lks -> Forall node_keys nds ->
  project model lks nds = inr (lks', nds') ->
  Forall link_keys lks' /\ Forall node_keys nds'.
Proof.
  induction model as [ | [name value] model IH ]; intros lks nds lks' nds' Hl Hn;
    cbn [project].
  - intros H. now injection H as <- <-.
  - destruct (update_all _ lks) as [ | lks1] eqn:H1; [discriminate | ].
    destruct (update_all _ nds) as [ | nds1] eqn:H2; [discriminate | ].
    apply IH; [eapply update_links_keep | eapply update_nodes_keep]; eassumption.
Qed.

Lemma project_returns (model : Box) :
  (forall name value, In (name, value) model -> contains "_" name = true) ->
  forall lks nds, Forall link_keys lks -> Forall node_keys nds ->
  exists lks' nds', project model lks nds = inr (lks', nds').
Proof.
  induction model as [ | [name value] model IH ]; intros Hm lks nds Hl Hn;
    cbn [project].
  - eauto.
  - destruct (update_all_returns link_keys (project_link (split "_" name) value))
      with (ds := lks) as [lks1 H1]; [ | assumption | ].
    { intros d Hd. apply project_link_returns; [assumption | ].
      apply (Hm name value). now left. }
    destruct (update_all_returns node_keys (project_node (split "_" name) value))
      with (ds := nds) as [nds1 H2]; [ | assumption | ].
    { intros d Hd. now apply project_node_returns. }
    rewrite H1, H2. apply IH.
    + intros n v Hin. apply (Hm n v). now right.
    + eapply update_links_keep; eassumption.
    + eapply update_nodes_keep; eassumption.
Qed.

Lemma project_raises (model : Box) (e : exn) :
  forall lks nds, Forall link_keys lks -> Forall node_keys nds ->
  project model lks nds = inl e ->
  e = IndexError (builtin "list index out of range")
  /\ exists name value, In (name, value) model /\ contains "_" name = false.
Proof.
  induction model as [ | [name value] model IH ]; intros lks nds Hl Hn;
    cbn [project]; [discriminate | ].
  destruct (update_all _ lks) as [e1 | lks1] eqn:H1.
  - intros H. injection H as ->.
    destruct (update_all_raises link_keys _ e lks Hl H1) as (d & Hd & He).
    destruct (project_link_raises _ _ _ _ Hd He) as [-> Hname].
    split; [reflexivity | ]. exists name, value. split; [now left | assumption].
  - destruct (update_all _ nds) as [e2 | nds1] eqn:H2.
    + intros H. injection H as ->.
      destruct (update_all_raises node_keys _ e nds Hn H2) as (d & Hd & He).
      destruct (project_node_returns name value d Hd) as [d' Hd']. congruence.
    + intros H.
      destruct (IH lks1 nds1) as [He (n & v & Hin & Hnv)]; [ | | exact H | ].
      * eapply update_links_keep; eassumption.
      * eapply update_nodes_keep; eassumption.
      * split; [exact He | ]. exists n, v. split; [now right | assumption].
Qed.

Lemma add_connections_returns (lks : list pydict) :
  Forall link_keys lks ->
  forall idx acc, exists conns, add_connections idx lks acc = inr conns.
Proof.
  induction lks as [ | d lks IH ]; intros HP idx acc; cbn [add_connections].
  - eauto.
  - inversion HP as [ | ? ? [Hs Ht] Hrest ]; subst.
    destruct (getitem_has _ _ Hs) as [source ->].
    destruct (getitem_has _ _ Ht) as [target ->].
    apply (IH Hrest).
Qed.

Lemma add_nodes_returns (nds : list pydict) :
  Forall node_keys nds ->
  forall idx acc, exists r, add_nodes idx nds acc = inr r.
Proof.
  induction nds as [ | d nds IH ]; intros HP idx [[ns pts] nts]; cbn [add_nodes].
  - eauto.
  - inversion HP as [ | ? ? [Hi Hk] Hrest ]; subst.
    destruct (getitem_has _ _ Hk) as [kind ->].
    destruct (getitem_has _ _ Hi) as [id ->].
    destruct (is_port_kind kind); apply (IH Hrest).
Qed.

Lemma links_have_keys (G : DiGraph) : Forall link_keys (links (node_link_data G)).
Proof.
  unfold node_link_data. cbn [links]. apply Forall_forall. intros d Hd.
  apply in_map_iff in Hd. destruct Hd as ([[u v] a] & <- & _).
  split; eapply dict_has_of; apply in_or_app; right; cbn [In]; eauto.
Qed.

Lemma nodes_have_keys (G : DiGraph) :
  all_kinded G -> Forall node_keys (nodes (node_link_data G)).
Proof.
  intros Hk. unfold node_link_data. cbn [nodes]. apply Forall_forall. intros d Hd.
  apply in_map_iff in Hd. destruct Hd as ([n nd] & <- & Hin).
  destruct (Hk _ Hin) as [a Ha]. cbn [snd fst] in *. split.
  - eapply dict_has_of. apply in_or_app. right. cbn [In]. eauto.
  - unfold getitem in Ha.
    destruct (dict_get String.eqb "kind" (attrs nd)) as [a' | ] eqn:Hg; [ | discriminate].
    assert (Hin' : exists k', In (k', a') (attrs nd) /\ String.eqb k' "kind" = true).
    { clear -Hg. induction (attrs nd) as [ | [k1 v1] l IH ]; [discriminate | ].
      cbn [dict_get] in Hg. destruct (String.eqb k1 "kind") eqn:H1.
      - injection Hg as ->. exists k1. split; [now left | assumption].
      - destruct (IH Hg) as (k' & H2 & H3). exists k'. split; [now right | assumption]. }
    destruct Hin' as (k' & Hin' & Hk'). apply String.eqb_eq in Hk'. subst k'.
    eapply dict_has_of. apply in_or_app. left. exact Hin'.
Qed.

Lemma translated_all_kinded (E : Collaborators) (s s' : Schematic E) :
  translate_schematic E s = (inr tt, s') -> all_kinded (dg s).
Proof.
  intros Ht [n nd] Hin. cbn [snd]. unfold getitem.
  destruct (dict_get String.eqb "kind" (attrs nd)) as [a | ] eqn:Hg; [now exists a | ].
  rewrite (translate_schematic_bare E s) in Ht by (now exists n, nd). discriminate.
Qed.

(** X18. [to_json] builds the IR without raising, and the file is set
    to it, whenever [solve] returns a model in which every variable name
    has an underscore: no key that the export reads can be missing then.
    (The write itself, [open] and [json.dump], is taken to succeed.) *)
Theorem to_json_returns (E : Collaborators) (path : string) (s s' : Schematic E)
  (fs : files) (model : Box) :
  solve E false s = (inr (OBox model), s') ->
  (forall name value, In (name, value) model -> contains "_" name = true) ->
  exists ir, to_json E path (s, fs) = (inr tt, (s', dict_set String.eqb path ir fs)).
Proof.
  intros Hs Hm. unfold to_json. rewrite Hs.
  destruct (solve_inv E _ _ _ _ Hs) as [Ht _].
  pose proof (links_have_keys (dg s)) as Hl.
  pose proof (nodes_have_keys (dg s) (translated_all_kinded E s s' Ht)) as Hn.
  unfold build_ir. cbn [items_of].
  destruct (project_returns model Hm _ _ Hl Hn) as (lks & nds & Hp). rewrite Hp.
  destruct (project_keeps model _ _ _ _ Hl Hn Hp) as [Hl' Hn'].
  destruct (add_connections_returns lks Hl' 0%nat []) as [conns ->].
  destruct (add_nodes_returns nds Hn' 0%nat ([], [], [])) as [[[ns pts] nts] ->].
  eauto.
Qed.

(** X19. The three ways [to_json] raises, each without writing a
    file: [solve] raised (the same exception); [solve] returned the
    string of the unsatisfiable case ([AttributeError] at
    [output.items()]); or the model has a variable whose name has no
    underscore ([IndexError] at [attr_split[1]]). *)
Theorem to_json_raises (E : Collaborators) (path : string) (s s' : Schematic E)
  (fs fs' : files) (e : exn) :
  to_json E path (s, fs) = (inl e, (s', fs')) ->
  fs' = fs
  /\ (solve E false s = (inl e, s')
      \/ (exists msg, solve E false s = (inr (OStr msg), s')
            /\ e = AttributeError (builtin "'str' object has no attribute 'items'"))
      \/ (exists model name value,
            solve E false s = (inr (OBox model), s')
            /\ In (name, value) model /\ contains "_" name = false
            /\ e = IndexError (builtin "list index out of range"))).
Proof.
  unfold to_json.
  destruct (solve E false s) as [[e0 | out] s1] eqn:Hs.
  - intros H. injection H as <- <- <-. auto.
  - destruct (solve_inv E _ _ _ _ Hs) as [Ht _].
    pose proof (links_have_keys (dg s)) as Hl.
    pose proof (nodes_have_keys (dg s) (translated_all_kinded E s s1 Ht)) as Hn.
    unfold build_ir. destruct out as [model | msg]; cbn [items_of].
    + destruct (project model _ _) as [e1 | [lks nds]] eqn:Hp.
      * intros H. injection H as <- <- <-. split; [reflexivity | ].
        destruct (project_raises model e1 _ _ Hl Hn Hp) as [-> (n & v & Hin & Hnv)].
        right. right. now exists model, n, v.
      * destruct (project_keeps model _ _ _ _ Hl Hn Hp) as [Hl' Hn'].
        destruct (add_connections_returns lks Hl' 0%nat []) as [conns ->].
        destruct (add_nodes_returns nds Hn' 0%nat ([], [], [])) as [[[ns pts] nts] ->].
        discriminate.
    + intros H. injection H as <- <- <-. split; [reflexivity | ].
      right. left. now exists msg.
Qed.

(** ** The attribute bags *)

Lemma dict_get_not_in (k : string) (d : pydict) :
  ~ In k (map fst d) -> dict_get String.eqb k d = None.
Proof.
  induction d as [ | [k' v'] d IH ]; cbn [dict_get map fst In]; [reflexivity | ].
  intros H. destruct (String.eqb_spec k' k) as [-> | Hne]; [tauto | ].
  apply IH. tauto.
Qed.

Lemma bag_fold (keep : string * attr -> bool) (d : pydict) :
  forall acc,
  NoDup (map fst d) ->
  (forall k, In k (map fst acc) -> ~ In k (map fst d)) ->
  fold_left (fun acc kv => if keep kv then dict_set String.eqb (fst kv) (snd kv) acc
                           else acc) d acc
  = acc ++ filter keep d.
Proof.
  induction d as [ | [k v] d IH ]; intros acc Hnd Hacc; cbn [fold_left filter].
  - now rewrite app_nil_r.
  - cbn [map fst] in Hnd, Hacc. inversion Hnd as [ | ? ? Hk Hd ]; subst.
    destruct (keep (k, v)); cbn [fst snd].
    + rewrite (dict_set_new String.eqb)
        by (apply dict_get_not_in; intros Hin; apply (Hacc k Hin); now left).
      rewrite IH; [now rewrite <- app_assoc | assumption | ].
      intros k0 Hin. rewrite map_app in Hin. apply in_app_or in Hin.
      destruct Hin as [Hin | [<- | []]]; [ | assumption].
      intros Hd0. apply (Hacc k0 Hin). now right.
    + apply IH; [assumption | ].
      intros k0 Hin Hd0. apply (Hacc k0 Hin). now right.
Qed.

Lemma dict_set_keys (k : string) (a : attr) (d : pydict) :
  map fst (dict_set String.eqb k a d)
  = if dict_has String.eqb k d then map fst d else map fst d ++ [k].
Proof.
  unfold dict_has. induction d as [ | [k' v'] d IH ]; cbn [dict_set dict_get map fst app].
  - reflexivity.
  - destruct (String.eqb k' k); cbn [map fst]; [reflexivity | ].
    rewrite IH. now destruct (dict_get String.eqb k d).
Qed.

Lemma dict_set_nodup (k : string) (a : attr) (d : pydict) :
  NoDup (map fst d) -> NoDup (map fst (dict_set String.eqb k a d)).
Proof.
  intros H. rewrite dict_set_keys. destruct (dict_has String.eqb k d) eqn:Hk; [assumption | ].
  apply NoDup_app; [assumption | repeat constructor; intros [] | ].
  intros k0 Hin [Hk0 | []]. subst k0. unfold dict_has in Hk.
  assert (Hg : dict_get String.eqb k d <> None).
  { clear -Hin. induction d as [ | [k' v'] d IH ]; cbn [map fst In dict_get] in *; [tauto | ].
    destruct (String.eqb_spec k' k); [discriminate | ].
    destruct Hin as [-> | Hin]; [congruence | now apply IH]. }
  now destruct (dict_get String.eqb k d).
Qed.

Lemma dict_of_nodup (items : pydict) : NoDup (map fst (dict_of String.eqb items)).
Proof.
  unfold dict_of.
  assert (H : forall d, NoDup (map fst d) ->
            NoDup (map fst (fold_left (fun d kv => dict_set String.eqb (fst kv) (snd kv) d)
                              items d))).
  { induction items as [ | [k v] items IH ]; intros d Hd; cbn [fold_left];
      [assumption | ]. apply IH. now apply dict_set_nodup. }
  apply H. constructor.
Qed.

Lemma bags_closed_form (d : pydict) :
  NoDup (map fst d) ->
  node_attributes d = filter kept_on_node d
  /\ connection_attributes d = filter kept_on_connection d.
Proof.
  intros Hnd. split.
  - unfold node_attributes.
    rewrite <- (app_nil_l (filter _ d)).
    rewrite <- (bag_fold kept_on_node d [] Hnd) by (intros k []).
    generalize (@nil (string * attr)). clear.
    induction d as [ | kv d IH ]; intros acc; cbn [fold_left]; [reflexivity | ].
    rewrite IH. f_equal. unfold kept_on_node.
    now destruct (isinstance_Variable (snd kv)).
  - unfold connection_attributes.
    rewrite <- (app_nil_l (filter _ d)).
    rewrite <- (bag_fold kept_on_connection d [] Hnd) by (intros k []).
    reflexivity.
Qed.

Lemma links_distinct_keys (G : DiGraph) :
  Forall (fun d : pydict => NoDup (map fst d)) (links (node_link_data G)).
Proof.
  unfold node_link_data. cbn [links]. apply Forall_forall. intros d Hd.
  apply in_map_iff in Hd. destruct Hd as ([[u v] a] & <- & _). apply dict_of_nodup.
Qed.

Lemma nodes_distinct_keys (G : DiGraph) :
  Forall (fun d : pydict => NoDup (map fst d)) (nodes (node_link_data G)).
Proof.
  unfold node_link_data. cbn [nodes]. apply Forall_forall. intros d Hd.
  apply in_map_iff in Hd. destruct Hd as (x & <- & _). apply dict_of_nodup.
Qed.

(** X20. The attribute bags of the IR, exactly. Every dict of the
    node-link data, also after the solved values were written onto it,
    has distinct keys; the bag of a node is the dict without its
    variables, in the order of the dict (['kind'] and ['id'] included),
    and the bag of a connection is the dict without its variables and
    without ['port_from'], ['port_to'], ['source'] and ['target']. *)
Theorem ir_bags_closed_form (G : DiGraph) (model : Box) (lks nds : list pydict) :
  project model (links (node_link_data G)) (nodes (node_link_data G)) = inr (lks, nds) ->
  Forall (fun d => connection_attributes d = filter kept_on_connection d) lks
  /\ Forall (fun d => node_attributes d = filter kept_on_node d) nds.
Proof.
  intros Hp.
  destruct (project_invariant (fun d => NoDup (map fst d))
              (fun k a d => dict_set_nodup k a d) model _ _ _ _
              (links_distinct_keys G) (nodes_distinct_keys G) Hp) as [Hl Hn].
  split; eapply Forall_impl; try eassumption; intros d Hd; now apply bags_closed_form.
Qed.

(** ** Node attributes are written once *)

Lemma node_attrs_app_kept (G G' : DiGraph) (n : pyval) (d : pydict) :
  node_attrs G n = Some d -> node_attrs (G ++ G') n = Some d.
Proof.
  unfold node_attrs. rewrite dict_get_app.
  now destruct (dict_get py_eq n G).
Qed.

Lemma run_call_keeps_attrs (E : Collaborators) (c : call) (s : Schematic E)
  (m : string) (d : pydict) :
  node_attrs (dg s) (PStr m) = Some d ->
  node_attrs (dg (snd (run_call E c s))) (PStr m) = Some d.
Proof.
  intros H.
  destruct c as [[f t l w h r k ph sr | n k mp mf x y fl | n x y k c p qf]
                | n k mp mf x y v cur fl]; cbn [run_call run].
  - destruct (channel_outcome E f t l w h r k ph sr s)
      as [[e He] | (f' & t' & k' & ph' & -> & -> & -> & -> & _ & _ & _ & _ & He)];
      rewrite He; cbn [snd]; [assumption | ].
    simpl dg. rewrite with_channel_node_attrs. now rewrite H.
  - destruct (port_outcome E n k mp mf x y fl s)
      as [[e He] | (n' & k' & fluid & -> & -> & _ & _ & _ & _ & He)];
      rewrite He; cbn [snd]; [assumption | ].
    simpl dg. now apply node_attrs_app_kept.
  - destruct (node_outcome E n x y k c p qf s)
      as [[e He] | (n' & k' & -> & -> & _ & _ & _ & He)];
      rewrite He; cbn [snd]; [assumption | ].
    simpl dg. now apply node_attrs_app_kept.
  - destruct (elec_port_cases E n k mp mf x y v cur fl s)
      as [[e He] | (n' & k' & fluid & -> & -> & _ & _ & _ & He)];
      rewrite He; cbn [snd]; [assumption | ].
    simpl dg. now apply node_attrs_app_kept.
Qed.

Lemma after_calls_keeps_attrs (E : Collaborators) (cs : list call) :
  forall (s : Schematic E) (m : string) (d : pydict),
  node_attrs (dg s) (PStr m) = Some d ->
  node_attrs (dg (after_calls E cs s)) (PStr m) = Some d.
Proof.
  induction cs as [ | c cs IH ]; intros s m d H; cbn [after_calls fold_left].
  - exact H.
  - apply IH. now apply run_call_keeps_attrs.
Qed.

Lemma node_attrs_in (G : DiGraph) (n : pyval) (d : pydict) :
  node_attrs G n = Some d -> exists n' nd, In (n', nd) G /\ attrs nd = d.
Proof.
  unfold node_attrs. destruct (dict_get py_eq n G) as [nd | ] eqn:Hg; [ | discriminate].
  intros H. injection H as <-. destruct (dict_get_in _ _ _ Hg) as [n' Hin].
  now exists n', nd.
Qed.

(** X21. Node attributes are written once. Whatever creation calls
    follow ([channel], [port], [node], [elec_port], returning or
    raising), a node that is in the graph keeps its attribute dict. A
    node without a ['kind'], such as an end that a channel brought into
    the graph, can therefore never be completed: [solve] raises
    [KeyError('kind')] after every script. *)
Theorem attributes_written_once (E : Collaborators) (cs : list call) (s : Schematic E)
  (m : string) (d : pydict) :
  node_attrs (dg s) (PStr m) = Some d ->
  node_attrs (dg (after_calls E cs s)) (PStr m) = Some d
  /\ (dict_get String.eqb "kind" d = None ->
      forall show,
        solve E show (after_calls E cs s)
        = (inl (KeyError "kind"), after_calls E cs s)).
Proof.
  intros H. pose proof (after_calls_keeps_attrs E cs s m d H) as H'.
  split; [exact H' | ]. intros Hk show.
  destruct (node_attrs_in _ _ _ H') as (n' & nd & Hin & Hd).
  unfold solve, bind.
  rewrite (translate_schematic_bare E (after_calls E cs s)); [reflexivity | ].
  exists n', nd. split; [assumption | ]. unfold bare. now rewrite Hd.
Qed.

(** ** The further properties at sample schematics *)

Import Cases.

Lemma all_kindedb_spec (G : DiGraph) : all_kindedb G = true -> all_kinded G.
Proof.
  unfold all_kindedb. intros H item Hin.
  rewrite forallb_forall in H. apply getitem_has. now apply H.
Qed.

(** X5 at an electrical port with [x = voltage = -1]. *)
Lemma elec_port_negative_x_with_equal_voltage_witness :
  exists s' d,
    elec_port E_unsat (PStr "V") (PStr "input") (PBool false) (PBool false) (PInt (-1))
      (PBool false) (PInt (-1)) (PBool false) (PStr "default")
      (Schematic_init E_unsat chip) = (inr tt, s')
    /\ node_attrs (dg s') (PStr "V") = Some d
    /\ getitem d "min_x" = inr (Lit (PInt (-1)))
    /\ getitem d "voltage" = inr (Lit (PInt (-1))).
Proof.
  eapply (elec_port_negative_x_with_equal_voltage E_unsat "V" "input" "default"
            (PInt (-1)) _ (Schematic_init E_unsat chip)).
  - reflexivity.
  - reflexivity.
  - vm_compute. tauto.
  - vm_compute. reflexivity.
Defined.

(** X6 at the first port of a schematic. *)
Lemma port_node_appends_witness :
  exists n d,
    name_of (port_call "A" "input" absent) = [PStr n]
    /\ has_node (dg (Schematic_init E_unsat chip)) (PStr n) = false
    /\ dg (snd (run E_unsat (port_call "A" "input" absent) (Schematic_init E_unsat chip)))
       = dg (Schematic_init E_unsat chip) ++ [(PStr n, {| attrs := d; succ := [] |})]
    /\ edges (dg (snd (run E_unsat (port_call "A" "input" absent)
                         (Schematic_init E_unsat chip))))
       = edges (dg (Schematic_init E_unsat chip))
    /\ exprs (snd (run E_unsat (port_call "A" "input" absent)
                     (Schematic_init E_unsat chip)))
       = exprs (Schematic_init E_unsat chip)
    /\ dim (snd (run E_unsat (port_call "A" "input" absent)
                   (Schematic_init E_unsat chip)))
       = dim (Schematic_init E_unsat chip)
    /\ translation_strats (snd (run E_unsat (port_call "A" "input" absent)
                                  (Schematic_init E_unsat chip)))
       = translation_strats (Schematic_init E_unsat chip).
Proof.
  apply (port_node_appends E_unsat (port_call "A" "input" absent)
           (Schematic_init E_unsat chip)
           (snd (run E_unsat (port_call "A" "input" absent)
                   (Schematic_init E_unsat chip)))).
  - intros f t l w h r k ph m. discriminate.
  - vm_compute. reflexivity.
Defined.

(** X7 at the channel of the sample circuit. *)
Lemma channel_adds_one_edge_witness :
  exists f t d,
    PStr "A" = PStr f /\ PStr "B" = PStr t
    /\ has_edge (dg (unconnected E_unsat)) (PStr "A") (PStr "B") = false
    /\ (forall m, node_attrs (dg (circuit E_unsat)) (PStr m)
                  = match node_attrs (dg (unconnected E_unsat)) (PStr m) with
                    | Some a => Some a
                    | None => if (f =? m) || (t =? m) then Some [] else None
                    end)
    /\ (forall u v, edge_attrs (dg (circuit E_unsat)) (PStr u) (PStr v)
                    = if (f =? u) && (t =? v) then Some d
                      else edge_attrs (dg (unconnected E_unsat)) (PStr u) (PStr v))
    /\ exprs (circuit E_unsat) = exprs (unconnected E_unsat)
    /\ dim (circuit E_unsat) = dim (unconnected E_unsat)
    /\ translation_strats (circuit E_unsat) = translation_strats (unconnected E_unsat).
Proof.
  apply (channel_adds_one_edge E_unsat (PStr "A") (PStr "B") (PFloat (1 # 100))
           absent absent absent (PStr "rectangle") (PStr "None") (PInt 1)
           (unconnected E_unsat) (circuit E_unsat)).
  vm_compute. reflexivity.
Defined.

(** X8 at the sample circuit: the pair [(A, B)] and both names are taken. *)
Lemma channel_takes_pair_and_names_witness :
  (forall l w h r k ph m,
      exists e, channel E_unsat (PStr "A") (PStr "B") l w h r k ph m (circuit E_unsat)
                = (inl e, circuit E_unsat))
  /\ (forall name, name = PStr "A" \/ name = PStr "B" ->
        (forall k mp mf x y fl,
            exists e, port E_unsat name k mp mf x y fl (circuit E_unsat)
                      = (inl e, circuit E_unsat))
        /\ (forall x y k c p qf,
              exists e, node E_unsat name x y k c p qf (circuit E_unsat)
                        = (inl e, circuit E_unsat))
        /\ (forall k mp mf x y v cur fl,
              exists e, elec_port E_unsat name k mp mf x y v cur fl (circuit E_unsat)
                        = (inl e, circuit E_unsat))).
Proof.
  apply (channel_takes_pair_and_names E_unsat (PStr "A") (PStr "B") (PFloat (1 # 100))
           absent absent absent (PStr "rectangle") (PStr "None") (PInt 1)
           (unconnected E_unsat) (circuit E_unsat)).
  vm_compute. reflexivity.
Defined.

(** X9 at a node created with [x = 0]: the zero is stored as [None]. *)
Lemma zero_coordinate_node_and_port_witness :
  exists d,
    node_attrs
      (dg (snd (node E_unsat (PStr "N") (PInt 0) (PInt 2) (PStr "node")
                  absent absent absent (Schematic_init E_unsat chip))))
      (PStr "N") = Some d
    /\ getitem d "min_x" = inr (Lit PNone)
    /\ getitem d "min_y" = inr (Lit (PInt 2)).
Proof.
  apply (proj1 (zero_coordinate_node_and_port E_unsat (Schematic_init E_unsat chip)
                  (snd (node E_unsat (PStr "N") (PInt 0) (PInt 2) (PStr "node")
                          absent absent absent (Schematic_init E_unsat chip))))
           (PStr "N") (PInt 0) (PInt 2) (PStr "node") absent absent absent).
  vm_compute. reflexivity.
Defined.

(** X10 at a schematic with an output port only. *)
Lemma no_input_raises_witness :
  translate_schematic E_unsat (only_output E_unsat)
  = (inl (ValueError schematic_has_no_input), only_output E_unsat)
  /\ solve E_unsat false (only_output E_unsat)
     = (inl (ValueError schematic_has_no_input), only_output E_unsat).
Proof.
  apply (no_input_raises E_unsat false (only_output E_unsat)).
  - apply all_kindedb_spec. vm_compute. reflexivity.
  - vm_compute. reflexivity.
Defined.

(** X11 at the sample ports with a channel between unknown names. *)
Lemma missing_kind_raises_KeyError_witness :
  translate_schematic E_unsat (dangling E_unsat)
  = (inl (KeyError "kind"), dangling E_unsat)
  /\ solve E_unsat false (dangling E_unsat) = (inl (KeyError "kind"), dangling E_unsat)
  /\ forall path fs,
       to_json E_unsat path (dangling E_unsat, fs)
       = (inl (KeyError "kind"), (dangling E_unsat, fs)).
Proof.
  eapply (missing_kind_raises_KeyError E_unsat false (dangling E_unsat) (PStr "Y")).
  - vm_compute. right. right. right. left. reflexivity.
  - vm_compute. reflexivity.
Defined.

(** X12 at a schematic with an input port only. *)
Lemma input_without_output_raises_witness :
  translate_schematic E_unsat (only_input E_unsat)
  = (inl (ValueError (schematic_input_has_no_output (PStr "A"))), only_input E_unsat).
Proof.
  eapply (input_without_output_raises E_unsat (only_input E_unsat) [] [] (PStr "A")).
  - vm_compute. reflexivity.
  - apply all_kindedb_spec. vm_compute. reflexivity.
  - vm_compute. reflexivity.
  - reflexivity.
  - vm_compute. reflexivity.
Defined.

(** X13 at the sample circuit: first the constraint of the input [A],
    then the chip constraints of [A] and [B]. *)
Lemma translation_order_witness :
  translate_schematic E_sat (circuit E_sat)
  = (inr tt,
     with_exprs E_sat (circuit E_sat)
       (exprs (circuit E_sat)
        ++ flat_map (fun item => tagged "input " (fst item))
             (filter (has_kind "input") (dg (circuit E_sat)))
        ++ flat_map (fun item => tagged "chip " (fst item)) (dg (circuit E_sat)))).
Proof.
  apply (translation_order E_sat (circuit E_sat) (tagged "input ") (tagged "chip ")).
  - apply all_kindedb_spec. vm_compute. reflexivity.
  - vm_compute. reflexivity.
  - vm_compute. reflexivity.
  - intros item _ _. reflexivity.
  - intros item _. reflexivity.
Defined.

(** X14 at the sample circuit. *)
Lemma solve_only_appends_witness :
  dg (snd (solve E_sat false (circuit E_sat))) = dg (circuit E_sat)
  /\ dim (snd (solve E_sat false (circuit E_sat))) = dim (circuit E_sat)
  /\ translation_strats (snd (solve E_sat false (circuit E_sat)))
     = translation_strats (circuit E_sat)
  /\ (exists T, exprs (snd (solve E_sat false (circuit E_sat)))
                = exprs (circuit E_sat) ++ T)
  /\ forall path fs, exists r' fs',
       to_json E_sat path (circuit E_sat, fs)
       = (r', (snd (solve E_sat false (circuit E_sat)), fs'))
       /\ (forall e, r' = inl e -> fs' = fs).
Proof.
  apply (solve_only_appends E_sat false (circuit E_sat)
           (snd (solve E_sat false (circuit E_sat)))
           (fst (solve E_sat false (circuit E_sat)))).
  apply surjective_pairing.
Defined.

(** X15 at the sample circuit, written to [out.json]. *)
Lemma to_json_ir_shape_witness :
  exists ir,
    dict_get String.eqb "out.json"
      (snd (snd (to_json E_sat "out.json" (circuit E_sat, [])))) = Some ir
    /\ map fst (connections ir) = ids "ch" 0 (length (edges (dg (circuit E_sat))))
    /\ map fst (ir_nodes ir) = ids "pT" 0 (length (dg (circuit E_sat)))
    /\ portTypes ir = map type_of_node (filter is_port_entry (ir_nodes ir))
    /\ nodeTypes ir
       = map type_of_node (filter (fun e => negb (is_port_entry e)) (ir_nodes ir))
    /\ (forall id c key a, In (id, c) (connections ir) ->
          In (key, a) (c_attributes c) -> isinstance_Variable a = false)
    /\ (forall id n key a, In (id, n) (ir_nodes ir) ->
          In (key, a) (n_attributes n) -> isinstance_Variable a = false).
Proof.
  apply (to_json_ir_shape E_sat "out.json" (circuit E_sat)
           (fst (snd (to_json E_sat "out.json" (circuit E_sat, [])))) []
           (snd (snd (to_json E_sat "out.json" (circuit E_sat, []))))).
  vm_compute. reflexivity.
Defined.

(** X16 at the node dict of [A] and the variable [A_pressure]. *)
Lemma node_variable_written_back_witness :
  project_node (split "_" ("A" ++ "_" ++ "pressure")%string) (100, 101)%Q node_A
  = inr (if contains "_" "A" then node_A
         else dict_set String.eqb "pressure" (Interval 100 101) node_A).
Proof.
  apply (node_variable_written_back "A" "pressure" (100, 101)%Q node_A).
  reflexivity.
Defined.

(** X17 at the link dict of [(A, B)] and the variable [A_B_flow_rate]. *)
Lemma channel_variable_written_twice_witness :
  project_link (split "_" ("A" ++ "_" ++ "B" ++ "_" ++ "flow_rate")%string)
    (2, 3)%Q link_A_B
  = inr (dict_set String.eqb "flow_rate" (Interval 2 3) link_A_B)
  /\ project_node (split "_" ("A" ++ "_" ++ "B" ++ "_" ++ "flow_rate")%string)
       (2, 3)%Q node_A
     = inr (dict_set String.eqb ("B" ++ "_" ++ "flow_rate")%string
              (Interval 2 3) node_A).
Proof.
  apply (channel_variable_written_twice "A" "B" "flow_rate" (2, 3)%Q link_A_B node_A);
    reflexivity.
Defined.

(** X18 at the sample circuit and its model. *)
Lemma to_json_returns_witness :
  exists ir,
    to_json E_sat "out.json" (circuit E_sat, [])
    = (inr tt, (snd (solve E_sat false (circuit E_sat)),
                dict_set String.eqb "out.json" ir [])).
Proof.
  apply (to_json_returns E_sat "out.json" (circuit E_sat)
           (snd (solve E_sat false (circuit E_sat))) [] model_circuit).
  - vm_compute. reflexivity.
  - intros name value Hin. unfold model_circuit in Hin. cbn [In] in Hin.
    repeat (destruct Hin as [Hin | Hin]; [injection Hin as <- _; reflexivity | ]).
    destruct Hin.
Defined.

(** X19 at the sample circuit with a model that has a variable named
    [A]: the export raises [IndexError]. *)
Lemma to_json_raises_witness :
  to_json E_A "out.json" (circuit E_A, [])
  = (inl (IndexError (builtin "list index out of range")),
     (snd (solve E_A false (circuit E_A)), []))
  /\ exists model name value,
       solve E_A false (circuit E_A)
       = (inr (OBox model), snd (solve E_A false (circuit E_A)))
       /\ In (name, value) model /\ contains "_" name = false.
Proof.
  assert (H : to_json E_A "out.json" (circuit E_A, [])
              = (inl (IndexError (builtin "list index out of range")),
                 (snd (solve E_A false (circuit E_A)), [])))
    by (vm_compute; reflexivity).
  split; [exact H | ].
  destruct (to_json_raises E_A "out.json" (circuit E_A)
              (snd (solve E_A false (circuit E_A))) [] []
              (IndexError (builtin "list index out of range")) H)
    as [_ [Hs | [(msg & Hs & _) | (model & name & value & Hs & Hin & Hn & _)]]].
  - vm_compute in Hs. discriminate Hs.
  - vm_compute in Hs. discriminate Hs.
  - exists model, name, value. split; [exact Hs | ]. split; [exact Hin | exact Hn].
Defined.

(** X20 at the sample circuit after the projection of its model. *)
Lemma ir_bags_closed_form_witness :
  Forall (fun d => connection_attributes d = filter kept_on_connection d)
    (fst projected_circuit)
  /\ Forall (fun d => node_attributes d = filter kept_on_node d)
       (snd projected_circuit).
Proof.
  apply (ir_bags_closed_form (dg (circuit E_sat)) model_circuit
           (fst projected_circuit) (snd projected_circuit)).
  vm_compute. reflexivity.
Defined.

(** X21 at the end [X] of a channel between unknown names: the script
    tries to create [X] as a port and leaves it without a kind. *)
Lemma attributes_written_once_witness :
  node_attrs (dg (after_calls E_unsat script (dangling E_unsat))) (PStr "X") = Some []
  /\ (dict_get String.eqb "kind" (@nil (string * attr)) = None ->
      forall show,
        solve E_unsat show (after_calls E_unsat script (dangling E_unsat))
        = (inl (KeyError "kind"), after_calls E_unsat script (dangling E_unsat))).
Proof.
  apply (attributes_written_once E_unsat script (dangling E_unsat) "X" []).
  vm_compute. reflexivity.
Defined.
